(** * Keyword clustering worker: a shallow embedding of
      [apps/workers/workers/cluster_worker.py] and its properties.

    Conventions of the embedding.
    - Python [int] is [Z]; list positions and [len] are [nat].
    - The inertia of a fit is a float64, as in numpy: a primitive [float],
      with the rounding, the signed zeros, the infinities and the NaN of
      IEEE 754 binary64.  [np.diff] subtracts and [np.argmin] compares in
      that arithmetic.
    - The other [float] values (cpc, means, embeddings) are idealised as
      rationals [Q]: the worker only averages them and tests a cpc against
      zero.
    - A call that may raise returns [result]; [Raise] propagates the way an
      uncaught exception does (every [except] block of the worker logs and
      re-raises).
    - scikit-learn's [KMeans], the TF-IDF vectoriser, [json.loads] and the
      clock are collaborators outside the worker: they are section
      variables, and every theorem holds for whatever they return. *)

From Stdlib Require Import Floats.
From Stdlib Require Import String Ascii DecimalString.
From Stdlib Require Import List ZArith QArith Qround Bool Arith Lia.
From Stdlib Require Import Permutation Sorted.
From Stdlib Require DecimalPos DecimalZ.
Import ListNotations.

(* ------------------------------------------------------------------ *)
(** ** Exceptions and the error monad *)

Inductive exn : Type :=
| IndexError
| ZeroDivisionError
| ValueError
| ExternalError (msg : string).

Inductive result (A : Type) : Type :=
| Ok (a : A)
| Raise (e : exn).

Arguments Ok {A} a.
Arguments Raise {A} e.

Definition bind {A B : Type} (m : result A) (f : A -> result B) : result B :=
  match m with
  | Ok a => f a
  | Raise e => Raise e
  end.

Declare Scope py_scope.
Delimit Scope py_scope with py.
Notation "x <- m ;; k" := (bind m (fun x => k))
  (at level 61, m at next level, right associativity) : py_scope.
Open Scope py_scope.

Fixpoint mapM {A B : Type} (f : A -> result B) (l : list A) : result (list B) :=
  match l with
  | [] => Ok []
  | x :: r => y <- f x ;; ys <- mapM f r ;; Ok (y :: ys)
  end.

Definition map_result {A B : Type} (f : A -> B) (m : result A) : result B :=
  match m with
  | Ok a => Ok (f a)
  | Raise e => Raise e
  end.

(* ------------------------------------------------------------------ *)
(** ** Python and numpy primitives used by the worker *)

(** [l[i]] for a non-negative position. *)
Definition py_getitem {A : Type} (l : list A) (i : nat) : result A :=
  match nth_error l i with
  | Some x => Ok x
  | None => Raise IndexError
  end.

(** [a // b] on integers (floor division, as [Z.div]). *)
Definition py_floordiv (a b : Z) : result Z :=
  if (b =? 0)%Z then Raise ZeroDivisionError else Ok (a / b)%Z.

(** [range(lo, hi)]. *)
Definition py_range (lo hi : Z) : list Z :=
  map (fun i => (lo + Z.of_nat i)%Z) (seq 0 (Z.to_nat (hi - lo))).

(** [np.diff(a)] on a float64 array: [out[i] = a[i+1] - a[i]], each
    subtraction rounded to float64. *)
Fixpoint np_diff (a : list float) : list float :=
  match a with
  | x :: (y :: _) as t => PrimFloat.sub y x :: np_diff t
  | _ => []
  end.

(** The scan of [np.argmin] on float64: [mp] is the running minimum, [mi]
    its position, [i] the position of the head of [l].  The minimum moves
    only when [not (x >= mp)], so the first minimal position wins; a NaN
    fails every comparison, becomes the minimum and ends the scan. *)
Fixpoint argmin_scan (mp : float) (mi i : nat) (l : list float) : nat :=
  match l with
  | [] => mi
  | x :: r =>
      if PrimFloat.leb mp x then argmin_scan mp mi (S i) r
      else if PrimFloat.is_nan x then i
      else argmin_scan x i (S i) r
  end.

(** [np.argmin(a)]; an empty array raises [ValueError], and a NaN in first
    position is the minimum at once. *)
Definition np_argmin (a : list float) : result nat :=
  match a with
  | [] => Raise ValueError
  | x :: r => if PrimFloat.is_nan x then Ok 0%nat else Ok (argmin_scan x 0 1 r)
  end.

Definition Qsum (l : list Q) : Q := fold_right Qplus 0 l.

(** [np.mean(a)], exact. *)
Definition np_mean (a : list Q) : Q :=
  Qsum a / inject_Z (Z.of_nat (length a)).

(** [np.where(labels == i)[0]]: the positions holding [i], ascending;
    [j] is the position of the head of [labels]. *)
Fixpoint where_from (j : nat) (labels : list Z) (i : Z) : list nat :=
  match labels with
  | [] => []
  | l :: r =>
      if (l =? i)%Z then j :: where_from (S j) r i
      else where_from (S j) r i
  end.

Definition np_where_eq (labels : list Z) (i : Z) : list nat :=
  where_from 0 labels i.

(* ------------------------------------------------------------------ *)
(** ** Elbow detection: [ClusterWorker._find_elbow_point] *)

Definition _find_elbow_point (k_values : list Z) (inertias : list float) : result Z :=
  if (length inertias <? 3)%nat then
    match k_values with
    | k0 :: _ => Ok k0
    | [] => Ok 2%Z
    end
  else
    let diffs := np_diff inertias in
    let diff_diffs := np_diff diffs in
    a <- np_argmin diff_diffs ;;
    let elbow_idx := (a + 1)%nat in
    py_getitem k_values elbow_idx.

(** The wording of the specification, to compare with the code. *)
Module ElbowSpec.

(** First difference of a float64 sequence, position by position. *)
Definition first_difference (xs : list float) : list float :=
  map (fun i => PrimFloat.sub (nth (S i) xs 0%float) (nth i xs 0%float))
      (seq 0 (length xs - 1)).

Definition second_difference (xs : list float) : list float :=
  first_difference (first_difference xs).

(** [p] is a position of [dd] whose value is most negative in the order of
    float64: no value of [dd] is below it, and it is the first such
    position.  (Values that compare equal, such as [0.0] and [-0.0], tie.) *)
Definition most_negative_at (dd : list float) (p : nat) : Prop :=
  exists v,
    nth_error dd p = Some v /\
    (forall q w, nth_error dd q = Some w -> PrimFloat.leb v w = true) /\
    (forall q w, (q < p)%nat -> nth_error dd q = Some w ->
       PrimFloat.ltb v w = true).

(** No value of [dd] is a NaN; some value of [dd] is a NaN. *)
Definition nan_free (dd : list float) : Prop :=
  Forall (fun w => PrimFloat.is_nan w = false) dd.

Definition has_nan (dd : list float) : Prop :=
  Exists (fun w => PrimFloat.is_nan w = true) dd.

(** [p] is the position of the first NaN of [dd]. *)
Definition first_nan_at (dd : list float) (p : nat) : Prop :=
  exists v,
    nth_error dd p = Some v /\
    PrimFloat.is_nan v = true /\
    (forall q w, (q < p)%nat -> nth_error dd q = Some w ->
       PrimFloat.is_nan w = false).

(** The candidate list is ascending, as [range(2, max_k + 1)] is. *)
Definition ascending (ks : list Z) : Prop := StronglySorted Z.lt ks.

End ElbowSpec.

(** The order of float64 read on the specification of floats: every value
    but NaN has a rank (sign class, then exponent, then mantissa), and the
    comparison of two such values is the lexicographic comparison of their
    ranks.  Used in proofs only. *)
Module FloatOrder.

Definition rank (f : spec_float) : option (Z * Z * Z) :=
  match f with
  | S754_nan => None
  | S754_infinity true => Some (-2, 0, 0)%Z
  | S754_infinity false => Some (2, 0, 0)%Z
  | S754_zero _ => Some (0, 0, 0)%Z
  | S754_finite true m e => Some (-1, - e, Z.neg m)%Z
  | S754_finite false m e => Some (1, e, Z.pos m)%Z
  end.

Definition lex3 (k1 k2 : Z * Z * Z) : comparison :=
  let '(a1, b1, c1) := k1 in
  let '(a2, b2, c2) := k2 in
  match (a1 ?= a2)%Z with
  | Eq => match (b1 ?= b2)%Z with
          | Eq => (c1 ?= c2)%Z
          | r => r
          end
  | r => r
  end.

Definition lt3 (k1 k2 : Z * Z * Z) : Prop :=
  let '(a1, b1, c1) := k1 in
  let '(a2, b2, c2) := k2 in
  (a1 < a2 \/ (a1 = a2 /\ (b1 < b2 \/ (b1 = b2 /\ c1 < c2))))%Z.

End FloatOrder.

(* ------------------------------------------------------------------ *)
(** ** Strings

    A Python [str] is modelled as a [string] of code points below 256
    (Latin-1); [lower] and the whitespace test follow Python on that range. *)

Definition in_range (lo hi n : nat) : bool := (lo <=? n)%nat && (n <=? hi)%nat.

(** [c.isspace()], the separator test of [str.split()] without arguments. *)
Definition py_isspace (c : ascii) : bool :=
  let n := nat_of_ascii c in
  in_range 9 13 n || in_range 28 32 n || (n =? 133)%nat || (n =? 160)%nat.

Definition py_lower_char (c : ascii) : ascii :=
  let n := nat_of_ascii c in
  if in_range 65 90 n || (in_range 192 222 n && negb (n =? 215)%nat)
  then ascii_of_nat (n + 32)
  else c.

(** [s.lower()]. *)
Fixpoint py_lower (s : string) : string :=
  match s with
  | EmptyString => EmptyString
  | String c r => String (py_lower_char c) (py_lower r)
  end.

Definition str_is_empty (s : string) : bool :=
  match s with
  | EmptyString => true
  | String _ _ => false
  end.

(** The scan of [s.split()]: [cur] is the token being read. Runs of
    whitespace separate tokens and no empty token is produced. *)
Fixpoint split_scan (cur : string) (s : string) : list string :=
  match s with
  | EmptyString => if str_is_empty cur then [] else [cur]
  | String c r =>
      if py_isspace c then
        if str_is_empty cur then split_scan EmptyString r
        else cur :: split_scan EmptyString r
      else split_scan (cur ++ String c EmptyString)%string r
  end.

(** [s.split()]. *)
Definition py_split (s : string) : list string := split_scan EmptyString s.

(** [sep.join(l)]. *)
Definition py_join (sep : string) (l : list string) : string :=
  String.concat sep l.

(** [str(i)] for an integer. *)
Definition py_str_int (i : Z) : string := NilZero.string_of_int (Z.to_int i).

(* ------------------------------------------------------------------ *)
(** ** Insertion-ordered dictionaries and stable sorting *)

(** A Python [dict] with string keys: the entries in insertion order. *)
Definition dict (V : Type) : Type := list (string * V).

(** [d.get(k, default)]. *)
Fixpoint dict_get {V : Type} (d : dict V) (k : string) (default : V) : V :=
  match d with
  | [] => default
  | (k', v) :: r => if String.eqb k' k then v else dict_get r k default
  end.

(** [d[k] = v]: an existing key keeps its place, a new key goes last. *)
Fixpoint dict_set {V : Type} (d : dict V) (k : string) (v : V) : dict V :=
  match d with
  | [] => [(k, v)]
  | (k', v') :: r =>
      if String.eqb k' k then (k', v) :: r else (k', v') :: dict_set r k v
  end.

(** Stable sort in descending order; [geb x y] says that the sort key of
    [x] is at least that of [y]. Elements with equal keys keep their order,
    as in [sorted(..., reverse=True)]. *)
Fixpoint insert_desc {A : Type} (geb : A -> A -> bool) (x : A) (l : list A) : list A :=
  match l with
  | [] => [x]
  | y :: r => if geb x y then x :: y :: r else y :: insert_desc geb x r
  end.

Definition sort_desc {A : Type} (geb : A -> A -> bool) (l : list A) : list A :=
  fold_right (insert_desc geb) [] l.

(* ------------------------------------------------------------------ *)
(** ** Data model *)

(** A decoded JSON value (the result of [json.loads]). *)
#[local] Unset Elimination Schemes.
Inductive json : Type :=
| JNull
| JBool (b : bool)
| JNum (q : Q)
| JStr (s : string)
| JArr (l : list json)
| JObj (fields : list (string * json)).
#[local] Set Elimination Schemes.

(** The keyword dictionaries built by [get_keywords_for_clustering]. *)
Module Keyword.
Record t : Type := mk {
  id : string;
  term : string;
  search_volume : Z;
  difficulty : Z;
  cpc : Q;
  settings : json
}.
End Keyword.

(** The dataclass [KeywordCluster]. *)
Module KeywordCluster.
Record t : Type := mk {
  id : string;
  name : string;
  description : string;
  keywords : list string;
  embedding : option (list Q);
  centroid : option (list Q);
  size : nat;
  avg_search_volume : Q;
  avg_difficulty : Q;
  avg_cpc : Q
}.
End KeywordCluster.

(** A fitted [KMeans] estimator, as far as the worker reads it. *)
Module KMeans.
Record t : Type := mk {
  inertia_ : float;
  labels_ : list Z;
  cluster_centers_ : list (list Q)
}.
End KMeans.

(** The clustering parameters set by [ClusterWorker.__init__]. *)
Module ClusterWorker.
Record t : Type := mk {
  min_cluster_size : Z;
  similarity_threshold : Q;
  max_clusters : Z
}.
Definition init : t := mk 3 (7 # 10) 20.
End ClusterWorker.

(** A row of table [keywords]. *)
Module KeywordRow.
Record t : Type := mk {
  id : string;
  term : string;
  search_volume : option Z;
  difficulty : option Z;
  cpc : option Q;
  settings : option string;
  org_id : string;
  project_id : option string;
  cluster_id : option string;
  updated_at : string
}.
End KeywordRow.

(** A row of table [clusters]. *)
Module ClusterRow.
Record t : Type := mk {
  id : string;
  name : string;
  description : string;
  keywords : list string;
  embedding : option (list Q);
  org_id : string;
  project_id : option string;
  created_at : string;
  updated_at : string
}.
End ClusterRow.

(** The relational store, as far as the worker reads and writes it. *)
Record DB : Type := mkDB {
  keywords_table : list KeywordRow.t;
  clusters_table : list ClusterRow.t
}.

(** The summary returned by [process_keywords]. *)
Module Summary.
Record cluster_info : Type := mk_info {
  id : string;
  name : string;
  description : string;
  keywords : list string;
  size : nat;
  avg_search_volume : Q;
  avg_difficulty : Q;
  avg_cpc : Q
}.
Record t : Type := mk {
  clusters_created : nat;
  keywords_processed : nat;
  clusters : list cluster_info
}.
End Summary.

(* ------------------------------------------------------------------ *)
(** ** Cluster naming: [_generate_cluster_name], [_generate_cluster_description] *)

(** The counting loop over [all_words]. *)
Definition count_words (all_words : list string) : dict Z :=
  fold_left
    (fun word_counts word =>
       if (2 <? String.length word)%nat
       then dict_set word_counts word (dict_get word_counts word 0 + 1)%Z
       else word_counts)
    all_words [].

Definition _generate_cluster_name (keywords : list Keyword.t) : result string :=
  let terms := map Keyword.term keywords in
  let all_words := flat_map (fun term => py_split (py_lower term)) terms in
  let word_counts := count_words all_words in
  let common_words :=
    firstn 3 (sort_desc (fun x y => (snd y <=? snd x)%Z) word_counts) in
  match common_words with
  | _ :: _ => Ok ("Cluster: " ++ py_join " " (map fst common_words))%string
  | [] => t0 <- py_getitem terms 0 ;; Ok ("Cluster: " ++ t0)%string
  end.

Definition _generate_cluster_description (keywords : list Keyword.t) : string :=
  let terms := map Keyword.term keywords in
  if (length terms <=? 3)%nat then
    ("Keywords related to: " ++ py_join ", " terms)%string
  else
    ("Cluster of " ++ py_str_int (Z.of_nat (length terms))
       ++ " related keywords including: " ++ py_join ", " (firstn 3 terms)
       ++ "...")%string.

(* ------------------------------------------------------------------ *)
(** ** The worker *)

(** [x or default] on a nullable integer column: [None] and [0] are falsy. *)
Definition py_or_int (x : option Z) (default : Z) : Z :=
  match x with
  | Some v => if (v =? 0)%Z then default else v
  | None => default
  end.

(** [x or default] on a nullable numeric column. *)
Definition py_or_num (x : option Q) (default : Q) : Q :=
  match x with
  | Some v => if Qeq_bool v 0 then default else v
  | None => default
  end.

(** [ORDER BY search_volume DESC NULLS LAST] compares two rows. *)
Definition volume_geb (a b : KeywordRow.t) : bool :=
  match KeywordRow.search_volume a, KeywordRow.search_volume b with
  | Some x, Some y => (y <=? x)%Z
  | Some _, None => true
  | None, Some _ => false
  | None, None => true
  end.

(** The [WHERE] clause of the fetch. A [NULL] project never equals the
    parameter. *)
Definition fetch_where (org_id : string) (project_id : option string)
    (r : KeywordRow.t) : bool :=
  String.eqb (KeywordRow.org_id r) org_id
  && match project_id with
     | None => true
     | Some p =>
         match KeywordRow.project_id r with
         | Some q => String.eqb q p
         | None => false
         end
     end
  && match KeywordRow.cluster_id r with
     | None => true
     | Some _ => false
     end.

(** The [WHERE] clause of the [UPDATE] issued by [save_clusters]. *)
Definition update_where (keyword org_id : string) (r : KeywordRow.t) : bool :=
  String.eqb (KeywordRow.term r) keyword
  && String.eqb (KeywordRow.org_id r) org_id.

Definition set_cluster (cluster_id now : string) (r : KeywordRow.t) : KeywordRow.t :=
  KeywordRow.mk (KeywordRow.id r) (KeywordRow.term r)
    (KeywordRow.search_volume r) (KeywordRow.difficulty r) (KeywordRow.cpc r)
    (KeywordRow.settings r) (KeywordRow.org_id r) (KeywordRow.project_id r)
    (Some cluster_id) now.

(** [UPDATE keywords SET cluster_id = ..., updated_at = NOW() WHERE ...]. *)
Definition update_keywords (cluster_id keyword org_id now : string)
    (rows : list KeywordRow.t) : list KeywordRow.t :=
  map (fun r => if update_where keyword org_id r
                then set_cluster cluster_id now r else r) rows.

(** One iteration of the outer loop of [save_clusters]: the [INSERT],
    then one [UPDATE] per member term. *)
Definition save_cluster (org_id : string) (project_id : option string)
    (now : string) (st : DB * list string) (cluster : KeywordCluster.t)
    : DB * list string :=
  let (db, cluster_ids) := st in
  let row :=
    ClusterRow.mk (KeywordCluster.id cluster) (KeywordCluster.name cluster)
      (KeywordCluster.description cluster) (KeywordCluster.keywords cluster)
      (KeywordCluster.centroid cluster) org_id project_id now now in
  let cluster_id := ClusterRow.id row in
  let kws :=
    fold_left (fun rows keyword => update_keywords cluster_id keyword org_id now rows)
      (KeywordCluster.keywords cluster) (keywords_table db) in
  (mkDB kws (clusters_table db ++ [row]), cluster_ids ++ [cluster_id]).

(** [save_clusters]; [now] is the value of [NOW()] in the transaction.
    The store is taken to execute every statement and the commit: a
    statement that fails (and the rollback that follows) is not described. *)
Definition save_clusters (clusters : list KeywordCluster.t) (org_id : string)
    (project_id : option string) (now : string) (db : DB) : DB * list string :=
  fold_left (save_cluster org_id project_id now) clusters (db, []).

Section Worker.

(** [KMeans(n_clusters, random_state, n_init).fit(X)]. *)
Variable KMeans_fit : Z -> Z -> Z -> list (list Q) -> result KMeans.t.
(** [TfidfVectorizer(max_features=1000, ngram_range=(1, 2),
    stop_words='english', min_df=1).fit_transform(keywords).toarray()]. *)
Variable TfidfVectorizer_fit_transform : list string -> result (list (list Q)).
Variable json_loads : string -> result json.
(** [datetime.utcnow().strftime('%Y%m%d_%H%M%S')] as read while the
    cluster of label [i] is built. *)
Variable utcnow_strftime : Z -> string.

Variable self : ClusterWorker.t.

(** The body of the row loop of [get_keywords_for_clustering]. *)
Definition keyword_of_row (row : KeywordRow.t) : result Keyword.t :=
  settings <- match KeywordRow.settings row with
              | Some s => if str_is_empty s then Ok (JObj []) else json_loads s
              | None => Ok (JObj [])
              end ;;
  Ok (Keyword.mk (KeywordRow.id row) (KeywordRow.term row)
        (py_or_int (KeywordRow.search_volume row) 0)
        (py_or_int (KeywordRow.difficulty row) 50)
        (py_or_num (KeywordRow.cpc row) 0)
        settings).

(** The query, then the row loop.  The store is taken to answer the query;
    rows with equal search volume come in table order. *)
Definition get_keywords_for_clustering (db : DB) (org_id : string)
    (project_id : option string) : result (list Keyword.t) :=
  let rows :=
    sort_desc volume_geb
      (filter (fetch_where org_id project_id) (keywords_table db)) in
  mapM keyword_of_row rows.

Definition create_embeddings (keywords : list string) : result (list (list Q)) :=
  TfidfVectorizer_fit_transform keywords.

(** The body of the loop [for i in range(optimal_k)] of [cluster_keywords]:
    [None] when the group is below the minimum size. *)
Definition make_cluster (keywords : list Keyword.t) (embeddings : list (list Q))
    (kmeans : KMeans.t) (i : Z) : result (option KeywordCluster.t) :=
  let cluster_indices := np_where_eq (KMeans.labels_ kmeans) i in
  if (ClusterWorker.min_cluster_size self <=? Z.of_nat (length cluster_indices))%Z then
    cluster_keywords <- mapM (py_getitem keywords) cluster_indices ;;
    cluster_embeddings <- mapM (py_getitem embeddings) cluster_indices ;;
    let search_volumes := map Keyword.search_volume cluster_keywords in
    let difficulties := map Keyword.difficulty cluster_keywords in
    let cpcs := map Keyword.cpc cluster_keywords in
    let id := ("cluster_" ++ py_str_int i ++ "_" ++ utcnow_strftime i)%string in
    name <- _generate_cluster_name cluster_keywords ;;
    let description := _generate_cluster_description cluster_keywords in
    centroid <- py_getitem (KMeans.cluster_centers_ kmeans) (Z.to_nat i) ;;
    Ok (Some (KeywordCluster.mk id name description
                (map Keyword.term cluster_keywords)
                None (Some centroid)
                (length cluster_keywords)
                (np_mean (map inject_Z search_volumes))
                (np_mean (map inject_Z difficulties))
                (np_mean cpcs)))
  else Ok None.

(** The loop itself: clusters are appended in the order of the labels. *)
Fixpoint collect_clusters (keywords : list Keyword.t) (embeddings : list (list Q))
    (kmeans : KMeans.t) (labels : list Z) : result (list KeywordCluster.t) :=
  match labels with
  | [] => Ok []
  | i :: rest =>
      c <- make_cluster keywords embeddings kmeans i ;;
      cs <- collect_clusters keywords embeddings kmeans rest ;;
      Ok (match c with Some cluster => cluster :: cs | None => cs end)
  end.

(** The choice of the cluster count inside [cluster_keywords]: the
    candidate range, one fit per candidate, the elbow. *)
Definition select_k (n_keywords : Z) (embeddings : list (list Q)) : result Z :=
  q <- py_floordiv n_keywords (ClusterWorker.min_cluster_size self) ;;
  let max_k := Z.min (ClusterWorker.max_clusters self) q in
  let max_k := if (max_k <? 2)%Z then 2%Z else max_k in
  let k_values := py_range 2 (max_k + 1) in
  inertias <- mapM (fun k => kmeans <- KMeans_fit k 42 10 embeddings ;;
                             Ok (KMeans.inertia_ kmeans)) k_values ;;
  _find_elbow_point k_values inertias.

Definition cluster_keywords (keywords : list Keyword.t)
    (embeddings : list (list Q)) : result (list KeywordCluster.t) :=
  let n_keywords := Z.of_nat (length keywords) in
  if (n_keywords <? ClusterWorker.min_cluster_size self)%Z then Ok []
  else
    optimal_k <- select_k n_keywords embeddings ;;
    kmeans <- KMeans_fit optimal_k 42 10 embeddings ;;
    collect_clusters keywords embeddings kmeans (py_range 0 optimal_k).

Definition cluster_info (c : KeywordCluster.t) : Summary.cluster_info :=
  Summary.mk_info (KeywordCluster.id c) (KeywordCluster.name c)
    (KeywordCluster.description c) (KeywordCluster.keywords c)
    (KeywordCluster.size c) (KeywordCluster.avg_search_volume c)
    (KeywordCluster.avg_difficulty c) (KeywordCluster.avg_cpc c).

(** [process_keywords]: the store after the call and its outcome.  The
    exceptions described are those of the row loop, of the vectoriser and of
    the clustering, all raised before anything is written; a failure of the
    store itself is not described. *)
Definition process_keywords (db : DB) (org_id : string)
    (project_id : option string) (now : string) : DB * result Summary.t :=
  match get_keywords_for_clustering db org_id project_id with
  | Raise e => (db, Raise e)
  | Ok [] => (db, Ok (Summary.mk 0 0 []))
  | Ok keywords =>
      let keyword_terms := map Keyword.term keywords in
      match (embeddings <- create_embeddings keyword_terms ;;
             cluster_keywords keywords embeddings) with
      | Raise e => (db, Raise e)
      | Ok clusters =>
          let (db', cluster_ids) := save_clusters clusters org_id project_id now db in
          (db', Ok (Summary.mk (length clusters) (length keywords)
                      (map cluster_info clusters)))
      end
  end.

End Worker.

(* ------------------------------------------------------------------ *)
(** ** Notions of the specification about clusters *)

Module ClusterSpec.

(** The arithmetic mean of a non-empty list of numbers. *)
Definition is_arithmetic_mean (xs : list Q) (m : Q) : Prop :=
  xs <> [] /\ m * inject_Z (Z.of_nat (length xs)) == Qsum xs.

(** The number of keywords that k-means put in group [i]. *)
Definition group_size (labels : list Z) (i : Z) : nat :=
  count_occ Z.eq_dec labels i.

(** Cluster [c] is built from the keywords [g] found at the positions of
    group [i], in ascending position. *)
Definition formed_from (keywords : list Keyword.t) (labels : list Z) (i : Z)
    (g : list Keyword.t) (c : KeywordCluster.t) : Prop :=
  Forall2 (fun j kw => nth_error keywords j = Some kw) (np_where_eq labels i) g /\
  KeywordCluster.keywords c = map Keyword.term g /\
  KeywordCluster.size c = length g /\
  KeywordCluster.avg_search_volume c
    = np_mean (map inject_Z (map Keyword.search_volume g)) /\
  KeywordCluster.avg_difficulty c
    = np_mean (map inject_Z (map Keyword.difficulty g)) /\
  KeywordCluster.avg_cpc c = np_mean (map Keyword.cpc g).

(** Group [i] reaches the minimum cluster size [m]. *)
Definition big_enough (m : Z) (labels : list Z) (i : Z) : bool :=
  (m <=? Z.of_nat (group_size labels i))%Z.

(** A cluster with its id left out: runs are compared up to the renaming
    of cluster ids. *)
Definition forget_id (c : KeywordCluster.t) : KeywordCluster.t :=
  KeywordCluster.mk EmptyString (KeywordCluster.name c)
    (KeywordCluster.description c) (KeywordCluster.keywords c)
    (KeywordCluster.embedding c) (KeywordCluster.centroid c)
    (KeywordCluster.size c) (KeywordCluster.avg_search_volume c)
    (KeywordCluster.avg_difficulty c) (KeywordCluster.avg_cpc c).

(** What two runs are compared on: the member terms of each cluster,
    the cluster ids left out. *)
Definition partition_of (clusters : list KeywordCluster.t) : list (list string) :=
  map KeywordCluster.keywords clusters.

End ClusterSpec.

(* ------------------------------------------------------------------ *)
(** ** The naming heuristic in the words of the specification *)

Module NameSpec.

(** A token survives when it is longer than two characters. *)
Definition long_enough (w : string) : bool := (2 <? String.length w)%nat.

(** Every member term split on whitespace, the tokens lowercased, the short
    ones discarded. *)
Definition tokens (terms : list string) : list string :=
  filter long_enough (map py_lower (flat_map py_split terms)).

(** How often a token occurs across the whole cluster. *)
Definition frequency (toks : list string) (w : string) : nat :=
  count_occ string_dec toks w.

(** [top] lists the [n] most frequent tokens of [toks] (all of them when
    there are fewer), most frequent first. *)
Definition top_frequent (n : nat) (toks top : list string) : Prop :=
  NoDup top /\
  (forall w, In w top -> In w toks) /\
  length top = Nat.min n (length (nodup string_dec toks)) /\
  (forall w u, In w top -> In u toks -> ~ In u top ->
               (frequency toks u <= frequency toks w)%nat) /\
  (forall i j w u, (i < j)%nat ->
     nth_error top i = Some w -> nth_error top j = Some u ->
     (frequency toks u <= frequency toks w)%nat).

(** The dictionary [d] holds, for the surviving words [seen] read so far,
    each distinct word once with the number of its occurrences. *)
Definition counts_ok (seen : list string) (d : dict Z) : Prop :=
  NoDup (map fst d) /\
  (forall w, In w (map fst d) <-> In w seen) /\
  (forall w v, In (w, v) d -> v = Z.of_nat (frequency seen w)).

(** The order of [sorted(..., key=lambda x: x[1], reverse=True)]. *)
Definition count_geb (x y : string * Z) : bool := (snd y <=? snd x)%Z.

(** The name when the fallback is read to the letter: with no surviving
    token, the first member term itself. *)
Definition verbatim_name (terms top : list string) : string :=
  match top with
  | [] => hd EmptyString terms
  | _ :: _ => ("Cluster: " ++ py_join " " top)%string
  end.

(** The name with the prefix kept in the fallback as well. *)
Definition prefixed_name (terms top : list string) : string :=
  match top with
  | [] => ("Cluster: " ++ hd EmptyString terms)%string
  | _ :: _ => ("Cluster: " ++ py_join " " top)%string
  end.

End NameSpec.

(* ------------------------------------------------------------------ *)
(** ** Notions of the specification about the store *)

Module StoreSpec.

(** The stored value of a nullable column, or the documented default. *)
Definition or_default {A : Type} (stored : option A) (default : A) : A :=
  match stored with
  | Some v => v
  | None => default
  end.

(** Row [r'] is row [r] after a run scoped to [org_id]: untouched, or a row
    of that organisation whose cluster reference now is one of [ids]. *)
Definition touched (org_id now : string) (ids : list string)
    (r r' : KeywordRow.t) : Prop :=
  r' = r \/
  exists cid, In cid ids /\ KeywordRow.org_id r = org_id /\
              r' = set_cluster cid now r.

(** The row that [save_clusters] inserts for a cluster. *)
Definition cluster_row (org_id : string) (project_id : option string)
    (now : string) (c : KeywordCluster.t) : ClusterRow.t :=
  ClusterRow.mk (KeywordCluster.id c) (KeywordCluster.name c)
    (KeywordCluster.description c) (KeywordCluster.keywords c)
    (KeywordCluster.centroid c) org_id project_id now now.




End StoreSpec.

(* ------------------------------------------------------------------ *)
(** ** Notions used to describe a whole run *)

Module RunSpec.

(** Cluster [c] lists the term of row [r]. *)
Definition lists_term (c : KeywordCluster.t) (r : KeywordRow.t) : bool :=
  existsb (String.eqb (KeywordRow.term r)) (KeywordCluster.keywords c).

(** Some cluster of the run lists the term of row [r]. *)
Definition term_listed (clusters : list KeywordCluster.t) (r : KeywordRow.t) : bool :=
  existsb (fun c => lists_term c r) clusters.

(** The last cluster of the run that lists the term of row [r]. *)
Definition last_listing (clusters : list KeywordCluster.t) (r : KeywordRow.t)
    : option KeywordCluster.t :=
  find (fun c => lists_term c r) (rev clusters).

(** Row [r] once the run is saved: a row of the organisation whose term is
    listed references the last cluster that lists it; any other row is as
    before. *)
Definition saved_row (org_id now : string) (clusters : list KeywordCluster.t)
    (r : KeywordRow.t) : KeywordRow.t :=
  if String.eqb (KeywordRow.org_id r) org_id then
    match last_listing clusters r with
    | Some c => set_cluster (KeywordCluster.id c) now r
    | None => r
    end
  else r.

(** Row [r] is in the scope of a fetch: of the organisation, of the
    project when one is given, and without a cluster. *)
Definition in_scope (org_id : string) (project_id : option string)
    (r : KeywordRow.t) : Prop :=
  KeywordRow.org_id r = org_id /\
  (forall p, project_id = Some p -> KeywordRow.project_id r = Some p) /\
  KeywordRow.cluster_id r = None.

(** Character [c] occurs in string [s]. *)
Fixpoint has_char (c : ascii) (s : string) : bool :=
  match s with
  | EmptyString => false
  | String a r => Ascii.eqb a c || has_char c r
  end.

(** The distinct elements of [l], in the order of their first appearance. *)
Fixpoint distinct_in_order (l : list string) : list string :=
  match l with
  | [] => []
  | x :: r => x :: filter (fun y => negb (String.eqb y x)) (distinct_in_order r)
  end.

(** An occurrence of [a] comes before an occurrence of [b] in [l]. *)
Definition precedes {A : Type} (l : list A) (a b : A) : Prop :=
  exists l1 l2 l3, l = l1 ++ a :: l2 ++ b :: l3.

(** Word [w] appears in [toks], and before any appearance of [u]. *)
Definition first_before (toks : list string) (w u : string) : Prop :=
  exists pre post, toks = pre ++ w :: post /\ ~ In w pre /\ ~ In u pre.

(** Some character of [s] is whitespace. *)
Fixpoint has_space (s : string) : bool :=
  match s with
  | EmptyString => false
  | String c r => py_isspace c || has_space r
  end.

(** A word: not empty and free of whitespace. *)
Definition is_word (s : string) : bool :=
  negb (str_is_empty s) && negb (has_space s).

(** A keyword that carries term [t] and nothing else. *)
Definition bare_keyword (t : string) : Keyword.t :=
  Keyword.mk EmptyString t 0 0 0 (JObj []).

(** The number of member terms over all clusters. *)
Definition total_size (clusters : list KeywordCluster.t) : nat :=
  list_sum (map KeywordCluster.size clusters).

(** The largest candidate cluster count for [n] keywords. *)
Definition max_k (self : ClusterWorker.t) (n : Z) : Z :=
  Z.max 2 (Z.min (ClusterWorker.max_clusters self)
                 (n / ClusterWorker.min_cluster_size self)).

End RunSpec.

(* ------------------------------------------------------------------ *)
(** ** Sample data *)

Module Sample.

(** A stand-in for k-means on one-dimensional points: the label of a point
    is the integer part of its first coordinate. *)
Definition kmeans_fit (k seed n_init : Z) (X : list (list Q)) : result KMeans.t :=
  Ok (KMeans.mk (if (k <=? 2)%Z then 4%float else 2%float)
        (map (fun row => Qfloor (hd 0 row)) X)
        (map (fun i => [inject_Z i]) (py_range 0 k))).

(** The float64 values of 12.9, 11.9, 8.4 and 2.4: their rounded second
    differences are both -2.5, although the exact ones differ. *)
Definition tie_inertias : list float :=
  [0x1.9cccccccccccdp+3; 0x1.7cccccccccccdp+3;
   0x1.0cccccccccccdp+3; 0x1.3333333333333p+1]%float.

Definition tfidf (terms : list string) : result (list (list Q)) :=
  Ok (map (fun t => [inject_Z (Z.of_nat (String.length t) / 16)]) terms).

Definition json_loads (s : string) : result json := Ok (JStr s).

Definition clock (i : Z) : string := "20240127_120000"%string.

Definition kw (id term : string) (sv diff : Z) (cpc : Q) : Keyword.t :=
  Keyword.mk id term sv diff cpc (JObj []).

Definition keywords : list Keyword.t :=
  [ kw "k1" "best running shoes" 900 40 (3 # 2);
    kw "k2" "running shoes for men" 700 35 (1 # 1);
    kw "k3" "trail running shoes" 200 30 (1 # 2);
    kw "k4" "marathon training plan for beginners" 100 20 (1 # 4) ]%string.

Definition embeddings : list (list Q) := [[0]; [0]; [0]; [1]].

Definition two_keywords : list Keyword.t := firstn 2 keywords.

Definition row (id term : string) (sv diff : option Z) (cpc : option Q)
    (org : string) (project : option string) : KeywordRow.t :=
  KeywordRow.mk id term sv diff cpc None org project None "20240101"%string.

(** One organisation, two projects; both projects hold the term
    ["best running shoes"]. *)
Definition db : DB :=
  mkDB
    [ row "k1" "best running shoes" (Some 900%Z) (Some 40%Z) (Some (3 # 2)) "org" (Some "p1");
      row "k2" "running shoes men" (Some 700%Z) (Some 35%Z) (Some 1) "org" (Some "p1");
      row "k3" "trail running shoes" (Some 200%Z) (Some 30%Z) None "org" (Some "p1");
      row "k4" "seo tips" (Some 100%Z) (Some 20%Z) None "org" (Some "p1");
      row "k9" "best running shoes" (Some 50%Z) (Some 10%Z) None "org" (Some "p2") ]%string
    [].


(** A k-means that, as scikit-learn's, refuses more clusters than rows. *)
Definition strict_kmeans_fit (k seed n_init : Z) (X : list (list Q))
    : result KMeans.t :=
  if (Z.of_nat (length X) <? k)%Z
  then Raise (ExternalError "n_samples should be >= n_clusters")
  else kmeans_fit k seed n_init X.

(** A parser that accepts the empty object only. *)
Definition strict_json_loads (s : string) : result json :=
  if String.eqb s "{}" then Ok (JObj []) else Raise ValueError.

Definition settings_row (id : string) (settings : option string) : KeywordRow.t :=
  KeywordRow.mk id "seo tips" None None None settings "org" None None
    "20240101"%string.

(** A keyword whose stored difficulty is the legal value 0. *)
Definition easy_row : KeywordRow.t :=
  row "k5" "blog ideas" (Some 10%Z) (Some 0%Z) (Some (1 # 2)) "org" None.

Definition easy_db : DB := mkDB [easy_row] [].

End Sample.

(* ================================================================== *)
(** * Properties *)

(* ------------------------------------------------------------------ *)
(** ** The error monad and list access *)

Lemma bind_Ok_inv {A B : Type} (m : result A) (f : A -> result B) (b : B) :
  bind m f = Ok b -> exists a, m = Ok a /\ f a = Ok b.
Proof.
  destruct m as [a|e]; simpl; intros H.
  - exists a; auto.
  - discriminate.
Qed.

Ltac bind_inv H :=
  let a := fresh "a" in
  let Ha := fresh "Hm" in
  apply bind_Ok_inv in H; destruct H as (a & Ha & H).

Lemma py_getitem_Ok {A : Type} (l : list A) (i : nat) (x : A) :
  py_getitem l i = Ok x <-> nth_error l i = Some x.
Proof.
  unfold py_getitem. destruct (nth_error l i); split; intros H;
    inversion H; subst; reflexivity.
Qed.

Lemma py_getitem_in_range {A : Type} (l : list A) (i : nat) :
  (i < length l)%nat -> exists x, py_getitem l i = Ok x /\ nth_error l i = Some x.
Proof.
  intros H. apply nth_error_Some in H. unfold py_getitem.
  destruct (nth_error l i) as [x|]; [exists x; auto | congruence].
Qed.

Lemma mapM_Ok_length {A B : Type} (f : A -> result B) (l : list A) (r : list B) :
  mapM f l = Ok r -> length r = length l.
Proof.
  revert r. induction l as [|x l IH]; simpl; intros r H.
  - inversion H. reflexivity.
  - bind_inv H. bind_inv H. inversion H; subst. simpl. f_equal. auto.
Qed.

Lemma mapM_Ok_Forall2 {A B : Type} (f : A -> result B) (l : list A) (r : list B) :
  mapM f l = Ok r -> Forall2 (fun x y => f x = Ok y) l r.
Proof.
  revert r. induction l as [|x l IH]; simpl; intros r H.
  - inversion H. constructor.
  - bind_inv H. bind_inv H. inversion H; subst. constructor; auto.
Qed.

Lemma mapM_total {A B : Type} (f : A -> result B) (l : list A) :
  (forall x, In x l -> exists y, f x = Ok y) -> exists r, mapM f l = Ok r.
Proof.
  induction l as [|x l IH]; simpl; intros H.
  - eexists; reflexivity.
  - destruct (H x (or_introl eq_refl)) as (y & Hy).
    destruct IH as (r & Hr); [intros; apply H; auto|].
    rewrite Hy, Hr. simpl. eexists; reflexivity.
Qed.

Lemma py_range_In (lo hi i : Z) : In i (py_range lo hi) <-> (lo <= i < hi)%Z.
Proof.
  unfold py_range. rewrite in_map_iff. split.
  - intros (n & <- & Hn). apply in_seq in Hn. lia.
  - intros H. exists (Z.to_nat (i - lo)). split; [lia|]. apply in_seq. lia.
Qed.

Lemma py_range_NoDup (lo hi : Z) : NoDup (py_range lo hi).
Proof.
  unfold py_range. apply Finite.Injective_map_NoDup; [|apply seq_NoDup].
  intros a b H. lia.
Qed.

(* ------------------------------------------------------------------ *)
(** ** Elbow detection *)

(** *** The order of float64 *)

Lemma lex3_spec (k1 k2 : Z * Z * Z) :
  CompareSpec (k1 = k2) (FloatOrder.lt3 k1 k2) (FloatOrder.lt3 k2 k1)
    (FloatOrder.lex3 k1 k2).
Proof.
  destruct k1 as [[a1 b1] c1], k2 as [[a2 b2] c2]; unfold FloatOrder.lex3, FloatOrder.lt3.
  destruct (Z.compare_spec a1 a2); [|constructor; lia|constructor; lia].
  destruct (Z.compare_spec b1 b2); [|constructor; lia|constructor; lia].
  destruct (Z.compare_spec c1 c2); constructor; try lia.
  congruence.
Qed.

Lemma SFcompare_rank (f1 f2 : spec_float) (k1 k2 : Z * Z * Z) :
  FloatOrder.rank f1 = Some k1 -> FloatOrder.rank f2 = Some k2 ->
  SFcompare f1 f2 = Some (FloatOrder.lex3 k1 k2).
Proof.
  destruct f1 as [s1|s1| |s1 m1 e1], f2 as [s2|s2| |s2 m2 e2];
    try destruct s1; try destruct s2; simpl; intros H1 H2;
    try discriminate; injection H1 as <-; injection H2 as <-;
    try reflexivity.
  unfold FloatOrder.lex3.
  change (-1 ?= -1)%Z with Eq; cbv iota.
  rewrite Z.compare_opp, (Z.compare_antisym e1 e2).
  destruct (e1 ?= e2)%Z; reflexivity.
Qed.

Lemma rank_not_nan (x : float) :
  PrimFloat.is_nan x = false -> exists k, FloatOrder.rank (Prim2SF x) = Some k.
Proof.
  unfold PrimFloat.is_nan. rewrite FloatAxioms.eqb_spec. unfold SFeqb.
  destruct (Prim2SF x) as [s|s| |s m e]; simpl; try destruct s; try discriminate; eauto.
Qed.

Lemma rank_nan (x : float) :
  PrimFloat.is_nan x = true -> FloatOrder.rank (Prim2SF x) = None.
Proof.
  unfold PrimFloat.is_nan. rewrite FloatAxioms.eqb_spec. unfold SFeqb.
  destruct (Prim2SF x) as [s|s| |s m e] eqn:E; try reflexivity; intros H; exfalso.
  all: assert (Hr : exists k, FloatOrder.rank (Prim2SF x) = Some k)
    by (rewrite E; destruct s; simpl; eauto).
  all: destruct Hr as [k Hk]; rewrite <- E in H;
    rewrite (SFcompare_rank _ _ _ _ Hk Hk) in H;
    destruct (lex3_spec k k) as [_|Hl|Hl]; try discriminate;
    destruct k as [[a b] c]; simpl in Hl; lia.
Qed.

Lemma float_leb_total (x y : float) :
  PrimFloat.is_nan x = false -> PrimFloat.is_nan y = false ->
  PrimFloat.leb x y = false -> PrimFloat.ltb y x = true.
Proof.
  intros Hx Hy. destruct (rank_not_nan x Hx) as [kx Hkx], (rank_not_nan y Hy) as [ky Hky].
  rewrite FloatAxioms.leb_spec, FloatAxioms.ltb_spec. unfold SFleb, SFltb.
  rewrite (SFcompare_rank _ _ _ _ Hkx Hky), (SFcompare_rank _ _ _ _ Hky Hkx).
  destruct (lex3_spec kx ky) as [E|L|L], (lex3_spec ky kx) as [E'|L'|L']; try discriminate; try reflexivity;
  destruct kx as [[a b] c], ky as [[a' b'] c']; simpl in *; intros _; try (injection E as -> -> ->); try (injection E' as -> -> ->); lia.
Qed.

Lemma float_leb_refl (x : float) :
  PrimFloat.is_nan x = false -> PrimFloat.leb x x = true.
Proof.
  intros Hx. destruct (rank_not_nan x Hx) as [kx Hkx].
  rewrite FloatAxioms.leb_spec. unfold SFleb. rewrite (SFcompare_rank _ _ _ _ Hkx Hkx).
  destruct (lex3_spec kx kx) as [E|L|L]; try reflexivity;
  destruct kx as [[a b] c]; simpl in *; lia.
Qed.

Lemma float_ltb_leb (x y : float) :
  PrimFloat.ltb x y = true -> PrimFloat.leb x y = true.
Proof.
  rewrite FloatAxioms.leb_spec, FloatAxioms.ltb_spec. unfold SFleb, SFltb.
  destruct (SFcompare (Prim2SF x) (Prim2SF y)) as [[]|]; congruence.
Qed.

Lemma rank_None (f : spec_float) : FloatOrder.rank f = None -> f = S754_nan.
Proof. destruct f as [s|s| |s m e]; try destruct s; simpl; congruence. Qed.

Lemma float_cmp_not_nan (x y : float) :
  PrimFloat.leb x y = true ->
  PrimFloat.is_nan x = false /\ PrimFloat.is_nan y = false.
Proof.
  rewrite FloatAxioms.leb_spec. unfold SFleb. intros H.
  split.
  - destruct (PrimFloat.is_nan x) eqn:E; [|reflexivity].
    apply rank_nan, rank_None in E. rewrite E in H. discriminate.
  - destruct (PrimFloat.is_nan y) eqn:E; [|reflexivity].
    apply rank_nan, rank_None in E. rewrite E in H.
    destruct (Prim2SF x); discriminate.
Qed.

Lemma float_leb_trans (x y z : float) :
  PrimFloat.leb x y = true -> PrimFloat.leb y z = true -> PrimFloat.leb x z = true.
Proof.
  intros H1 H2.
  destruct (float_cmp_not_nan _ _ H1) as [Hx Hy], (float_cmp_not_nan _ _ H2) as [_ Hz].
  destruct (rank_not_nan x Hx) as [kx Hkx], (rank_not_nan y Hy) as [ky Hky], (rank_not_nan z Hz) as [kz Hkz].
  revert H1 H2. rewrite !FloatAxioms.leb_spec. unfold SFleb.
  rewrite (SFcompare_rank _ _ _ _ Hkx Hky), (SFcompare_rank _ _ _ _ Hky Hkz), (SFcompare_rank _ _ _ _ Hkx Hkz).
  destruct (lex3_spec kx ky) as [E|L|L], (lex3_spec ky kz) as [E'|L'|L'], (lex3_spec kx kz) as [E''|L''|L'']; try discriminate; try reflexivity; intros _ _; exfalso;
  destruct kx as [[a b] c], ky as [[a' b'] c'], kz as [[a'' b''] c'']; simpl in *; try (injection E as -> -> ->); try (injection E' as -> -> ->); try (injection E'' as -> -> ->); lia.
Qed.

Lemma float_ltb_leb_trans (x y z : float) :
  PrimFloat.ltb x y = true -> PrimFloat.leb y z = true -> PrimFloat.ltb x z = true.
Proof.
  intros H1 H2.
  destruct (float_cmp_not_nan _ _ (float_ltb_leb _ _ H1)) as [Hx Hy], (float_cmp_not_nan _ _ H2) as [_ Hz].
  destruct (rank_not_nan x Hx) as [kx Hkx], (rank_not_nan y Hy) as [ky Hky], (rank_not_nan z Hz) as [kz Hkz].
  revert H1 H2. rewrite FloatAxioms.leb_spec, !FloatAxioms.ltb_spec. unfold SFleb, SFltb.
  rewrite (SFcompare_rank _ _ _ _ Hkx Hky), (SFcompare_rank _ _ _ _ Hky Hkz), (SFcompare_rank _ _ _ _ Hkx Hkz).
  destruct (lex3_spec kx ky) as [E|L|L], (lex3_spec ky kz) as [E'|L'|L'], (lex3_spec kx kz) as [E''|L''|L'']; try discriminate; try reflexivity; intros _ _; exfalso;
  destruct kx as [[a b] c], ky as [[a' b'] c'], kz as [[a'' b''] c'']; simpl in *; try (injection E as -> -> ->); try (injection E' as -> -> ->); try (injection E'' as -> -> ->); lia.
Qed.

Lemma float_nan_leb (x y : float) :
  PrimFloat.is_nan y = true -> PrimFloat.leb x y = false.
Proof.
  intros Hy. destruct (PrimFloat.leb x y) eqn:E; [|reflexivity].
  apply float_cmp_not_nan in E. destruct E as [_ E]. congruence.
Qed.

(** *** [np.diff] and [np.argmin] *)

Lemma np_diff_length (a : list float) : length (np_diff a) = (length a - 1)%nat.
Proof.
  induction a as [|x [|y t] IH]; simpl in *; try reflexivity.
  rewrite IH. lia.
Qed.

Lemma np_diff_nth_error (a : list float) (i : nat) (x y : float) :
  nth_error a i = Some x -> nth_error a (S i) = Some y ->
  nth_error (np_diff a) i = Some (PrimFloat.sub y x).
Proof.
  revert i. induction a as [|x0 [|y0 t] IH]; intros i Hx Hy.
  - destruct i; discriminate.
  - destruct i as [|[|i]]; discriminate.
  - destruct i as [|i].
    + simpl in *. congruence.
    + change (nth_error (np_diff (y0 :: t)) i = Some (PrimFloat.sub y x)).
      apply IH; assumption.
Qed.

Lemma np_diff_first_difference (a : list float) :
  np_diff a = ElbowSpec.first_difference a.
Proof.
  apply nth_error_ext. intros i. unfold ElbowSpec.first_difference.
  destruct (Nat.lt_ge_cases i (length a - 1)) as [Hi|Hi].
  - rewrite nth_error_map, nth_error_seq.
    replace (i <? length a - 1)%nat with true by (symmetry; apply Nat.ltb_lt; exact Hi).
    simpl. apply np_diff_nth_error; apply nth_error_nth'; lia.
  - transitivity (@None float).
    + apply nth_error_None. rewrite np_diff_length. exact Hi.
    + symmetry. apply nth_error_None. rewrite length_map, length_seq. exact Hi.
Qed.

Lemma argmin_scan_bound (l : list float) (mp : float) (mi i : nat) :
  (mi < i)%nat -> (argmin_scan mp mi i l < i + length l)%nat.
Proof.
  revert mp mi i. induction l as [|x r IH]; simpl; intros mp mi i H.
  - lia.
  - destruct (PrimFloat.leb mp x).
    + specialize (IH mp mi (S i)). lia.
    + destruct (PrimFloat.is_nan x); [lia|].
      specialize (IH x i (S i)). lia.
Qed.

Lemma np_argmin_total (a : list float) :
  a <> [] -> exists p, np_argmin a = Ok p /\ (p < length a)%nat.
Proof.
  destruct a as [|x r]; [congruence|]. intros _. simpl.
  destruct (PrimFloat.is_nan x).
  - eexists; split; [reflexivity|]. lia.
  - eexists; split; [reflexivity|].
    pose proof (argmin_scan_bound r x 0 1). lia.
Qed.

(** Without NaN the scan ends on the first position of the least value. *)
Lemma argmin_scan_spec (l pre : list float) (mp : float) (mi : nat) :
  nth_error (pre ++ l) mi = Some mp ->
  (mi < length pre)%nat ->
  (forall q w, (q < length pre)%nat -> nth_error (pre ++ l) q = Some w ->
     PrimFloat.leb mp w = true) ->
  (forall q w, (q < mi)%nat -> nth_error (pre ++ l) q = Some w ->
     PrimFloat.ltb mp w = true) ->
  ElbowSpec.nan_free l ->
  ElbowSpec.most_negative_at (pre ++ l) (argmin_scan mp mi (length pre) l).
Proof.
  revert pre mp mi. induction l as [|x r IH]; intros pre mp mi Hmi Hlt Hle Hfirst Hnan.
  - simpl. exists mp. split; [exact Hmi|]. split; [|exact Hfirst].
    intros q w Hq. apply Hle with q; [|exact Hq].
    assert (Hq' : nth_error (pre ++ []) q <> None) by congruence.
    apply nth_error_Some in Hq'. rewrite app_nil_r in Hq'. exact Hq'.
  - assert (Hx : nth_error (pre ++ x :: r) (length pre) = Some x).
    { rewrite nth_error_app2 by lia. now rewrite Nat.sub_diag. }
    assert (Hmp : PrimFloat.is_nan mp = false).
    { apply (float_cmp_not_nan mp mp). apply Hle with mi; [lia|exact Hmi]. }
    inversion Hnan as [|? ? Hxn Hrn]; subst.
    simpl argmin_scan.
    replace (pre ++ x :: r) with ((pre ++ [x]) ++ r) in * by (now rewrite <- app_assoc).
    replace (S (length pre)) with (length (pre ++ [x])) by (rewrite length_app; simpl; lia).
    destruct (PrimFloat.leb mp x) eqn:Hcmp.
    + apply IH; auto.
      * rewrite length_app; simpl; lia.
      * intros q w Hq Hw. rewrite length_app in Hq; simpl in Hq.
        destruct (Nat.eq_dec q (length pre)) as [->|Hne].
        -- rewrite Hx in Hw. inversion Hw; subst. exact Hcmp.
        -- apply Hle with q; [lia|exact Hw].
    + rewrite Hxn.
      assert (Hxmp : PrimFloat.ltb x mp = true)
        by (apply float_leb_total; assumption).
      apply IH; auto.
      * rewrite length_app; simpl; lia.
      * intros q w Hq Hw. rewrite length_app in Hq; simpl in Hq.
        destruct (Nat.eq_dec q (length pre)) as [->|Hne].
        -- rewrite Hx in Hw. inversion Hw; subst. apply float_leb_refl; exact Hxn.
        -- apply float_ltb_leb. apply float_ltb_leb_trans with mp; [exact Hxmp|].
           apply Hle with q; [lia|exact Hw].
      * intros q w Hq Hw. apply float_ltb_leb_trans with mp; [exact Hxmp|].
        apply Hle with q; [lia|exact Hw].
Qed.

(** With a NaN ahead the scan ends on the first one. *)
Lemma argmin_scan_first_nan (l pre : list float) (mp : float) (mi : nat) :
  ElbowSpec.nan_free pre ->
  ElbowSpec.has_nan l ->
  ElbowSpec.first_nan_at (pre ++ l) (argmin_scan mp mi (length pre) l).
Proof.
  revert pre mp mi. induction l as [|x r IH]; intros pre mp mi Hpre Hnan.
  - inversion Hnan.
  - assert (Hx : nth_error (pre ++ x :: r) (length pre) = Some x).
    { rewrite nth_error_app2 by lia. now rewrite Nat.sub_diag. }
    simpl argmin_scan.
    destruct (PrimFloat.is_nan x) eqn:Hxn.
    + rewrite (float_nan_leb mp x Hxn).
      exists x. split; [exact Hx|]. split; [exact Hxn|].
      intros q w Hq Hw. rewrite nth_error_app1 in Hw by exact Hq.
      apply nth_error_In in Hw.
      unfold ElbowSpec.nan_free in Hpre. rewrite Forall_forall in Hpre. auto.
    + assert (Hr : ElbowSpec.has_nan r).
      { inversion Hnan as [? ? Hh|? ? Ht]; subst; [congruence|exact Ht]. }
      assert (Hpre' : ElbowSpec.nan_free (pre ++ [x])).
      { apply Forall_app. split; [exact Hpre|]. constructor; [exact Hxn|constructor]. }
      replace (pre ++ x :: r) with ((pre ++ [x]) ++ r) by (now rewrite <- app_assoc).
      replace (S (length pre)) with (length (pre ++ [x])) by (rewrite length_app; simpl; lia).
      destruct (PrimFloat.leb mp x); apply IH; assumption.
Qed.

Lemma np_argmin_spec (a : list float) (p : nat) :
  np_argmin a = Ok p ->
  (ElbowSpec.nan_free a -> ElbowSpec.most_negative_at a p) /\
  (ElbowSpec.has_nan a -> ElbowSpec.first_nan_at a p).
Proof.
  destruct a as [|x r]; simpl; intros H; [discriminate|].
  destruct (PrimFloat.is_nan x) eqn:Hxn; inversion H; subst; clear H; split.
  - intros Hfree. inversion Hfree; subst. congruence.
  - intros _. exists x. split; [reflexivity|]. split; [exact Hxn|].
    intros q w Hq. lia.
  - intros Hfree. inversion Hfree as [|? ? _ Hr]; subst.
    apply (argmin_scan_spec r [x] x 0).
    + reflexivity.
    + simpl; lia.
    + intros q w Hq Hw. simpl in Hq. assert (q = 0)%nat as -> by lia.
      simpl in Hw. inversion Hw; subst. apply float_leb_refl; exact Hxn.
    + intros q w Hq. lia.
    + exact Hr.
  - intros Hnan. inversion Hnan as [? ? Hh|? ? Ht]; subst; [congruence|].
    apply (argmin_scan_first_nan r [x] x 0).
    + constructor; [exact Hxn|constructor].
    + exact Ht.
Qed.

Lemma ascending_hd_least (ks : list Z) :
  ElbowSpec.ascending ks -> forall k, In k ks -> (hd 2%Z ks <= k)%Z.
Proof.
  intros Hs k Hk. destruct ks as [|k0 r]; [contradiction|]. simpl.
  destruct Hk as [->|Hk]; [lia|].
  inversion Hs as [|? ? _ Hall]; subst.
  rewrite Forall_forall in Hall. specialize (Hall k Hk). lia.
Qed.

Lemma py_range_ascending (lo hi : Z) : ElbowSpec.ascending (py_range lo hi).
Proof.
  unfold py_range, ElbowSpec.ascending.
  generalize (Z.to_nat (hi - lo)) as n. generalize 0%nat as s.
  intros s n. revert s. induction n as [|n IH]; intros s; simpl.
  - constructor.
  - constructor; [apply IH|].
    apply Forall_forall. intros k Hk. apply in_map_iff in Hk.
    destruct Hk as (j & <- & Hj). apply in_seq in Hj. lia.
Qed.

(** C4. [_find_elbow_point] follows the specification's recipe, in float64
    as numpy computes it: with fewer than three inertia samples it answers
    the first candidate (the smallest one of an ascending candidate list),
    or 2 when there is no candidate; otherwise it takes the second
    difference of the inertia sequence (each subtraction rounded), a
    position [p] where that is most negative (the first one among equal
    values), and indexes the candidate list at [p + 1].  Should a second
    difference be a NaN, [p] is the position of the first NaN instead. *)
Theorem find_elbow_point_spec (k_values : list Z) (inertias : list float) :
  ((length inertias < 3)%nat ->
     _find_elbow_point k_values inertias = Ok (hd 2%Z k_values) /\
     (k_values = [] -> _find_elbow_point k_values inertias = Ok 2%Z) /\
     (ElbowSpec.ascending k_values ->
        forall k, In k k_values -> (hd 2%Z k_values <= k)%Z)) /\
  ((3 <= length inertias)%nat ->
     exists p,
       (ElbowSpec.nan_free (ElbowSpec.second_difference inertias) ->
        ElbowSpec.most_negative_at (ElbowSpec.second_difference inertias) p) /\
       (ElbowSpec.has_nan (ElbowSpec.second_difference inertias) ->
        ElbowSpec.first_nan_at (ElbowSpec.second_difference inertias) p) /\
       _find_elbow_point k_values inertias = py_getitem k_values (p + 1)).
Proof.
  unfold _find_elbow_point. split.
  - intros Hlen. apply Nat.ltb_lt in Hlen. rewrite Hlen.
    split; [destruct k_values; reflexivity|].
    split; [intros ->; reflexivity|].
    apply ascending_hd_least.
  - intros Hlen.
    assert (Hge : (length inertias <? 3)%nat = false) by (apply Nat.ltb_ge; exact Hlen).
    rewrite Hge.
    destruct (np_argmin_total (np_diff (np_diff inertias))) as (p & Hp & _).
    { intros Hnil. apply (f_equal (@length float)) in Hnil.
      rewrite !np_diff_length in Hnil. simpl in Hnil. lia. }
    exists p. unfold ElbowSpec.second_difference.
    rewrite <- !np_diff_first_difference.
    destruct (np_argmin_spec _ _ Hp) as [Hfree Hnan].
    split; [exact Hfree|]. split; [exact Hnan|].
    rewrite Hp. reflexivity.
Qed.

(** C10. With at least three inertia samples and as many candidates,
    [_find_elbow_point] returns: the second-difference list has two
    elements less than the inertia list, [np.argmin] succeeds on it, and the
    elbow index [argmin + 1] is a valid position of the candidate list. *)
Theorem find_elbow_point_in_bounds (k_values : list Z) (inertias : list float) :
  (3 <= length inertias)%nat ->
  length k_values = length inertias ->
  exists a k,
    length (np_diff (np_diff inertias)) = (length inertias - 2)%nat /\
    np_argmin (np_diff (np_diff inertias)) = Ok a /\
    (a + 1 < length k_values)%nat /\
    nth_error k_values (a + 1) = Some k /\
    _find_elbow_point k_values inertias = Ok k.
Proof.
  intros Hlen Hks.
  assert (Hdd : length (np_diff (np_diff inertias)) = (length inertias - 2)%nat).
  { rewrite !np_diff_length. lia. }
  destruct (np_argmin_total (np_diff (np_diff inertias))) as (a & Ha & Hbound).
  { intros Hnil. rewrite Hnil in Hdd. simpl in Hdd. lia. }
  destruct (py_getitem_in_range k_values (a + 1)) as (k & Hget & Hnth); [lia|].
  exists a, k. repeat split; auto; [lia|].
  unfold _find_elbow_point.
  replace (length inertias <? 3)%nat with false by (symmetry; apply Nat.ltb_ge; exact Hlen).
  rewrite Ha. simpl. exact Hget.
Qed.

(* ------------------------------------------------------------------ *)
(** ** Groups: [np.where] and the keywords it selects *)

Lemma where_from_In (labels : list Z) (i : Z) (s j : nat) :
  In j (where_from s labels i) <->
  (s <= j)%nat /\ nth_error labels (j - s) = Some i.
Proof.
  revert s. induction labels as [|l r IH]; intros s; simpl.
  - split; [contradiction|]. intros [_ H]. destruct (j - s)%nat; discriminate.
  - assert (Hstep : (S s <= j)%nat /\ nth_error r (j - S s) = Some i <->
                    (s < j)%nat /\ nth_error (l :: r) (j - s) = Some i).
    { split; intros [H1 H2]; (split; [lia|]).
      - replace (j - s)%nat with (S (j - S s)) by lia. exact H2.
      - replace (j - s)%nat with (S (j - S s)) in H2 by lia. exact H2. }
    destruct (Z.eqb_spec l i) as [->|Hne]; simpl; rewrite IH, Hstep.
    + split.
      * intros [<-|[H1 H2]]; [|split; [lia|exact H2]].
        split; [lia|]. now rewrite Nat.sub_diag.
      * intros [H1 H2]. destruct (Nat.eq_dec s j) as [->|Hd]; [left; reflexivity|].
        right. split; [lia|exact H2].
    + split.
      * intros [H1 H2]. split; [lia|exact H2].
      * intros [H1 H2]. destruct (Nat.eq_dec s j) as [->|Hd].
        -- rewrite Nat.sub_diag in H2. simpl in H2. congruence.
        -- split; [lia|exact H2].
Qed.

Lemma np_where_eq_In (labels : list Z) (i : Z) (j : nat) :
  In j (np_where_eq labels i) <-> nth_error labels j = Some i.
Proof.
  unfold np_where_eq. rewrite where_from_In, Nat.sub_0_r. intuition lia.
Qed.

Lemma where_from_NoDup (labels : list Z) (i : Z) (s : nat) :
  NoDup (where_from s labels i).
Proof.
  revert s. induction labels as [|l r IH]; intros s; simpl; [constructor|].
  destruct (l =? i)%Z; [|apply IH].
  constructor; [|apply IH]. rewrite where_from_In. lia.
Qed.

Lemma where_from_length (labels : list Z) (i : Z) (s : nat) :
  length (where_from s labels i) = ClusterSpec.group_size labels i.
Proof.
  unfold ClusterSpec.group_size. revert s.
  induction labels as [|l r IH]; intros s; simpl; [reflexivity|].
  destruct (Z.eqb_spec l i) as [->|Hne]; destruct (Z.eq_dec _ _); simpl;
    try congruence; now rewrite IH.
Qed.

Lemma np_where_eq_length (labels : list Z) (i : Z) :
  length (np_where_eq labels i) = ClusterSpec.group_size labels i.
Proof. apply where_from_length. Qed.

(** The keywords picked by a list of positions. *)
Lemma mapM_getitem_Forall2 {A : Type} (l : list A) (idx : list nat) (g : list A) :
  mapM (py_getitem l) idx = Ok g ->
  Forall2 (fun j x => nth_error l j = Some x) idx g.
Proof.
  intros H. apply mapM_Ok_Forall2 in H.
  induction H; constructor; auto. now apply py_getitem_Ok.
Qed.

Lemma Forall2_In_r {A B : Type} (R : A -> B -> Prop) (l : list A) (r : list B) (y : B) :
  Forall2 R l r -> In y r -> exists x, In x l /\ R x y.
Proof.
  induction 1 as [|a b l r Hab _ IH]; simpl; [contradiction|].
  intros [<-|Hy]; [exists a; auto|].
  destruct (IH Hy) as (x & Hx & HR). exists x; auto.
Qed.

Lemma Forall2_In_l {A B : Type} (R : A -> B -> Prop) (l : list A) (r : list B) (x : A) :
  Forall2 R l r -> In x l -> exists y, In y r /\ R x y.
Proof.
  induction 1 as [|a b l r Hab _ IH]; simpl; [contradiction|].
  intros [<-|Hx]; [exists b; auto|].
  destruct (IH Hx) as (y & Hy & HR). exists y; auto.
Qed.

Lemma Forall2_nth_error_r {A B : Type} (R : A -> B -> Prop) (l : list A) (r : list B)
    (n : nat) (y : B) :
  Forall2 R l r -> nth_error r n = Some y ->
  exists x, nth_error l n = Some x /\ R x y.
Proof.
  intros H. revert n. induction H as [|a b l r Hab _ IH]; intros n Hn.
  - destruct n; discriminate.
  - destruct n as [|n]; simpl in *.
    + inversion Hn; subst. exists a; auto.
    + apply IH; exact Hn.
Qed.

Lemma NoDup_map_nth_error {A B : Type} (f : A -> B) (l : list A) (i j : nat) (x y : A) :
  NoDup (map f l) -> nth_error l i = Some x -> nth_error l j = Some y ->
  f x = f y -> i = j.
Proof.
  intros Hnd Hi Hj Hxy.
  assert (Hlt : (i < length (map f l))%nat).
  { rewrite length_map. apply nth_error_Some. congruence. }
  apply (proj1 (NoDup_nth_error (map f l)) Hnd i j Hlt).
  rewrite !nth_error_map, Hi, Hj. simpl. congruence.
Qed.

Lemma Qmean_is_arithmetic_mean (xs : list Q) :
  xs <> [] -> ClusterSpec.is_arithmetic_mean xs (np_mean xs).
Proof.
  intros Hne. split; [exact Hne|]. unfold np_mean.
  assert (Hlen : ~ inject_Z (Z.of_nat (length xs)) == 0).
  { destruct xs as [|x r]; [congruence|]. unfold Qeq; simpl. lia. }
  field. exact Hlen.
Qed.

Lemma generate_cluster_name_nil : _generate_cluster_name [] = Raise IndexError.
Proof. reflexivity. Qed.

(* ------------------------------------------------------------------ *)
(** ** The clustering loop *)

Section WorkerProps.

Variable KMeans_fit : Z -> Z -> Z -> list (list Q) -> result KMeans.t.
Variable utcnow_strftime : Z -> string.
Variable self : ClusterWorker.t.

#[local] Abbreviation min_size := (ClusterWorker.min_cluster_size self).

Lemma make_cluster_None keywords embeddings kmeans i :
  make_cluster utcnow_strftime self keywords embeddings kmeans i = Ok None ->
  ClusterSpec.big_enough min_size (KMeans.labels_ kmeans) i = false.
Proof.
  unfold make_cluster, ClusterSpec.big_enough.
  rewrite np_where_eq_length.
  destruct (_ <=? _)%Z; [|reflexivity]. intros H.
  repeat bind_inv H. discriminate.
Qed.

Lemma make_cluster_Some keywords embeddings kmeans i c :
  make_cluster utcnow_strftime self keywords embeddings kmeans i = Ok (Some c) ->
  ClusterSpec.big_enough min_size (KMeans.labels_ kmeans) i = true /\
  exists g, g <> [] /\
    ClusterSpec.formed_from keywords (KMeans.labels_ kmeans) i g c.
Proof.
  unfold make_cluster, ClusterSpec.big_enough.
  rewrite np_where_eq_length.
  destruct (_ <=? _)%Z; [|discriminate]. intros H. split; [reflexivity|].
  bind_inv H. rename a into g. bind_inv H. bind_inv H. bind_inv H.
  inversion H; subst; clear H. exists g. split.
  - intros ->. rewrite generate_cluster_name_nil in Hm1. discriminate.
  - unfold ClusterSpec.formed_from; simpl.
    split; [apply mapM_getitem_Forall2; exact Hm|]. repeat split.
Qed.

Lemma collect_clusters_spec keywords embeddings kmeans labels cs :
  collect_clusters utcnow_strftime self keywords embeddings kmeans labels = Ok cs ->
  Forall2
    (fun i c => make_cluster utcnow_strftime self keywords embeddings kmeans i
                = Ok (Some c))
    (filter (ClusterSpec.big_enough min_size (KMeans.labels_ kmeans)) labels) cs.
Proof.
  revert cs. induction labels as [|i rest IH]; simpl; intros cs H.
  - inversion H. constructor.
  - bind_inv H. bind_inv H. inversion H; subst; clear H.
    destruct a as [c|].
    + destruct (make_cluster_Some _ _ _ _ _ Hm) as (-> & _).
      constructor; auto.
    + rewrite (make_cluster_None _ _ _ _ Hm). auto.
Qed.

(** What a successful run went through. *)
Lemma cluster_keywords_inv keywords embeddings cs :
  cluster_keywords KMeans_fit utcnow_strftime self keywords embeddings = Ok cs ->
  ((Z.of_nat (length keywords) < min_size)%Z /\ cs = []) \/
  ((min_size <= Z.of_nat (length keywords))%Z /\
   exists k kmeans,
     select_k KMeans_fit self (Z.of_nat (length keywords)) embeddings = Ok k /\
     KMeans_fit k 42%Z 10%Z embeddings = Ok kmeans /\
     collect_clusters utcnow_strftime self keywords embeddings kmeans (py_range 0 k)
     = Ok cs).
Proof.
  unfold cluster_keywords.
  destruct (Z.ltb_spec (Z.of_nat (length keywords)) (ClusterWorker.min_cluster_size self)).
  - intros H0. inversion H0. left; split; [assumption|reflexivity].
  - intros H0. right. split; [assumption|].
    bind_inv H0. bind_inv H0. eauto.
Qed.

(** Every returned cluster comes from one group of the final fit, the
    groups that reach the minimum size, in the order of their labels. *)
Lemma cluster_keywords_groups keywords embeddings cs k kmeans :
  cluster_keywords KMeans_fit utcnow_strftime self keywords embeddings = Ok cs ->
  (min_size <= Z.of_nat (length keywords))%Z ->
  select_k KMeans_fit self (Z.of_nat (length keywords)) embeddings = Ok k ->
  KMeans_fit k 42%Z 10%Z embeddings = Ok kmeans ->
  Forall2
    (fun i c => exists g, g <> [] /\
       ClusterSpec.formed_from keywords (KMeans.labels_ kmeans) i g c)
    (filter (ClusterSpec.big_enough min_size (KMeans.labels_ kmeans)) (py_range 0 k))
    cs.
Proof.
  intros Hrun Hn Hk Hfit.
  destruct (cluster_keywords_inv _ _ _ Hrun) as [[Hlt _]|(_ & k' & km' & Hk' & Hfit' & Hc)];
    [lia|].
  rewrite Hk in Hk'. inversion Hk'; subst k'.
  rewrite Hfit in Hfit'. inversion Hfit'; subst km'.
  apply collect_clusters_spec in Hc.
  eapply Forall2_impl; [|exact Hc].
  intros i c Hic. apply make_cluster_Some in Hic. tauto.
Qed.

End WorkerProps.

(* ------------------------------------------------------------------ *)
(** ** Clusters and the input keywords *)

Lemma formed_from_term keywords labels i g c t :
  ClusterSpec.formed_from keywords labels i g c ->
  In t (KeywordCluster.keywords c) ->
  exists j kw,
    nth_error labels j = Some i /\ nth_error keywords j = Some kw /\
    In kw g /\ Keyword.term kw = t.
Proof.
  intros (Hg & Hk & _) Ht. rewrite Hk in Ht. apply in_map_iff in Ht.
  destruct Ht as (kw & <- & Hkw).
  destruct (Forall2_In_r _ _ _ _ Hg Hkw) as (j & Hj & Hnth).
  apply np_where_eq_In in Hj. exists j, kw. auto.
Qed.

Lemma picked_NoDup {A B : Type} (f : A -> B) (l : list A) (idx : list nat) (g : list A) :
  Forall2 (fun j x => nth_error l j = Some x) idx g ->
  NoDup idx -> NoDup (map f l) -> NoDup (map f g).
Proof.
  intros H Hidx Hl. induction H as [|j x idx g Hjx Hrest IH]; simpl; [constructor|].
  inversion Hidx as [|? ? Hnotin Hidx']; subst. constructor; [|auto].
  intros Hin. apply in_map_iff in Hin. destruct Hin as (y & Hfy & Hy).
  destruct (Forall2_In_r _ _ _ _ Hrest Hy) as (j' & Hj' & Hnth').
  assert (j' = j) by (eapply NoDup_map_nth_error; eauto). subst j'. contradiction.
Qed.

Lemma formed_from_NoDup keywords labels i g c :
  ClusterSpec.formed_from keywords labels i g c ->
  NoDup (map Keyword.term keywords) ->
  NoDup (KeywordCluster.keywords c).
Proof.
  intros (Hg & Hk & _) Hnd. rewrite Hk.
  eapply picked_NoDup; eauto. apply where_from_NoDup.
Qed.

Lemma NoDup_filter {A : Type} (f : A -> bool) (l : list A) :
  NoDup l -> NoDup (filter f l).
Proof.
  induction 1 as [|x l Hx _ IH]; simpl; [constructor|].
  destruct (f x); [|exact IH]. constructor; [|exact IH].
  rewrite filter_In. tauto.
Qed.

Section ClusterResults.

Variable KMeans_fit : Z -> Z -> Z -> list (list Q) -> result KMeans.t.
Variable utcnow_strftime : Z -> string.
Variable self : ClusterWorker.t.

#[local] Abbreviation min_size := (ClusterWorker.min_cluster_size self).
#[local] Abbreviation run := (cluster_keywords KMeans_fit utcnow_strftime self).

(** C1. On keywords with pairwise distinct terms, the returned clusters
    partition a subset of the input: every member term of a returned cluster
    is the term of an input keyword, no term is a member of two different
    returned clusters, and no cluster lists a term twice. *)
Theorem clusters_partition (keywords : list Keyword.t)
    (embeddings : list (list Q)) (cs : list KeywordCluster.t) :
  NoDup (map Keyword.term keywords) ->
  run keywords embeddings = Ok cs ->
  (forall c t, In c cs -> In t (KeywordCluster.keywords c) ->
               In t (map Keyword.term keywords)) /\
  (forall a b ca cb t, a <> b ->
     nth_error cs a = Some ca -> nth_error cs b = Some cb ->
     In t (KeywordCluster.keywords ca) -> ~ In t (KeywordCluster.keywords cb)) /\
  (forall c, In c cs -> NoDup (KeywordCluster.keywords c)).
Proof.
  intros Hnd Hrun.
  destruct (cluster_keywords_inv _ _ _ _ _ _ Hrun)
    as [[_ ->]|(Hn & k & km & Hk & Hfit & _)].
  { repeat split; try contradiction. intros a b ca cb t _ Ha. destruct a; discriminate. }
  pose proof (cluster_keywords_groups _ _ _ _ _ _ _ _ Hrun Hn Hk Hfit) as Hgroups.
  split; [|split].
  - intros c t Hc Ht.
    destruct (Forall2_In_r _ _ _ _ Hgroups Hc) as (i & _ & g & _ & Hform).
    destruct (formed_from_term _ _ _ _ _ _ Hform Ht) as (j & kw & _ & Hnth & _ & <-).
    apply in_map. eapply nth_error_In; eauto.
  - intros a b ca cb t Hab Ha Hb Hta Htb.
    destruct (Forall2_nth_error_r _ _ _ _ _ Hgroups Ha) as (ia & Hia & ga & _ & Hfa).
    destruct (Forall2_nth_error_r _ _ _ _ _ Hgroups Hb) as (ib & Hib & gb & _ & Hfb).
    destruct (formed_from_term _ _ _ _ _ _ Hfa Hta) as (ja & kwa & Hla & Hna & _ & Hterm_a).
    destruct (formed_from_term _ _ _ _ _ _ Hfb Htb) as (jb & kwb & Hlb & Hnb & _ & Hterm_b).
    assert (ja = jb).
    { eapply NoDup_map_nth_error; eauto. congruence. }
    subst jb. assert (ia = ib) by congruence. subst ib.
    apply Hab.
    assert (Hlt : (a < length (filter (ClusterSpec.big_enough min_size (KMeans.labels_ km))
                                 (py_range 0 k)))%nat).
    { apply nth_error_Some. congruence. }
    refine (proj1 (NoDup_nth_error _) _ a b Hlt _).
    + apply NoDup_filter, py_range_NoDup.
    + congruence.
  - intros c Hc.
    destruct (Forall2_In_r _ _ _ _ Hgroups Hc) as (i & _ & g & _ & Hform).
    eapply formed_from_NoDup; eauto.
Qed.

(** C2. Every returned cluster has at least [min_cluster_size] members.
    The returned clusters are, one for one and in order, the groups of the
    final k-means fit that reach that size, so a smaller group produces no
    cluster; a keyword of a smaller group is in no returned cluster: its term can be listed by a cluster only on behalf of another
    input keyword, of another group, that carries the same term, and never
    when the input terms are pairwise distinct. *)
Theorem small_groups_dropped (keywords : list Keyword.t)
    (embeddings : list (list Q)) (cs : list KeywordCluster.t) :
  run keywords embeddings = Ok cs ->
  (forall c, In c cs ->
     (min_size <= Z.of_nat (KeywordCluster.size c))%Z /\
     KeywordCluster.size c = length (KeywordCluster.keywords c)) /\
  (forall k kmeans,
     (min_size <= Z.of_nat (length keywords))%Z ->
     select_k KMeans_fit self (Z.of_nat (length keywords)) embeddings = Ok k ->
     KMeans_fit k 42%Z 10%Z embeddings = Ok kmeans ->
     let labels := KMeans.labels_ kmeans in
     Forall2
       (fun i c => exists g, ClusterSpec.formed_from keywords labels i g c)
       (filter (ClusterSpec.big_enough min_size labels) (py_range 0 k)) cs /\
     length cs
       = length (filter (ClusterSpec.big_enough min_size labels) (py_range 0 k)) /\
     forall i j kw,
       (Z.of_nat (ClusterSpec.group_size labels i) < min_size)%Z ->
       nth_error labels j = Some i ->
       nth_error keywords j = Some kw ->
       forall c, In c cs ->
         (In (Keyword.term kw) (KeywordCluster.keywords c) ->
            exists j' kw',
              j' <> j /\ nth_error labels j' <> Some i /\
              nth_error keywords j' = Some kw' /\
              Keyword.term kw' = Keyword.term kw) /\
         (NoDup (map Keyword.term keywords) ->
            ~ In (Keyword.term kw) (KeywordCluster.keywords c))).
Proof.
  intros Hrun.
  destruct (cluster_keywords_inv _ _ _ _ _ _ Hrun)
    as [[Hlt ->]|(Hn & k0 & km0 & Hk0 & Hfit0 & _)].
  { split; [intros c []|]. intros k kmeans Hn. lia. }
  pose proof (cluster_keywords_groups _ _ _ _ _ _ _ _ Hrun Hn Hk0 Hfit0) as Hgroups.
  split.
  - intros c Hc.
    destruct (Forall2_In_r _ _ _ _ Hgroups Hc) as (i & Hi & g & _ & Hg & Hkw & Hsize & _).
    apply filter_In in Hi. destruct Hi as [_ Hbig].
    unfold ClusterSpec.big_enough in Hbig. apply Z.leb_le in Hbig.
    apply Forall2_length in Hg. rewrite np_where_eq_length in Hg.
    rewrite Hsize, Hkw, length_map. split; [lia|reflexivity].
  - intros k kmeans _ Hk Hfit labels.
    rewrite Hk0 in Hk; inversion Hk; subst k0.
    rewrite Hfit0 in Hfit; inversion Hfit; subst km0. subst labels.
    split.
    { eapply Forall2_impl; [|exact Hgroups].
      intros i c (g & _ & Hform). exists g. exact Hform. }
    split; [symmetry; eapply Forall2_length; exact Hgroups|].
    intros i j kw Hsmall Hl Hnth c Hc.
    destruct (Forall2_In_r _ _ _ _ Hgroups Hc) as (i' & Hi' & g & _ & Hform).
    apply filter_In in Hi'. destruct Hi' as [_ Hbig].
    unfold ClusterSpec.big_enough in Hbig. apply Z.leb_le in Hbig.
    assert (Hii : i' <> i) by (intros ->; lia).
    assert (Hother : In (Keyword.term kw) (KeywordCluster.keywords c) ->
       exists j' kw', j' <> j /\ nth_error (KMeans.labels_ kmeans) j' <> Some i /\
         nth_error keywords j' = Some kw' /\ Keyword.term kw' = Keyword.term kw).
    { intros Hin.
      destruct (formed_from_term _ _ _ _ _ _ Hform Hin) as (j' & kw' & Hl' & Hn' & _ & Ht).
      exists j', kw'. repeat split; auto; congruence. }
    split; [exact Hother|].
    intros Hnd Hin. destruct (Hother Hin) as (j' & kw' & Hjj & _ & Hn' & Ht).
    apply Hjj. eapply NoDup_map_nth_error; eauto.
Qed.

(** C5. The averages of a returned cluster are the arithmetic means of the
    search volume, difficulty and cpc over its member keywords [g]: the input
    keywords the cluster's terms were read from, which (terms being pairwise
    distinct) are exactly the input keywords whose term the cluster lists. *)
Theorem cluster_averages (keywords : list Keyword.t)
    (embeddings : list (list Q)) (cs : list KeywordCluster.t)
    (c : KeywordCluster.t) :
  run keywords embeddings = Ok cs ->
  In c cs ->
  exists g,
    (forall kw, In kw g -> In kw keywords) /\
    KeywordCluster.keywords c = map Keyword.term g /\
    KeywordCluster.size c = length g /\
    ClusterSpec.is_arithmetic_mean
      (map inject_Z (map Keyword.search_volume g))
      (KeywordCluster.avg_search_volume c) /\
    ClusterSpec.is_arithmetic_mean
      (map inject_Z (map Keyword.difficulty g))
      (KeywordCluster.avg_difficulty c) /\
    ClusterSpec.is_arithmetic_mean
      (map Keyword.cpc g) (KeywordCluster.avg_cpc c) /\
    (NoDup (map Keyword.term keywords) ->
       forall kw, In kw g <->
         In kw keywords /\ In (Keyword.term kw) (KeywordCluster.keywords c)).
Proof.
  intros Hrun Hc.
  destruct (cluster_keywords_inv _ _ _ _ _ _ Hrun)
    as [[_ ->]|(Hn & k & km & Hk & Hfit & _)]; [contradiction|].
  pose proof (cluster_keywords_groups _ _ _ _ _ _ _ _ Hrun Hn Hk Hfit) as Hgroups.
  destruct (Forall2_In_r _ _ _ _ Hgroups Hc) as (i & _ & g & Hne & Hform).
  pose proof Hform as (Hg & Hkw & Hsize & Hsv & Hdiff & Hcpc).
  assert (Hsub : forall kw, In kw g -> In kw keywords).
  { intros kw Hin. destruct (Forall2_In_r _ _ _ _ Hg Hin) as (j & _ & Hnth).
    eapply nth_error_In; eauto. }
  assert (Hmap : forall (A : Type) (f : Keyword.t -> A), map f g <> []).
  { intros A f Hnil. apply map_eq_nil in Hnil. contradiction. }
  assert (Hmean : forall xs m, xs <> [] -> m = np_mean xs ->
                               ClusterSpec.is_arithmetic_mean xs m).
  { intros xs m Hxs ->. now apply Qmean_is_arithmetic_mean. }
  exists g.
  split; [exact Hsub|]. split; [exact Hkw|]. split; [exact Hsize|].
  split; [apply Hmean; [|exact Hsv]|].
  { intros Hnil. apply map_eq_nil in Hnil. revert Hnil. apply Hmap. }
  split; [apply Hmean; [|exact Hdiff]|].
  { intros Hnil. apply map_eq_nil in Hnil. revert Hnil. apply Hmap. }
  split; [apply Hmean; [apply Hmap|exact Hcpc]|].
  intros Hnd kw. split.
  - intros Hin. split; [now apply Hsub|]. rewrite Hkw. now apply in_map.
  - intros [Hin Hterm].
    destruct (In_nth_error _ _ Hin) as (j & Hj).
    destruct (formed_from_term _ _ _ _ _ _ Hform Hterm) as (j' & kw' & _ & Hj' & Hg' & Ht).
    assert (j' = j) by (eapply NoDup_map_nth_error; eauto). subst j'.
    congruence.
Qed.

End ClusterResults.

(* ------------------------------------------------------------------ *)
(** ** Two runs, and runs on too few keywords *)

Section Runs.

Variable KMeans_fit : Z -> Z -> Z -> list (list Q) -> result KMeans.t.
Variable TfidfVectorizer_fit_transform : list string -> result (list (list Q)).
Variable json_loads : string -> result json.
Variable self : ClusterWorker.t.

Lemma make_cluster_clock (clock1 clock2 : Z -> string) keywords embeddings kmeans i :
  map_result (option_map ClusterSpec.forget_id)
    (make_cluster clock1 self keywords embeddings kmeans i)
  = map_result (option_map ClusterSpec.forget_id)
      (make_cluster clock2 self keywords embeddings kmeans i).
Proof.
  unfold make_cluster.
  destruct (_ <=? _)%Z; [|reflexivity].
  destruct (mapM (py_getitem keywords) _) as [g|e]; [simpl|reflexivity].
  destruct (mapM (py_getitem embeddings) _) as [ge|e]; [simpl|reflexivity].
  destruct (_generate_cluster_name g) as [name|e]; [simpl|reflexivity].
  destruct (py_getitem (KMeans.cluster_centers_ kmeans) _) as [ctr|e]; reflexivity.
Qed.

Lemma collect_clusters_clock (clock1 clock2 : Z -> string) keywords embeddings kmeans labels :
  map_result (map ClusterSpec.forget_id)
    (collect_clusters clock1 self keywords embeddings kmeans labels)
  = map_result (map ClusterSpec.forget_id)
      (collect_clusters clock2 self keywords embeddings kmeans labels).
Proof.
  induction labels as [|i rest IH]; simpl; [reflexivity|].
  pose proof (make_cluster_clock clock1 clock2 keywords embeddings kmeans i) as Hi.
  destruct (make_cluster clock1 self keywords embeddings kmeans i) as [c1|e1];
    destruct (make_cluster clock2 self keywords embeddings kmeans i) as [c2|e2];
    simpl in Hi; try discriminate.
  - simpl.
    destruct (collect_clusters clock1 self keywords embeddings kmeans rest) as [r1|e1];
      destruct (collect_clusters clock2 self keywords embeddings kmeans rest) as [r2|e2];
      simpl in IH; try discriminate.
    + simpl. inversion Hi as [Hc]. inversion IH as [Hr].
      destruct c1 as [c1|]; destruct c2 as [c2|]; simpl in Hc; try discriminate;
        simpl; congruence.
    + simpl. congruence.
  - simpl. congruence.
Qed.

Lemma partition_of_forget_id (cs : list KeywordCluster.t) :
  ClusterSpec.partition_of (map ClusterSpec.forget_id cs) = ClusterSpec.partition_of cs.
Proof.
  unfold ClusterSpec.partition_of. rewrite map_map. reflexivity.
Qed.

(** The clock is read for the cluster ids only: two runs of
    [cluster_keywords] that obtain the same fits differ at most in the
    timestamps of the ids.  Whether two fits of scikit-learn's [KMeans] with
    the same seed agree is a property of that library, which the embedding
    takes as a function and does not decide. *)
Lemma clock_names_clusters_only (clock1 clock2 : Z -> string)
    (keywords : list Keyword.t) (embeddings : list (list Q)) :
  map_result (map ClusterSpec.forget_id)
    (cluster_keywords KMeans_fit clock1 self keywords embeddings)
  = map_result (map ClusterSpec.forget_id)
      (cluster_keywords KMeans_fit clock2 self keywords embeddings) /\
  forall cs1 cs2,
    cluster_keywords KMeans_fit clock1 self keywords embeddings = Ok cs1 ->
    cluster_keywords KMeans_fit clock2 self keywords embeddings = Ok cs2 ->
    length cs1 = length cs2 /\
    ClusterSpec.partition_of cs1 = ClusterSpec.partition_of cs2.
Proof.
  assert (Heq : map_result (map ClusterSpec.forget_id)
      (cluster_keywords KMeans_fit clock1 self keywords embeddings)
    = map_result (map ClusterSpec.forget_id)
      (cluster_keywords KMeans_fit clock2 self keywords embeddings)).
  { unfold cluster_keywords.
    destruct (_ <? _)%Z; [reflexivity|].
    destruct (select_k KMeans_fit self _ embeddings) as [k|e]; [simpl|reflexivity].
    destruct (KMeans_fit k 42%Z 10%Z embeddings) as [km|e]; [simpl|reflexivity].
    apply collect_clusters_clock. }
  split; [exact Heq|].
  intros cs1 cs2 H1 H2. rewrite H1, H2 in Heq. simpl in Heq.
  inversion Heq as [Hmap]. split.
  - apply (f_equal (@length _)) in Hmap. now rewrite !length_map in Hmap.
  - rewrite <- (partition_of_forget_id cs1), <- (partition_of_forget_id cs2).
    now rewrite Hmap.
Qed.

(** C3. With fewer keywords than [min_cluster_size], [cluster_keywords]
    returns the empty list and raises nothing; saving that result writes
    nothing, and a whole run of [process_keywords] that fetched these
    keywords leaves the store, hence every cluster assignment, as it was. *)
Theorem too_few_keywords (utcnow_strftime : Z -> string)
    (keywords : list Keyword.t) (embeddings : list (list Q)) :
  (Z.of_nat (length keywords) < ClusterWorker.min_cluster_size self)%Z ->
  cluster_keywords KMeans_fit utcnow_strftime self keywords embeddings = Ok [] /\
  (forall org_id project_id now db,
     fst (save_clusters [] org_id project_id now db) = db) /\
  (forall db org_id project_id now,
     get_keywords_for_clustering json_loads db org_id project_id = Ok keywords ->
     fst (process_keywords KMeans_fit TfidfVectorizer_fit_transform json_loads
            utcnow_strftime self db org_id project_id now) = db).
Proof.
  intros Hlt.
  assert (Hrun : forall emb,
    cluster_keywords KMeans_fit utcnow_strftime self keywords emb = Ok []).
  { intros emb. unfold cluster_keywords.
    apply Z.ltb_lt in Hlt. now rewrite Hlt. }
  split; [apply Hrun|]. split; [reflexivity|].
  intros db org_id project_id now Hfetch.
  unfold process_keywords. rewrite Hfetch.
  destruct keywords as [|kw rest]; [reflexivity|].
  unfold create_embeddings.
  destruct (TfidfVectorizer_fit_transform _) as [emb|e]; simpl; [|reflexivity].
  rewrite Hrun. reflexivity.
Qed.

End Runs.

(* ------------------------------------------------------------------ *)
(** ** When the clustering returns *)

Lemma find_elbow_point_returns (k_values : list Z) (inertias : list float) :
  length k_values = length inertias ->
  exists k, _find_elbow_point k_values inertias = Ok k /\
            (In k k_values \/ (k_values = [] /\ k = 2%Z)).
Proof.
  intros Hlen. unfold _find_elbow_point.
  destruct (Nat.ltb_spec (length inertias) 3) as [Hlt|Hge].
  - destruct k_values as [|k0 r]; eexists; split; try reflexivity.
    + right; auto.
    + left; left; reflexivity.
  - destruct (np_argmin_total (np_diff (np_diff inertias))) as (a & Ha & Hbound).
    { intros Hnil. apply (f_equal (@length float)) in Hnil.
      rewrite !np_diff_length in Hnil. simpl in Hnil. lia. }
    rewrite !np_diff_length in Hbound.
    destruct (py_getitem_in_range k_values (a + 1)) as (k & Hget & Hnth); [lia|].
    exists k. rewrite Ha. simpl. split; [exact Hget|].
    left. eapply nth_error_In; eauto.
Qed.

Lemma generate_cluster_name_returns (keywords : list Keyword.t) :
  keywords <> [] -> exists name, _generate_cluster_name keywords = Ok name.
Proof.
  intros Hne. unfold _generate_cluster_name.
  destruct (firstn 3 _) as [|e r]; [|eexists; reflexivity].
  destruct keywords as [|kw rest]; [congruence|]. eexists; reflexivity.
Qed.

Section Returns.

Variable KMeans_fit : Z -> Z -> Z -> list (list Q) -> result KMeans.t.
Variable utcnow_strftime : Z -> string.
Variable self : ClusterWorker.t.
Variable keywords : list Keyword.t.
Variable embeddings : list (list Q).

(** The minimum size is positive, the input is not a single keyword, there
    is one embedding row per keyword, and every fit with at least two
    clusters and no more clusters than rows labels every row and returns one
    centre per cluster (with more clusters than rows k-means refuses). *)
Hypothesis min_positive : (0 < ClusterWorker.min_cluster_size self)%Z.
Hypothesis not_a_single_keyword : length keywords <> 1%nat.
Hypothesis one_row_per_keyword : length embeddings = length keywords.
Hypothesis fit_succeeds :
  forall k, (2 <= k <= Z.of_nat (length embeddings))%Z ->
    exists kmeans,
      KMeans_fit k 42%Z 10%Z embeddings = Ok kmeans /\
      length (KMeans.labels_ kmeans) = length embeddings /\
      length (KMeans.cluster_centers_ kmeans) = Z.to_nat k.

Lemma make_cluster_returns kmeans k i :
  length (KMeans.labels_ kmeans) = length embeddings ->
  length (KMeans.cluster_centers_ kmeans) = Z.to_nat k ->
  (0 <= i < k)%Z ->
  exists c, make_cluster utcnow_strftime self keywords embeddings kmeans i = Ok c.
Proof.
  intros Hlabels Hcentres Hi. unfold make_cluster.
  destruct (Z.leb_spec (ClusterWorker.min_cluster_size self)
              (Z.of_nat (length (np_where_eq (KMeans.labels_ kmeans) i))))
    as [Hbig|_]; [|eexists; reflexivity].
  assert (Hidx : forall j, In j (np_where_eq (KMeans.labels_ kmeans) i) ->
                           (j < length embeddings)%nat).
  { intros j Hj. apply np_where_eq_In in Hj. rewrite <- Hlabels.
    apply nth_error_Some. congruence. }
  destruct (mapM_total (py_getitem keywords) (np_where_eq (KMeans.labels_ kmeans) i))
    as (g & Hg).
  { intros j Hj. destruct (py_getitem_in_range keywords j) as (x & Hx & _); eauto.
    rewrite <- one_row_per_keyword. auto. }
  destruct (mapM_total (py_getitem embeddings) (np_where_eq (KMeans.labels_ kmeans) i))
    as (ge & Hge).
  { intros j Hj. destruct (py_getitem_in_range embeddings j) as (x & Hx & _); eauto. }
  destruct (generate_cluster_name_returns g) as (name & Hname).
  { intros ->. apply mapM_Ok_length in Hg. simpl in Hg. lia. }
  destruct (py_getitem_in_range (KMeans.cluster_centers_ kmeans) (Z.to_nat i))
    as (ctr & Hctr & _); [lia|].
  rewrite Hg. simpl. rewrite Hge. simpl. rewrite Hname. simpl. rewrite Hctr. simpl.
  eexists; reflexivity.
Qed.

Lemma collect_clusters_returns kmeans k labels :
  length (KMeans.labels_ kmeans) = length embeddings ->
  length (KMeans.cluster_centers_ kmeans) = Z.to_nat k ->
  (forall i, In i labels -> (0 <= i < k)%Z) ->
  exists cs,
    collect_clusters utcnow_strftime self keywords embeddings kmeans labels = Ok cs.
Proof.
  intros Hlabels Hcentres. induction labels as [|i rest IH]; intros Hin; simpl.
  - eexists; reflexivity.
  - destruct (make_cluster_returns kmeans k i Hlabels Hcentres) as (c & Hc).
    { apply Hin. left; reflexivity. }
    destruct IH as (cs & Hcs); [intros; apply Hin; right; assumption|].
    rewrite Hc, Hcs. simpl. eexists; reflexivity.
Qed.

(** X16. With a positive minimum size, an input that is not a single
    keyword, one embedding row per keyword, and a k-means that succeeds
    whenever it is asked for at least two clusters and no more clusters than
    rows (labelling every row, one centre per cluster), [cluster_keywords]
    returns a list of clusters: it never asks for more clusters than rows,
    and no position, no centre and no first term is ever missing. *)
Lemma cluster_keywords_returns :
  exists cs,
    cluster_keywords KMeans_fit utcnow_strftime self keywords embeddings = Ok cs.
Proof.
  unfold cluster_keywords.
  destruct (Z.ltb_spec (Z.of_nat (length keywords))
              (ClusterWorker.min_cluster_size self)) as [|Hn];
    [eexists; reflexivity|].
  assert (Hn2 : (2 <= Z.of_nat (length keywords))%Z) by lia.
  unfold select_k, py_floordiv.
  destruct (Z.eqb_spec (ClusterWorker.min_cluster_size self) 0) as [H0|_]; [lia|].
  simpl bind.
  assert (Hq : (Z.of_nat (length keywords) / ClusterWorker.min_cluster_size self
                <= Z.of_nat (length keywords))%Z).
  { apply Z.div_le_upper_bound; [exact min_positive|]. nia. }
  set (max_k := if (Z.min _ _ <? 2)%Z then 2%Z else _).
  assert (Hmax : (2 <= max_k <= Z.of_nat (length embeddings))%Z).
  { subst max_k. rewrite one_row_per_keyword.
    destruct (Z.ltb_spec (Z.min (ClusterWorker.max_clusters self)
      (Z.of_nat (length keywords) / ClusterWorker.min_cluster_size self)) 2); lia. }
  destruct (mapM_total
              (fun k => kmeans <- KMeans_fit k 42%Z 10%Z embeddings ;;
                        Ok (KMeans.inertia_ kmeans))
              (py_range 2 (max_k + 1))) as (inertias & Hin).
  { intros k Hk. apply py_range_In in Hk.
    destruct (fit_succeeds k) as (km & Hfit & _); [lia|].
    rewrite Hfit. simpl. eexists; reflexivity. }
  rewrite Hin. simpl bind.
  destruct (find_elbow_point_returns (py_range 2 (max_k + 1)) inertias)
    as (k & Hk & Hkin).
  { symmetry. eapply mapM_Ok_length; eauto. }
  assert (Hk2 : (2 <= k <= Z.of_nat (length embeddings))%Z).
  { destruct Hkin as [Hkin|[_ ->]]; [|lia]. apply py_range_In in Hkin. lia. }
  rewrite Hk. simpl bind.
  destruct (fit_succeeds k Hk2) as (km & Hfit & Hlabels & Hcentres).
  rewrite Hfit. simpl bind.
  apply (collect_clusters_returns km k); auto.
  intros i Hi. now apply py_range_In in Hi.
Qed.

End Returns.

(* ------------------------------------------------------------------ *)
(** ** The theorems at sample inputs *)

Ltac distinct_strings :=
  repeat constructor; simpl; intuition discriminate.

Lemma sample_terms_distinct : NoDup (map Keyword.term Sample.keywords).
Proof. distinct_strings. Qed.

Lemma sample_run :
  cluster_keywords Sample.kmeans_fit Sample.clock ClusterWorker.init
    Sample.keywords Sample.embeddings
  = Ok [ KeywordCluster.mk "cluster_0_20240127_120000"
           "Cluster: running shoes best"
           "Keywords related to: best running shoes, running shoes for men, trail running shoes"
           ["best running shoes"; "running shoes for men"; "trail running shoes"]
           None (Some [0]) 3 (1800 # 3) (105 # 3) (12 # 12) ]%string.
Proof. vm_compute. reflexivity. Qed.

Lemma find_elbow_point_spec_witness :
  (_find_elbow_point (py_range 2 4) [10; 4]%float = Ok 2%Z /\
   forall k, In k (py_range 2 4) -> (2 <= k)%Z) /\
  exists p,
    ElbowSpec.most_negative_at (ElbowSpec.second_difference Sample.tie_inertias) p /\
    _find_elbow_point (py_range 2 6) Sample.tie_inertias
    = py_getitem (py_range 2 6) (p + 1) /\
    _find_elbow_point (py_range 2 6) Sample.tie_inertias = Ok 3%Z.
Proof.
  split.
  - destruct (proj1 (find_elbow_point_spec (py_range 2 4) [10; 4]%float)) as (H1 & _ & H3).
    + simpl; lia.
    + split; [exact H1|]. apply H3. apply py_range_ascending.
  - destruct (proj2 (find_elbow_point_spec (py_range 2 6) Sample.tie_inertias))
      as (p & Hfree & _ & Heq).
    + simpl; lia.
    + exists p. split; [|split; [exact Heq|reflexivity]].
      apply Hfree. repeat constructor.
Defined.

Lemma find_elbow_point_in_bounds_witness :
  exists a k,
    length (np_diff (np_diff [10; 4; 3; 2.5]%float)) = 2%nat /\
    np_argmin (np_diff (np_diff [10; 4; 3; 2.5]%float)) = Ok a /\
    (a + 1 < 4)%nat /\
    nth_error [2; 3; 4; 5]%Z (a + 1) = Some k /\
    _find_elbow_point [2; 3; 4; 5]%Z [10; 4; 3; 2.5]%float = Ok k.
Proof.
  apply (find_elbow_point_in_bounds [2; 3; 4; 5]%Z [10; 4; 3; 2.5]%float).
  - simpl; lia.
  - reflexivity.
Defined.

Lemma clusters_partition_witness :
  exists cs,
    cluster_keywords Sample.kmeans_fit Sample.clock ClusterWorker.init
      Sample.keywords Sample.embeddings = Ok cs /\
    length cs = 1%nat /\
    (forall c t, In c cs -> In t (KeywordCluster.keywords c) ->
                 In t (map Keyword.term Sample.keywords)) /\
    (forall a b ca cb t, a <> b ->
       nth_error cs a = Some ca -> nth_error cs b = Some cb ->
       In t (KeywordCluster.keywords ca) -> ~ In t (KeywordCluster.keywords cb)) /\
    (forall c, In c cs -> NoDup (KeywordCluster.keywords c)).
Proof.
  eexists. split; [exact sample_run|]. split; [reflexivity|].
  apply (clusters_partition Sample.kmeans_fit Sample.clock ClusterWorker.init
           Sample.keywords Sample.embeddings).
  - exact sample_terms_distinct.
  - exact sample_run.
Defined.

Lemma small_groups_dropped_witness :
  exists cs,
    cluster_keywords Sample.kmeans_fit Sample.clock ClusterWorker.init
      Sample.keywords Sample.embeddings = Ok cs /\
    length cs = 1%nat /\
    (forall c, In c cs ->
       (3 <= Z.of_nat (KeywordCluster.size c))%Z /\
       KeywordCluster.size c = length (KeywordCluster.keywords c)) /\
    (forall c, In c cs ->
       ~ In "marathon training plan for beginners"%string (KeywordCluster.keywords c)).
Proof.
  eexists. split; [exact sample_run|]. split; [reflexivity|].
  destruct (small_groups_dropped Sample.kmeans_fit Sample.clock ClusterWorker.init
              Sample.keywords Sample.embeddings _ sample_run) as [Hsize Hdrop].
  split; [exact Hsize|].
  intros c Hc.
  specialize (Hdrop 2%Z (KMeans.mk 4%float [0; 0; 0; 1]%Z [[0]; [1]])).
  destruct Hdrop as (_ & _ & Hdrop).
  - simpl; lia.
  - vm_compute; reflexivity.
  - vm_compute; reflexivity.
  - refine (proj2 (Hdrop 1%Z 3%nat
              (Sample.kw "k4" "marathon training plan for beginners" 100 20 (1 # 4))
              _ _ _ c Hc) _).
    + vm_compute; reflexivity.
    + reflexivity.
    + reflexivity.
    + exact sample_terms_distinct.
Defined.

Lemma cluster_averages_witness :
  exists c g,
    cluster_keywords Sample.kmeans_fit Sample.clock ClusterWorker.init
      Sample.keywords Sample.embeddings = Ok [c] /\
    (forall kw, In kw g -> In kw Sample.keywords) /\
    KeywordCluster.keywords c = map Keyword.term g /\
    KeywordCluster.size c = length g /\
    ClusterSpec.is_arithmetic_mean
      (map inject_Z (map Keyword.search_volume g))
      (KeywordCluster.avg_search_volume c) /\
    ClusterSpec.is_arithmetic_mean
      (map inject_Z (map Keyword.difficulty g))
      (KeywordCluster.avg_difficulty c) /\
    ClusterSpec.is_arithmetic_mean
      (map Keyword.cpc g) (KeywordCluster.avg_cpc c) /\
    (NoDup (map Keyword.term Sample.keywords) ->
       forall kw, In kw g <->
         In kw Sample.keywords /\ In (Keyword.term kw) (KeywordCluster.keywords c)).
Proof.
  eexists.
  destruct (cluster_averages Sample.kmeans_fit Sample.clock ClusterWorker.init
              Sample.keywords Sample.embeddings _ _ sample_run (or_introl eq_refl))
    as (g & Hg).
  exists g. split; [exact sample_run|exact Hg].
Defined.

Lemma too_few_keywords_witness :
  cluster_keywords Sample.kmeans_fit Sample.clock ClusterWorker.init
    Sample.two_keywords [[0]; [0]] = Ok [] /\
  (forall org_id project_id now db,
     fst (save_clusters [] org_id project_id now db) = db) /\
  (forall db org_id project_id now,
     get_keywords_for_clustering Sample.json_loads db org_id project_id
     = Ok Sample.two_keywords ->
     fst (process_keywords Sample.kmeans_fit Sample.tfidf Sample.json_loads
            Sample.clock ClusterWorker.init db org_id project_id now) = db).
Proof.
  apply (too_few_keywords Sample.kmeans_fit Sample.tfidf Sample.json_loads
           ClusterWorker.init Sample.clock Sample.two_keywords [[0]; [0]]).
  simpl; lia.
Defined.

(* ------------------------------------------------------------------ *)
(** ** Fetching keywords: the defaults for [NULL] columns *)

Lemma py_or_int_nonzero (x : option Z) (d : Z) :
  x <> Some 0%Z -> py_or_int x d = StoreSpec.or_default x d.
Proof.
  destruct x as [v|]; simpl; [|reflexivity].
  destruct (Z.eqb_spec v 0) as [->|_]; [congruence|reflexivity].
Qed.

Lemma py_or_int_zero_default (x : option Z) :
  py_or_int x 0 = StoreSpec.or_default x 0%Z.
Proof.
  destruct x as [v|]; simpl; [|reflexivity].
  destruct (Z.eqb_spec v 0) as [->|_]; reflexivity.
Qed.

Lemma py_or_num_zero_default (x : option Q) :
  py_or_num x 0 == StoreSpec.or_default x 0.
Proof.
  destruct x as [v|]; simpl; [|reflexivity].
  destruct (Qeq_bool v 0) eqn:Hv; [|reflexivity].
  apply Qeq_bool_eq in Hv. now rewrite Hv.
Qed.

(** X17. What the row loop of the fetch keeps of a row: the stored search
    volume, or 0 for [NULL]; the stored cpc, or 0.0 for [NULL]; and the
    stored difficulty, or 50 for [NULL], unless the stored difficulty is 0. *)
Lemma keyword_of_row_fields (json_loads : string -> result json)
    (row : KeywordRow.t) (k : Keyword.t) :
  keyword_of_row json_loads row = Ok k ->
  Keyword.search_volume k = StoreSpec.or_default (KeywordRow.search_volume row) 0%Z /\
  Keyword.cpc k == StoreSpec.or_default (KeywordRow.cpc row) 0 /\
  (KeywordRow.difficulty row <> Some 0%Z ->
   Keyword.difficulty k = StoreSpec.or_default (KeywordRow.difficulty row) 50%Z).
Proof.
  unfold keyword_of_row. intros H. bind_inv H. inversion H; subst; clear H. simpl.
  split; [apply py_or_int_zero_default|].
  split; [apply py_or_num_zero_default|].
  apply py_or_int_nonzero.
Qed.

(** The fetch converts, in the order of the query, every selected row. *)
Lemma get_keywords_for_clustering_rows (json_loads : string -> result json)
    (db : DB) (org_id : string) (project_id : option string)
    (keywords : list Keyword.t) :
  get_keywords_for_clustering json_loads db org_id project_id = Ok keywords ->
  Forall2 (fun row k => keyword_of_row json_loads row = Ok k)
    (sort_desc volume_geb
       (filter (fetch_where org_id project_id) (keywords_table db)))
    keywords.
Proof. apply mapM_Ok_Forall2. Qed.

(** C7 (the code departs from the specification). A keyword stored with the
    non-null difficulty 0 is fetched with difficulty 50: [row[3] or 50]
    replaces the stored value by the default. *)
Theorem zero_difficulty_replaced (json_loads : string -> result json) :
  KeywordRow.difficulty Sample.easy_row = Some 0%Z /\
  exists k,
    get_keywords_for_clustering json_loads Sample.easy_db "org" None = Ok [k] /\
    Keyword.id k = KeywordRow.id Sample.easy_row /\
    Keyword.difficulty k = 50%Z /\
    Keyword.difficulty k
      <> StoreSpec.or_default (KeywordRow.difficulty Sample.easy_row) 50%Z.
Proof.
  split; [reflexivity|].
  eexists. split; [reflexivity|]. simpl.
  split; [reflexivity|]. split; [reflexivity|]. discriminate.
Qed.

(* ------------------------------------------------------------------ *)
(** ** Saving clusters: which keywords a run touches *)

Lemma set_cluster_twice (c1 c2 now : string) (r : KeywordRow.t) :
  set_cluster c2 now (set_cluster c1 now r) = set_cluster c2 now r.
Proof. reflexivity. Qed.

Lemma touched_trans org_id now ids1 ids2 r1 r2 r3 :
  StoreSpec.touched org_id now ids1 r1 r2 ->
  StoreSpec.touched org_id now ids2 r2 r3 ->
  StoreSpec.touched org_id now (ids1 ++ ids2) r1 r3.
Proof.
  intros [->|(c1 & Hc1 & Ho1 & ->)] [->|(c2 & Hc2 & Ho2 & ->)].
  - left; reflexivity.
  - right. exists c2. rewrite in_app_iff. auto.
  - right. exists c1. rewrite in_app_iff. auto.
  - right. exists c2. rewrite in_app_iff, set_cluster_twice. auto.
Qed.

Lemma Forall2_compose {A : Type} (R S T : A -> A -> Prop) (l1 l2 l3 : list A) :
  (forall x y z, R x y -> S y z -> T x z) ->
  Forall2 R l1 l2 -> Forall2 S l2 l3 -> Forall2 T l1 l3.
Proof.
  intros HT H12. revert l3. induction H12 as [|x y l1 l2 Hxy _ IH]; intros l3 H23.
  - inversion H23. constructor.
  - inversion H23 as [|? z ? l3' Hyz H23']; subst. constructor; eauto.
Qed.

Lemma Forall2_refl_on {A : Type} (R : A -> A -> Prop) (l : list A) :
  (forall x, R x x) -> Forall2 R l l.
Proof. intros HR. induction l; constructor; auto. Qed.

Lemma update_keywords_touched cluster_id keyword org_id now rows :
  Forall2 (StoreSpec.touched org_id now [cluster_id]) rows
    (update_keywords cluster_id keyword org_id now rows).
Proof.
  unfold update_keywords. induction rows as [|r rows IH]; simpl; constructor; auto.
  destruct (update_where keyword org_id r) eqn:Hw; [|left; reflexivity].
  right. exists cluster_id. split; [left; reflexivity|]. split; [|reflexivity].
  unfold update_where in Hw. apply andb_true_iff in Hw.
  now apply String.eqb_eq.
Qed.

Lemma touched_weaken org_id now ids ids' r r' :
  incl ids ids' ->
  StoreSpec.touched org_id now ids r r' -> StoreSpec.touched org_id now ids' r r'.
Proof.
  intros Hincl [->|(c & Hc & Ho & ->)]; [left; reflexivity|].
  right. exists c. auto.
Qed.

Lemma update_all_touched cluster_id org_id now keywords rows :
  Forall2 (StoreSpec.touched org_id now [cluster_id]) rows
    (fold_left (fun rows keyword => update_keywords cluster_id keyword org_id now rows)
       keywords rows).
Proof.
  revert rows. induction keywords as [|kw rest IH]; intros rows; simpl.
  - apply Forall2_refl_on. intros r. left; reflexivity.
  - eapply Forall2_compose; [|apply update_keywords_touched|apply IH].
    intros x y z Hxy Hyz. eapply touched_weaken; [|eapply touched_trans; eauto].
    intros c [<-|[<-|[]]]; left; reflexivity.
Qed.

Lemma save_cluster_step org_id project_id now db ids c :
  save_cluster org_id project_id now (db, ids) c
  = (mkDB
       (fold_left (fun rows keyword =>
            update_keywords (KeywordCluster.id c) keyword org_id now rows)
          (KeywordCluster.keywords c) (keywords_table db))
       (clusters_table db ++ [StoreSpec.cluster_row org_id project_id now c]),
     ids ++ [KeywordCluster.id c]).
Proof. reflexivity. Qed.

Lemma save_clusters_fold clusters org_id project_id now db ids :
  let out := fold_left (save_cluster org_id project_id now) clusters (db, ids) in
  Forall2 (StoreSpec.touched org_id now (map KeywordCluster.id clusters))
    (keywords_table db) (keywords_table (fst out)) /\
  clusters_table (fst out)
    = clusters_table db ++ map (StoreSpec.cluster_row org_id project_id now) clusters /\
  snd out = ids ++ map KeywordCluster.id clusters.
Proof.
  revert db ids. induction clusters as [|c rest IH]; intros db ids.
  - simpl. rewrite !app_nil_r. split; [|split; reflexivity].
    apply Forall2_refl_on. intros r. left; reflexivity.
  - cbn [fold_left map]. rewrite save_cluster_step.
    match goal with
    | |- context [fold_left _ rest (?d, ?i)] => specialize (IH d i)
    end.
    cbv zeta in IH. destruct IH as (Hk & Hc & Hi).
    cbv zeta. split; [|split].
    + eapply Forall2_compose; [|apply update_all_touched|exact Hk].
      intros x y z Hxy Hyz.
      apply (touched_trans _ _ [KeywordCluster.id c] _ _ _ _ Hxy Hyz).
    + rewrite Hc. cbn [clusters_table]. rewrite <- app_assoc. reflexivity.
    + rewrite Hi, <- app_assoc. reflexivity.
Qed.

(** X1. The part of the scoping invariant that [save_clusters] keeps: the
    run adds one cluster row per cluster, under its own organisation and
    project, and every keyword row it changes belongs to that organisation,
    keeps its project, and now references one of these clusters. *)
Lemma save_clusters_org_scoped clusters org_id project_id now db :
  let db' := fst (save_clusters clusters org_id project_id now db) in
  clusters_table db'
    = clusters_table db ++ map (StoreSpec.cluster_row org_id project_id now) clusters /\
  Forall2
    (fun r r' =>
       r' <> r ->
       KeywordRow.org_id r' = org_id /\
       KeywordRow.project_id r' = KeywordRow.project_id r /\
       exists c, In c clusters /\
         KeywordRow.cluster_id r' = Some (KeywordCluster.id c))
    (keywords_table db) (keywords_table db').
Proof.
  unfold save_clusters.
  destruct (save_clusters_fold clusters org_id project_id now db []) as (Hk & Hc & _).
  simpl. split; [exact Hc|].
  eapply Forall2_impl; [|exact Hk].
  intros r r' [->|(cid & Hcid & Horg & ->)] Hne; [congruence|].
  apply in_map_iff in Hcid. destruct Hcid as (c & <- & Hin).
  simpl. eauto.
Qed.

(** The [UPDATE] of [save_clusters] filters on term and organisation only.
    On a store that holds one term twice in an organisation (which the key
    of the keyword table excludes), a run scoped to project [p1] also
    assigns the keyword of project [p2] that carries the same term. *)
Lemma unkeyed_store_crosses_projects :
  let db' :=
    fst (process_keywords Sample.kmeans_fit Sample.tfidf Sample.json_loads
           Sample.clock ClusterWorker.init Sample.db "org" (Some "p1"%string) "now") in
  exists before after cluster,
    nth_error (keywords_table Sample.db) 4 = Some before /\
    nth_error (keywords_table db') 4 = Some after /\
    KeywordRow.id after = KeywordRow.id before /\
    KeywordRow.cluster_id before = None /\
    KeywordRow.cluster_id after = Some (ClusterRow.id cluster) /\
    clusters_table db' = [cluster] /\
    KeywordRow.org_id after = ClusterRow.org_id cluster /\
    KeywordRow.project_id after = Some "p2"%string /\
    ClusterRow.project_id cluster = Some "p1"%string.
Proof.
  cbv zeta. do 3 eexists.
  split; [reflexivity|]. split; [vm_compute; reflexivity|].
  repeat split; reflexivity.
Qed.

(* ------------------------------------------------------------------ *)
(** ** Strings: lowercasing and splitting commute *)

Lemma py_isspace_lower (c : ascii) : py_isspace (py_lower_char c) = py_isspace c.
Proof.
  destruct c as [b0 b1 b2 b3 b4 b5 b6 b7].
  destruct b0, b1, b2, b3, b4, b5, b6, b7; reflexivity.
Qed.

Lemma py_lower_app (a b : string) :
  py_lower (a ++ b) = (py_lower a ++ py_lower b)%string.
Proof. induction a as [|c a IH]; simpl; [reflexivity|now rewrite IH]. Qed.

Lemma str_is_empty_lower (s : string) : str_is_empty (py_lower s) = str_is_empty s.
Proof. destruct s; reflexivity. Qed.

Lemma split_scan_lower (s cur : string) :
  split_scan (py_lower cur) (py_lower s) = map py_lower (split_scan cur s).
Proof.
  revert cur. induction s as [|c s IH]; intros cur; simpl.
  - rewrite str_is_empty_lower. destruct (str_is_empty cur); reflexivity.
  - rewrite py_isspace_lower, str_is_empty_lower.
    destruct (py_isspace c).
    + destruct (str_is_empty cur); simpl; rewrite <- (IH EmptyString); reflexivity.
    + rewrite <- IH, py_lower_app. reflexivity.
Qed.

Lemma py_split_lower (s : string) :
  py_split (py_lower s) = map py_lower (py_split s).
Proof. apply (split_scan_lower s EmptyString). Qed.

Lemma all_words_tokens (terms : list string) :
  flat_map (fun term => py_split (py_lower term)) terms
  = map py_lower (flat_map py_split terms).
Proof.
  induction terms as [|t r IH]; simpl; [reflexivity|].
  now rewrite map_app, IH, py_split_lower.
Qed.

(* ------------------------------------------------------------------ *)
(** ** Dictionaries: the word counts *)

Lemma dict_get_notin {V : Type} (d : dict V) (k : string) (default : V) :
  ~ In k (map fst d) -> dict_get d k default = default.
Proof.
  induction d as [|[k' v'] r IH]; simpl; intros Hn; [reflexivity|].
  destruct (String.eqb_spec k' k) as [->|Hne]; [tauto|].
  apply IH. tauto.
Qed.

Lemma dict_get_In {V : Type} (d : dict V) (k : string) (v default : V) :
  NoDup (map fst d) -> In (k, v) d -> dict_get d k default = v.
Proof.
  induction d as [|[k' v'] r IH]; simpl; intros Hnd Hin; [contradiction|].
  inversion Hnd as [|? ? Hnotin Hnd']; subst.
  destruct Hin as [Heq|Hin].
  - inversion Heq; subst. now rewrite String.eqb_refl.
  - destruct (String.eqb_spec k' k) as [->|Hne]; [|auto].
    exfalso. apply Hnotin. apply in_map_iff. exists (k, v). auto.
Qed.

Lemma dict_set_keys {V : Type} (d : dict V) (k : string) (v : V) (k' : string) :
  In k' (map fst (dict_set d k v)) <-> k' = k \/ In k' (map fst d).
Proof.
  induction d as [|[k0 v0] r IH]; simpl.
  - intuition.
  - destruct (String.eqb_spec k0 k) as [->|Hne]; simpl.
    + intuition.
    + rewrite IH. intuition.
Qed.

Lemma dict_set_NoDup {V : Type} (d : dict V) (k : string) (v : V) :
  NoDup (map fst d) -> NoDup (map fst (dict_set d k v)).
Proof.
  induction d as [|[k0 v0] r IH]; simpl; intros Hnd.
  - constructor; [intros []|constructor].
  - inversion Hnd as [|? ? Hnotin Hnd']; subst.
    destruct (String.eqb_spec k0 k) as [->|Hne]; simpl.
    + constructor; assumption.
    + constructor; [|auto]. rewrite dict_set_keys. intros [Heq|Hin]; auto.
Qed.

Lemma dict_set_entries {V : Type} (d : dict V) (k : string) (v : V) (k' : string) (v' : V) :
  NoDup (map fst d) ->
  In (k', v') (dict_set d k v) ->
  (k' = k /\ v' = v) \/ (k' <> k /\ In (k', v') d).
Proof.
  induction d as [|[k0 v0] r IH]; simpl; intros Hnd Hin.
  - destruct Hin as [Heq|[]]. inversion Heq; auto.
  - inversion Hnd as [|? ? Hnotin Hnd']; subst.
    destruct (String.eqb_spec k0 k) as [->|Hne]; simpl in Hin.
    + destruct Hin as [Heq|Hin]; [inversion Heq; auto|].
      right. split; [|auto]. intros ->. apply Hnotin.
      apply in_map_iff. exists (k, v'). auto.
    + destruct Hin as [Heq|Hin].
      * inversion Heq; subst. right. auto.
      * destruct (IH Hnd' Hin) as [?|[? ?]]; auto.
Qed.

Lemma counts_ok_step (seen : list string) (d : dict Z) (w : string) :
  NameSpec.counts_ok seen d ->
  NameSpec.counts_ok (seen ++ [w]) (dict_set d w (dict_get d w 0 + 1)%Z).
Proof.
  intros (Hnd & Hkeys & Hvals). split; [|split].
  - now apply dict_set_NoDup.
  - intros w'. rewrite dict_set_keys, Hkeys, in_app_iff. simpl. intuition.
  - intros w' v' Hin. unfold NameSpec.frequency. rewrite count_occ_app. simpl.
    apply dict_set_entries in Hin; [|exact Hnd].
    destruct Hin as [[-> ->]|[Hne Hin]].
    + destruct (string_dec w w) as [_|]; [|congruence].
      destruct (in_dec string_dec w (map fst d)) as [Hk|Hk].
      * apply in_map_iff in Hk. destruct Hk as ([k v] & Hfst & Hkv).
        simpl in Hfst; subst k.
        rewrite (dict_get_In d w v 0%Z Hnd Hkv), (Hvals w v Hkv).
        unfold NameSpec.frequency. lia.
      * rewrite dict_get_notin by exact Hk.
        assert (Hc : count_occ string_dec seen w = 0%nat).
        { apply count_occ_not_In. now rewrite <- Hkeys. }
        rewrite Hc. reflexivity.
    + destruct (string_dec w w') as [->|_]; [congruence|].
      rewrite (Hvals w' v' Hin). unfold NameSpec.frequency. lia.
Qed.

Lemma count_words_snoc (l : list string) (w : string) :
  count_words (l ++ [w])
  = if NameSpec.long_enough w
    then dict_set (count_words l) w (dict_get (count_words l) w 0 + 1)%Z
    else count_words l.
Proof. unfold count_words. rewrite fold_left_app. reflexivity. Qed.

Lemma count_words_ok (all_words : list string) :
  NameSpec.counts_ok (filter NameSpec.long_enough all_words) (count_words all_words).
Proof.
  induction all_words as [|w l IH] using rev_ind.
  - split; [constructor|]. split; [reflexivity|]. intros w v [].
  - rewrite count_words_snoc, filter_app. simpl.
    destruct (NameSpec.long_enough w).
    + now apply counts_ok_step.
    + now rewrite app_nil_r.
Qed.

(* ------------------------------------------------------------------ *)
(** ** Stable descending sort *)

Section SortDesc.

Context {A : Type}.
Variable geb : A -> A -> bool.
Hypothesis geb_total : forall x y, geb x y = false -> geb y x = true.
Hypothesis geb_trans : forall x y z, geb x y = true -> geb y z = true -> geb x z = true.

Lemma insert_desc_perm (x : A) (l : list A) :
  Permutation (insert_desc geb x l) (x :: l).
Proof.
  induction l as [|y r IH]; simpl; [reflexivity|].
  destruct (geb x y); [reflexivity|].
  rewrite IH. apply perm_swap.
Qed.

Lemma sort_desc_perm (l : list A) : Permutation (sort_desc geb l) l.
Proof.
  induction l as [|x r IH]; simpl; [reflexivity|].
  rewrite insert_desc_perm. now constructor.
Qed.

Lemma insert_desc_sorted (x : A) (l : list A) :
  StronglySorted (fun a b => geb a b = true) l ->
  StronglySorted (fun a b => geb a b = true) (insert_desc geb x l).
Proof.
  induction 1 as [|y r Hs IH Hall]; simpl.
  - constructor; constructor.
  - destruct (geb x y) eqn:Hxy.
    + constructor; [constructor; assumption|].
      constructor; [exact Hxy|].
      eapply Forall_impl; [|exact Hall]. intros z Hyz. eapply geb_trans; eauto.
    + constructor; [exact IH|].
      apply Forall_forall. intros z Hz.
      apply (Permutation_in _ (insert_desc_perm x r)) in Hz.
      destruct Hz as [<-|Hz]; [now apply geb_total|].
      rewrite Forall_forall in Hall. auto.
Qed.

Lemma sort_desc_sorted (l : list A) :
  StronglySorted (fun a b => geb a b = true) (sort_desc geb l).
Proof.
  induction l as [|x r IH]; simpl; [constructor|].
  now apply insert_desc_sorted.
Qed.

End SortDesc.

Lemma StronglySorted_nth_error {A : Type} (R : A -> A -> Prop) (l : list A)
    (i j : nat) (a b : A) :
  StronglySorted R l -> (i < j)%nat ->
  nth_error l i = Some a -> nth_error l j = Some b -> R a b.
Proof.
  intros Hs. revert i j. induction Hs as [|x r Hs IH Hall]; intros i j Hij Hi Hj.
  - destruct i; discriminate.
  - destruct j as [|j]; [lia|]. simpl in Hj. destruct i as [|i]; simpl in Hi.
    + inversion Hi; subst. rewrite Forall_forall in Hall.
      apply Hall. eapply nth_error_In; eauto.
    + apply (IH i j); [lia|assumption..].
Qed.

Lemma nth_error_firstn_Some {A : Type} (l : list A) (n i : nat) (a : A) :
  nth_error (firstn n l) i = Some a -> (i < n)%nat /\ nth_error l i = Some a.
Proof.
  revert n i. induction l as [|x r IH]; intros n i H.
  - rewrite firstn_nil in H. destruct i; discriminate.
  - destruct n as [|n]; [destruct i; discriminate|].
    destruct i as [|i]; simpl in *; [split; [lia|exact H]|].
    destruct (IH n i H). split; [lia|assumption].
Qed.

Lemma In_firstn_or_later {A : Type} (l : list A) (n : nat) (a : A) :
  In a l -> In a (firstn n l) \/ exists j, (n <= j)%nat /\ nth_error l j = Some a.
Proof.
  intros Hin. rewrite <- (firstn_skipn n l) in Hin at 1.
  apply in_app_or in Hin. destruct Hin as [H|H]; [left; exact H|right].
  destruct (In_nth_error _ _ H) as (j & Hj).
  exists (n + j)%nat. split; [lia|]. now rewrite <- nth_error_skipn.
Qed.

Lemma In_firstn_In {A : Type} (l : list A) (n : nat) (a : A) :
  In a (firstn n l) -> In a l.
Proof.
  intros H. rewrite <- (firstn_skipn n l). apply in_or_app. now left.
Qed.

Lemma NoDup_firstn {A : Type} (l : list A) (n : nat) :
  NoDup l -> NoDup (firstn n l).
Proof.
  intros H. rewrite <- (firstn_skipn n l) in H.
  eapply NoDup_app_remove_r; eauto.
Qed.

(* ------------------------------------------------------------------ *)
(** ** The cluster name *)

Lemma count_geb_total (x y : string * Z) :
  NameSpec.count_geb x y = false -> NameSpec.count_geb y x = true.
Proof. unfold NameSpec.count_geb. intros H. apply Z.leb_gt in H. apply Z.leb_le. lia. Qed.

Lemma count_geb_trans (x y z : string * Z) :
  NameSpec.count_geb x y = true -> NameSpec.count_geb y z = true ->
  NameSpec.count_geb x z = true.
Proof.
  unfold NameSpec.count_geb. intros H1 H2.
  apply Z.leb_le in H1, H2. apply Z.leb_le. lia.
Qed.

(** The keys of the three first entries of the sorted word counts are the
    three most frequent surviving words. *)
Lemma common_words_top_frequent (all_words : list string) :
  let toks := filter NameSpec.long_enough all_words in
  let common_words :=
    firstn 3 (sort_desc NameSpec.count_geb (count_words all_words)) in
  NameSpec.top_frequent 3 toks (map fst common_words).
Proof.
  intros toks common_words.
  set (d := count_words all_words).
  set (sorted := sort_desc NameSpec.count_geb d).
  destruct (count_words_ok all_words) as (Hnd & Hkeys & Hvals).
  fold toks in Hkeys, Hvals. fold d in Hnd, Hkeys, Hvals.
  pose proof (sort_desc_perm NameSpec.count_geb d) as Hperm. fold sorted in Hperm.
  pose proof (sort_desc_sorted NameSpec.count_geb count_geb_total count_geb_trans d)
    as Hsorted. fold sorted in Hsorted.
  assert (Hfreq : forall w v, In (w, v) sorted ->
                              v = Z.of_nat (NameSpec.frequency toks w)).
  { intros w v Hin. apply Hvals. eapply Permutation_in; eauto. }
  assert (Hnd_sorted : NoDup (map fst sorted)).
  { eapply Permutation_NoDup; [|exact Hnd].
    apply Permutation_map. now symmetry. }
  assert (Hkeys_sorted : forall w, In w (map fst sorted) <-> In w toks).
  { intros w. rewrite <- Hkeys. split; apply Permutation_in, Permutation_map;
      [exact Hperm|now symmetry]. }
  assert (Hentry : forall w, In w (map fst common_words) ->
                             exists v, In (w, v) common_words).
  { intros w Hw. apply in_map_iff in Hw. destruct Hw as ([w' v] & Hfst & Hin).
    simpl in Hfst; subst w'. eauto. }
  unfold NameSpec.top_frequent. split; [|split; [|split; [|split]]].
  - unfold common_words. rewrite <- firstn_map. now apply NoDup_firstn.
  - intros w Hw. apply Hkeys_sorted.
    unfold common_words in Hw. rewrite <- firstn_map in Hw.
    eapply In_firstn_In; eauto.
  - unfold common_words. rewrite length_map, length_firstn.
    f_equal.
    transitivity (length (map fst sorted)); [now rewrite length_map|].
    apply Permutation_length. apply NoDup_Permutation.
    + exact Hnd_sorted.
    + apply NoDup_nodup.
    + intros w. rewrite Hkeys_sorted, nodup_In. reflexivity.
  - intros w u Hw Hu Hnot.
    destruct (Hentry w Hw) as (vw & Hvw).
    apply Hkeys_sorted in Hu. apply in_map_iff in Hu.
    destruct Hu as ([u' vu] & Hfst & Hvu). simpl in Hfst; subst u'.
    destruct (In_firstn_or_later sorted 3 (u, vu) Hvu) as [Hin|(j & Hj & Hnth)].
    { exfalso. apply Hnot. apply in_map_iff. exists (u, vu). auto. }
    destruct (In_nth_error _ _ Hvw) as (i & Hi).
    apply nth_error_firstn_Some in Hi. destruct Hi as [Hi3 Hi].
    assert (Hge : NameSpec.count_geb (w, vw) (u, vu) = true).
    { apply (StronglySorted_nth_error (fun a b => NameSpec.count_geb a b = true) sorted i j); auto. lia. }
    unfold NameSpec.count_geb in Hge. simpl in Hge. apply Z.leb_le in Hge.
    rewrite (Hfreq w vw), (Hfreq u vu) in Hge; auto.
    + lia.
    + eapply nth_error_In; eauto.
  - intros i j w u Hij Hi Hj.
    rewrite nth_error_map in Hi, Hj.
    destruct (nth_error common_words i) as [[w' vw]|] eqn:Ei; [|discriminate].
    destruct (nth_error common_words j) as [[u' vu]|] eqn:Ej; [|discriminate].
    simpl in Hi, Hj. inversion Hi; inversion Hj; subst w' u'.
    apply nth_error_firstn_Some in Ei, Ej.
    destruct Ei as [_ Ei]. destruct Ej as [_ Ej].
    assert (Hge : NameSpec.count_geb (w, vw) (u, vu) = true).
    { apply (StronglySorted_nth_error (fun a b => NameSpec.count_geb a b = true) sorted i j); auto. }
    unfold NameSpec.count_geb in Hge. simpl in Hge. apply Z.leb_le in Hge.
    rewrite (Hfreq w vw), (Hfreq u vu) in Hge.
    + lia.
    + eapply nth_error_In; eauto.
    + eapply nth_error_In; eauto.
Qed.

(** C6 (as amended). For a non-empty list of member keywords the name is
    ["Cluster: "] followed by the (up to) three most frequent tokens joined
    by spaces, the tokens being every member term split on whitespace,
    lowercased, short tokens discarded; when no token survives, the name is
    ["Cluster: "] followed by the first member term verbatim. *)
Theorem generate_cluster_name_spec (keywords : list Keyword.t) :
  keywords <> [] ->
  let terms := map Keyword.term keywords in
  exists top,
    NameSpec.top_frequent 3 (NameSpec.tokens terms) top /\
    _generate_cluster_name keywords = Ok (NameSpec.prefixed_name terms top).
Proof.
  intros Hne terms.
  pose proof (common_words_top_frequent
                (flat_map (fun term => py_split (py_lower term)) terms)) as Htop.
  cbv zeta in Htop. rewrite all_words_tokens in Htop at 1.
  fold (NameSpec.tokens terms) in Htop.
  eexists. split; [exact Htop|].
  unfold _generate_cluster_name. fold terms.
  change (fun x y : string * Z => (snd y <=? snd x)%Z) with NameSpec.count_geb.
  destruct (firstn 3 _) as [|e r]; simpl.
  - destruct keywords as [|kw rest]; [congruence|]. reflexivity.
  - reflexivity.
Qed.

Lemma generate_cluster_name_spec_witness :
  exists top,
    NameSpec.top_frequent 3
      (NameSpec.tokens (map Keyword.term Sample.keywords)) top /\
    _generate_cluster_name Sample.keywords
    = Ok (NameSpec.prefixed_name (map Keyword.term Sample.keywords) top).
Proof.
  apply (generate_cluster_name_spec Sample.keywords). discriminate.
Defined.

(** C6 read to the letter fails on a cluster whose only term is a short
    word: no token survives, the code answers ["Cluster: ai"], and the
    first member term verbatim is ["ai"]. *)
Lemma cluster_name_fallback_counterexample :
  let keywords := [Sample.kw "k7" "ai" 10 20 (1 # 2)] in
  let terms := map Keyword.term keywords in
  NameSpec.tokens terms = [] /\
  _generate_cluster_name keywords = Ok "Cluster: ai"%string /\
  ~ (exists top,
       NameSpec.top_frequent 3 (NameSpec.tokens terms) top /\
       _generate_cluster_name keywords = Ok (NameSpec.verbatim_name terms top)).
Proof.
  cbv zeta. split; [reflexivity|]. split; [reflexivity|].
  intros (top & (_ & Hincl & _) & Hname).
  destruct top as [|w top].
  - discriminate Hname.
  - apply (Hincl w). left; reflexivity.
Qed.

(* ================================================================== *)
(** * Further properties of the worker *)

(* ------------------------------------------------------------------ *)
(** ** What [save_clusters] writes *)

Lemma set_cluster_fields (cid now : string) (r : KeywordRow.t) :
  KeywordRow.term (set_cluster cid now r) = KeywordRow.term r /\
  KeywordRow.org_id (set_cluster cid now r) = KeywordRow.org_id r.
Proof. split; reflexivity. Qed.

(** All the [UPDATE]s issued for one cluster, as one pass over the rows. *)
Lemma update_all_map (cid org_id now : string) (keywords : list string)
    (rows : list KeywordRow.t) :
  fold_left (fun rows keyword => update_keywords cid keyword org_id now rows)
    keywords rows
  = map (fun r =>
           if String.eqb (KeywordRow.org_id r) org_id
              && existsb (String.eqb (KeywordRow.term r)) keywords
           then set_cluster cid now r else r) rows.
Proof.
  revert rows. induction keywords as [|kw rest IH]; intros rows; simpl.
  - rewrite <- (map_id rows) at 1. apply map_ext. intros r.
    now rewrite andb_false_r.
  - rewrite IH. unfold update_keywords. rewrite map_map. apply map_ext. intros r.
    unfold update_where.
    destruct (String.eqb (KeywordRow.org_id r) org_id) eqn:Horg;
      destruct (String.eqb (KeywordRow.term r) kw) eqn:Hkw; simpl;
      rewrite ?Horg; simpl; try reflexivity.
    destruct (existsb _ rest); reflexivity.
Qed.

Lemma last_listing_snoc (clusters : list KeywordCluster.t) (c : KeywordCluster.t)
    (r : KeywordRow.t) :
  RunSpec.last_listing (clusters ++ [c]) r
  = if RunSpec.lists_term c r then Some c else RunSpec.last_listing clusters r.
Proof. unfold RunSpec.last_listing. rewrite rev_app_distr. reflexivity. Qed.

Lemma last_listing_term_listed (clusters : list KeywordCluster.t) (r : KeywordRow.t) :
  RunSpec.term_listed clusters r = true <-> RunSpec.last_listing clusters r <> None.
Proof.
  unfold RunSpec.term_listed, RunSpec.last_listing. rewrite existsb_exists. split.
  - intros (c & Hc & Hl) Hnone.
    apply in_rev in Hc. pose proof (find_none _ _ Hnone c Hc) as Hf.
    simpl in Hf. congruence.
  - intros Hsome. destruct (find _ (rev clusters)) as [c|] eqn:Hf; [|congruence].
    apply find_some in Hf. destruct Hf as [Hin Hl].
    exists c. split; [now apply in_rev|exact Hl].
Qed.

Lemma saved_row_snoc (org_id now : string) (rest : list KeywordCluster.t)
    (c : KeywordCluster.t) (r : KeywordRow.t) :
  RunSpec.saved_row org_id now (rest ++ [c]) r
  = (if String.eqb (KeywordRow.org_id (RunSpec.saved_row org_id now rest r)) org_id
        && existsb (String.eqb (KeywordRow.term (RunSpec.saved_row org_id now rest r)))
             (KeywordCluster.keywords c)
     then set_cluster (KeywordCluster.id c) now (RunSpec.saved_row org_id now rest r)
     else RunSpec.saved_row org_id now rest r).
Proof.
  assert (Hsame : KeywordRow.term (RunSpec.saved_row org_id now rest r)
                  = KeywordRow.term r /\
                  KeywordRow.org_id (RunSpec.saved_row org_id now rest r)
                  = KeywordRow.org_id r).
  { unfold RunSpec.saved_row. destruct (String.eqb _ _); [|auto].
    destruct (RunSpec.last_listing rest r); auto. }
  destruct Hsame as [Hterm Horg]. rewrite Hterm, Horg.
  unfold RunSpec.saved_row. rewrite last_listing_snoc. unfold RunSpec.lists_term.
  destruct (String.eqb (KeywordRow.org_id r) org_id); simpl; [|reflexivity].
  destruct (existsb _ (KeywordCluster.keywords c)); [|reflexivity].
  destruct (RunSpec.last_listing rest r); reflexivity.
Qed.

Lemma save_clusters_rows clusters org_id project_id now db ids :
  keywords_table (fst (fold_left (save_cluster org_id project_id now) clusters (db, ids)))
  = map (RunSpec.saved_row org_id now clusters) (keywords_table db).
Proof.
  induction clusters as [|c rest IH] using rev_ind.
  - simpl. rewrite <- (map_id (keywords_table db)) at 1. apply map_ext.
    intros r. unfold RunSpec.saved_row. simpl.
    destruct (String.eqb _ _); reflexivity.
  - rewrite fold_left_app. simpl fold_left.
    destruct (fold_left (save_cluster org_id project_id now) rest (db, ids))
      as [db1 ids1] eqn:Hfold.
    simpl in IH. rewrite save_cluster_step. cbn [fst keywords_table].
    rewrite update_all_map, IH, map_map. apply map_ext. intros r.
    symmetry. apply saved_row_snoc.
Qed.

(** X2. What [save_clusters] leaves in the store, exactly: one cluster row
    per cluster, appended in order under the run's organisation and project;
    the ids of the clusters as the result; and, among the keyword rows, a row
    of the organisation whose term some cluster lists now references the
    last cluster listing it, every other row being as it was. *)
Theorem save_clusters_exact (clusters : list KeywordCluster.t) (org_id : string)
    (project_id : option string) (now : string) (db : DB) :
  let out := save_clusters clusters org_id project_id now db in
  keywords_table (fst out)
    = map (RunSpec.saved_row org_id now clusters) (keywords_table db) /\
  clusters_table (fst out)
    = clusters_table db
      ++ map (StoreSpec.cluster_row org_id project_id now) clusters /\
  snd out = map KeywordCluster.id clusters.
Proof.
  cbv zeta. unfold save_clusters.
  destruct (save_clusters_fold clusters org_id project_id now db []) as (_ & Hc & Hi).
  split; [apply save_clusters_rows|]. split; [exact Hc|exact Hi].
Qed.

Lemma saved_row_fetch (clusters : list KeywordCluster.t) (org_id : string)
    (project_id : option string) (now : string) (r : KeywordRow.t) :
  fetch_where org_id project_id (RunSpec.saved_row org_id now clusters r)
  = fetch_where org_id project_id r && negb (RunSpec.term_listed clusters r).
Proof.
  unfold RunSpec.saved_row.
  destruct (String.eqb (KeywordRow.org_id r) org_id) eqn:Ho.
  - pose proof (last_listing_term_listed clusters r) as Hl.
    destruct (RunSpec.last_listing clusters r) as [c|].
    + assert (Ht : RunSpec.term_listed clusters r = true) by (apply Hl; discriminate).
      rewrite Ht, andb_false_r. unfold fetch_where. simpl.
      now rewrite andb_false_r.
    + destruct (RunSpec.term_listed clusters r); [|now rewrite andb_true_r].
      exfalso. now apply (proj1 Hl).
  - unfold fetch_where. rewrite Ho. reflexivity.
Qed.

Lemma saved_row_unlisted (clusters : list KeywordCluster.t) (org_id : string)
    (project_id : option string) (now : string) (r : KeywordRow.t) :
  fetch_where org_id project_id (RunSpec.saved_row org_id now clusters r) = true ->
  RunSpec.saved_row org_id now clusters r = r.
Proof.
  rewrite saved_row_fetch. intros H. apply andb_true_iff in H. destruct H as [_ Hn].
  apply negb_true_iff in Hn. unfold RunSpec.saved_row.
  destruct (String.eqb _ _); [|reflexivity].
  destruct (RunSpec.last_listing clusters r) eqn:Hl; [|reflexivity].
  assert (RunSpec.term_listed clusters r = true)
    by (apply last_listing_term_listed; congruence).
  congruence.
Qed.

Lemma filter_saved_rows (clusters : list KeywordCluster.t) (org_id : string)
    (project_id : option string) (now : string) (rows : list KeywordRow.t) :
  filter (fetch_where org_id project_id)
    (map (RunSpec.saved_row org_id now clusters) rows)
  = filter (fun r => fetch_where org_id project_id r
                     && negb (RunSpec.term_listed clusters r)) rows.
Proof.
  induction rows as [|r rows IH]; simpl; [reflexivity|].
  rewrite <- (saved_row_fetch clusters org_id project_id now r), IH.
  destruct (fetch_where org_id project_id (RunSpec.saved_row org_id now clusters r))
    eqn:Hf; [|reflexivity].
  now rewrite (saved_row_unlisted _ _ _ _ _ Hf).
Qed.

(** X3. Saving and then fetching again: the next fetch under the same
    scope selects the rows it selected before the save, less those whose
    term a saved cluster lists, so no keyword of a saved cluster is
    clustered a second time. *)
Theorem fetch_after_save (json_loads : string -> result json)
    (clusters : list KeywordCluster.t) (org_id : string)
    (project_id : option string) (now : string) (db : DB) :
  let db' := fst (save_clusters clusters org_id project_id now db) in
  filter (fetch_where org_id project_id) (keywords_table db')
  = filter (fun r => fetch_where org_id project_id r
                     && negb (RunSpec.term_listed clusters r))
      (keywords_table db) /\
  get_keywords_for_clustering json_loads db' org_id project_id
  = mapM (keyword_of_row json_loads)
      (sort_desc volume_geb
         (filter (fun r => fetch_where org_id project_id r
                           && negb (RunSpec.term_listed clusters r))
            (keywords_table db))).
Proof.
  cbv zeta.
  assert (Hrows : filter (fetch_where org_id project_id)
      (keywords_table (fst (save_clusters clusters org_id project_id now db)))
    = filter (fun r => fetch_where org_id project_id r
                       && negb (RunSpec.term_listed clusters r))
        (keywords_table db)).
  { unfold save_clusters. rewrite save_clusters_rows. apply filter_saved_rows. }
  split; [exact Hrows|].
  unfold get_keywords_for_clustering. now rewrite Hrows.
Qed.

(* ------------------------------------------------------------------ *)
(** ** What [get_keywords_for_clustering] returns *)

Lemma fetch_where_in_scope (org_id : string) (project_id : option string)
    (r : KeywordRow.t) :
  fetch_where org_id project_id r = true <-> RunSpec.in_scope org_id project_id r.
Proof.
  unfold fetch_where, RunSpec.in_scope. rewrite !andb_true_iff, String.eqb_eq.
  split.
  - intros [[Ho Hp] Hc]. split; [exact Ho|]. split.
    + intros p ->. destruct (KeywordRow.project_id r) as [q|]; [|discriminate].
      apply String.eqb_eq in Hp. now subst.
    + destruct (KeywordRow.cluster_id r); [discriminate|reflexivity].
  - intros (Ho & Hp & Hc). split; [split; [exact Ho|]|].
    + destruct project_id as [p|]; [|reflexivity].
      rewrite (Hp p eq_refl). apply String.eqb_refl.
    + now rewrite Hc.
Qed.

Lemma volume_geb_total (a b : KeywordRow.t) :
  volume_geb a b = false -> volume_geb b a = true.
Proof.
  unfold volume_geb.
  destruct (KeywordRow.search_volume a), (KeywordRow.search_volume b);
    try discriminate; try reflexivity.
  intros H. apply Z.leb_gt in H. apply Z.leb_le. lia.
Qed.

Lemma volume_geb_trans (a b c : KeywordRow.t) :
  volume_geb a b = true -> volume_geb b c = true -> volume_geb a c = true.
Proof.
  unfold volume_geb.
  destruct (KeywordRow.search_volume a), (KeywordRow.search_volume b),
    (KeywordRow.search_volume c); try discriminate; try reflexivity.
  intros H1 H2. apply Z.leb_le in H1, H2. apply Z.leb_le. lia.
Qed.

Lemma keyword_of_row_identity (json_loads : string -> result json)
    (row : KeywordRow.t) (k : Keyword.t) :
  keyword_of_row json_loads row = Ok k ->
  Keyword.id k = KeywordRow.id row /\ Keyword.term k = KeywordRow.term row.
Proof.
  unfold keyword_of_row. intros H. bind_inv H. inversion H; subst. split; reflexivity.
Qed.

(** X4. A successful fetch returns one keyword per row in scope (of the
    organisation, of the project when one is given, not yet clustered), with
    the id and term of its row, rows with larger search volume first and rows
    without a search volume last. *)
Theorem fetch_scope_and_order (json_loads : string -> result json) (db : DB)
    (org_id : string) (project_id : option string) (keywords : list Keyword.t) :
  get_keywords_for_clustering json_loads db org_id project_id = Ok keywords ->
  exists rows,
    Permutation rows (filter (fetch_where org_id project_id) (keywords_table db)) /\
    (forall r, In r rows <->
               In r (keywords_table db) /\ RunSpec.in_scope org_id project_id r) /\
    StronglySorted (fun a b => volume_geb a b = true) rows /\
    Forall2 (fun row k => Keyword.id k = KeywordRow.id row /\
                          Keyword.term k = KeywordRow.term row) rows keywords.
Proof.
  intros H.
  exists (sort_desc volume_geb
            (filter (fetch_where org_id project_id) (keywords_table db))).
  pose proof (sort_desc_perm volume_geb
                (filter (fetch_where org_id project_id) (keywords_table db))) as Hperm.
  split; [exact Hperm|]. split; [|split].
  - intros r. rewrite <- fetch_where_in_scope, <- filter_In. split.
    + apply Permutation_in. exact Hperm.
    + apply Permutation_in. now symmetry.
  - apply sort_desc_sorted; [apply volume_geb_total|apply volume_geb_trans].
  - apply get_keywords_for_clustering_rows in H.
    eapply Forall2_impl; [|exact H].
    intros row k Hk. now apply keyword_of_row_identity in Hk.
Qed.

(** X5. The row loop of the fetch, on any rows the query answers.  When
    [json.loads] accepts the non-empty settings of every row, the loop
    returns one keyword per row (none, without an error, for no row).  When
    the loop raises, the exception is the one [json.loads] raised on the
    settings of a row, the rows before it having been converted.  What the
    query itself may raise is outside this statement. *)
Theorem row_loop_outcome (json_loads : string -> result json)
    (rows : list KeywordRow.t) :
  ((forall r s, In r rows ->
      KeywordRow.settings r = Some s -> s <> EmptyString ->
      exists j, json_loads s = Ok j) ->
   exists keywords,
     mapM (keyword_of_row json_loads) rows = Ok keywords /\
     length keywords = length rows) /\
  (forall e,
     mapM (keyword_of_row json_loads) rows = Raise e ->
     exists pre r post s,
       rows = pre ++ r :: post /\
       KeywordRow.settings r = Some s /\ s <> EmptyString /\
       json_loads s = Raise e /\
       exists converted,
         mapM (keyword_of_row json_loads) pre = Ok converted).
Proof.
  split.
  - intros Hjson.
    destruct (mapM_total (keyword_of_row json_loads) rows) as (kws & Hk).
    + intros r Hr. unfold keyword_of_row.
      destruct (KeywordRow.settings r) as [s|] eqn:Hs; [|eexists; reflexivity].
      destruct s as [|c s']; [eexists; reflexivity|].
      destruct (Hjson r (String c s') Hr Hs) as (j & Hj); [discriminate|].
      simpl. rewrite Hj. eexists; reflexivity.
    + exists kws. split; [exact Hk|]. exact (mapM_Ok_length _ _ _ Hk).
  - induction rows as [|r rest IH]; intros e H; [discriminate|].
    simpl in H.
    destruct (keyword_of_row json_loads r) as [k|e1] eqn:Hr.
    + simpl in H.
      destruct (mapM (keyword_of_row json_loads) rest) as [ks|e2] eqn:Hrest;
        [discriminate|].
      simpl in H. inversion H; subst e2.
      destruct (IH e eq_refl) as (pre & r0 & post & s & -> & Hs & Hne & Hj & conv & Hconv).
      exists (r :: pre), r0, post, s. repeat split; auto.
      exists (k :: conv). simpl. rewrite Hr, Hconv. reflexivity.
    + simpl in H. inversion H; subst e1.
      unfold keyword_of_row in Hr.
      destruct (KeywordRow.settings r) as [s|] eqn:Hs; [|discriminate].
      destruct s as [|c s']; [discriminate|].
      simpl in Hr.
      destruct (json_loads (String c s')) as [j|e1] eqn:Hj; [discriminate|].
      simpl in Hr. inversion Hr; subst e1.
      exists [], r, rest, (String c s'). repeat split; auto; [discriminate|].
      exists []. reflexivity.
Qed.

Lemma row_loop_outcome_witness :
  (exists keywords,
     mapM (keyword_of_row Sample.strict_json_loads)
       [Sample.settings_row "k1" None; Sample.settings_row "k2" (Some "{}"%string);
        Sample.settings_row "k3" (Some EmptyString)]
     = Ok keywords /\
     length keywords = 3%nat) /\
  (mapM (keyword_of_row Sample.strict_json_loads)
     [Sample.settings_row "k1" (Some "{}"%string);
      Sample.settings_row "k2" (Some "{oops"%string);
      Sample.settings_row "k3" None]
   = Raise ValueError /\
   exists pre r post s,
     [Sample.settings_row "k1" (Some "{}"%string);
      Sample.settings_row "k2" (Some "{oops"%string);
      Sample.settings_row "k3" None] = pre ++ r :: post /\
     KeywordRow.settings r = Some s /\ s <> EmptyString /\
     Sample.strict_json_loads s = Raise ValueError /\
     exists converted,
       mapM (keyword_of_row Sample.strict_json_loads) pre = Ok converted).
Proof.
  split.
  - apply (proj1 (row_loop_outcome Sample.strict_json_loads
                    [Sample.settings_row "k1" None;
                     Sample.settings_row "k2" (Some "{}"%string);
                     Sample.settings_row "k3" (Some EmptyString)])).
    intros r s [<-|[<-|[<-|[]]]] Hs Hne; simpl in Hs; inversion Hs; subst.
    + eexists; reflexivity.
    + congruence.
  - split; [reflexivity|].
    apply (proj2 (row_loop_outcome Sample.strict_json_loads
                    [Sample.settings_row "k1" (Some "{}"%string);
                     Sample.settings_row "k2" (Some "{oops"%string);
                     Sample.settings_row "k3" None])).
    reflexivity.
Defined.

Lemma fetch_scope_and_order_witness :
  exists keywords rows,
    get_keywords_for_clustering Sample.json_loads Sample.db "org" (Some "p1"%string)
    = Ok keywords /\
    length keywords = 4%nat /\
    Permutation rows
      (filter (fetch_where "org" (Some "p1"%string)) (keywords_table Sample.db)) /\
    (forall r, In r rows <->
               In r (keywords_table Sample.db) /\
               RunSpec.in_scope "org" (Some "p1"%string) r) /\
    StronglySorted (fun a b => volume_geb a b = true) rows /\
    Forall2 (fun row k => Keyword.id k = KeywordRow.id row /\
                          Keyword.term k = KeywordRow.term row) rows keywords.
Proof.
  eexists.
  assert (Hrun : get_keywords_for_clustering Sample.json_loads Sample.db "org"
                   (Some "p1"%string)
                 = Ok (map (fun r => Sample.kw (KeywordRow.id r) (KeywordRow.term r)
                                       (StoreSpec.or_default (KeywordRow.search_volume r) 0%Z)
                                       (StoreSpec.or_default (KeywordRow.difficulty r) 50%Z)
                                       (StoreSpec.or_default (KeywordRow.cpc r) 0))
                         (firstn 4 (keywords_table Sample.db))))
    by reflexivity.
  destruct (fetch_scope_and_order Sample.json_loads Sample.db "org"
              (Some "p1"%string) _ Hrun) as (rows & Hrows).
  exists rows. split; [exact Hrun|]. split; [reflexivity|exact Hrows].
Defined.

(* ------------------------------------------------------------------ *)
(** ** A whole run: [process_keywords] *)

Section ProcessKeywords.

Variable KMeans_fit : Z -> Z -> Z -> list (list Q) -> result KMeans.t.
Variable TfidfVectorizer_fit_transform : list string -> result (list (list Q)).
Variable json_loads : string -> result json.
Variable utcnow_strftime : Z -> string.
Variable self : ClusterWorker.t.

#[local] Abbreviation process :=
  (process_keywords KMeans_fit TfidfVectorizer_fit_transform json_loads
     utcnow_strftime self).

Lemma filter_none {A : Type} (f : A -> bool) (l : list A) :
  (forall x, In x l -> f x = false) -> filter f l = [].
Proof.
  induction l as [|x l IH]; simpl; intros H; [reflexivity|].
  rewrite (H x (or_introl eq_refl)). apply IH. intros y Hy. apply H. now right.
Qed.

(** X6. When no row of the store is in scope (no keyword of the
    organisation and project, or all of them already clustered), a run
    reports zero clusters and zero keywords, raises nothing, calls neither
    the vectoriser nor k-means, and leaves the store as it was. *)
Theorem process_nothing_to_do (db : DB) (org_id : string)
    (project_id : option string) (now : string) :
  (forall r, In r (keywords_table db) -> fetch_where org_id project_id r = false) ->
  process db org_id project_id now = (db, Ok (Summary.mk 0 0 [])).
Proof.
  intros Hnone. unfold process_keywords, get_keywords_for_clustering.
  rewrite (filter_none _ _ Hnone). reflexivity.
Qed.

(** X7. A run that returns a summary.  The summary agrees with the store:
    [clusters_created] counts the clusters of the summary and the cluster
    rows added, whose ids are the summary's in order; [keywords_processed]
    counts the rows in scope; no keyword row is added or removed, and the
    rows of other organisations are untouched.  (Nothing is said of a run
    that raises.) *)
Theorem process_keywords_summary (db db' : DB) (org_id : string)
    (project_id : option string) (now : string) (s : Summary.t) :
  process db org_id project_id now = (db', Ok s) ->
  Summary.clusters_created s = length (Summary.clusters s) /\
  Summary.keywords_processed s
    = length (filter (fetch_where org_id project_id) (keywords_table db)) /\
  map ClusterRow.id (clusters_table db')
    = map ClusterRow.id (clusters_table db)
      ++ map Summary.id (Summary.clusters s) /\
  length (clusters_table db')
    = (length (clusters_table db) + Summary.clusters_created s)%nat /\
  length (keywords_table db') = length (keywords_table db) /\
  (forall i r, nth_error (keywords_table db) i = Some r ->
               KeywordRow.org_id r <> org_id ->
               nth_error (keywords_table db') i = Some r).
Proof.
  unfold process_keywords.
  destruct (get_keywords_for_clustering json_loads db org_id project_id)
    as [kws|e] eqn:Hfetch; [|intros H; discriminate].
  assert (Hcount : length kws
            = length (filter (fetch_where org_id project_id) (keywords_table db))).
  { unfold get_keywords_for_clustering in Hfetch.
    rewrite (mapM_Ok_length _ _ _ Hfetch).
    apply Permutation_length, sort_desc_perm. }
  destruct kws as [|kw rest].
  { intros H; inversion H; subst. simpl. rewrite app_nil_r.
    repeat split; auto. }
  destruct (embeddings <- create_embeddings TfidfVectorizer_fit_transform
                            (map Keyword.term (kw :: rest)) ;;
            cluster_keywords KMeans_fit utcnow_strftime self (kw :: rest) embeddings)
    as [clusters|e]; [|intros H; discriminate].
  destruct (save_clusters clusters org_id project_id now db) as [db1 ids] eqn:Hsave.
  intros H; inversion H; subst; clear H.
  assert (Hdb1 : db' = fst (save_clusters clusters org_id project_id now db))
    by (now rewrite Hsave).
  unfold save_clusters in Hdb1.
  destruct (save_clusters_fold clusters org_id project_id now db []) as (_ & Hc & _).
  pose proof (save_clusters_rows clusters org_id project_id now db []) as Hk.
  cbv zeta in Hc. rewrite <- Hdb1 in Hc, Hk.
  cbn [Summary.clusters_created Summary.keywords_processed Summary.clusters].
  split; [now rewrite length_map|]. split; [exact Hcount|].
  split; [|split; [|split]].
  - rewrite Hc, map_app, !map_map. reflexivity.
  - rewrite Hc, length_app, length_map. reflexivity.
  - rewrite Hk, length_map. reflexivity.
  - intros i r Hi Horg. rewrite Hk, nth_error_map, Hi. simpl. f_equal.
    unfold RunSpec.saved_row.
    destruct (String.eqb_spec (KeywordRow.org_id r) org_id); [contradiction|reflexivity].
Qed.

End ProcessKeywords.

Lemma process_nothing_to_do_witness :
  process_keywords Sample.kmeans_fit Sample.tfidf Sample.json_loads Sample.clock
    ClusterWorker.init
    (mkDB (map (set_cluster "c0" "t0") (keywords_table Sample.db)) [])
    "org" None "now"
  = (mkDB (map (set_cluster "c0" "t0") (keywords_table Sample.db)) [],
     Ok (Summary.mk 0 0 [])).
Proof.
  apply (process_nothing_to_do Sample.kmeans_fit Sample.tfidf Sample.json_loads
           Sample.clock ClusterWorker.init).
  intros r Hr. apply in_map_iff in Hr. destruct Hr as (r0 & <- & _).
  unfold fetch_where. simpl. now rewrite andb_false_r.
Defined.

Lemma process_keywords_summary_witness :
  exists db' s,
    process_keywords Sample.kmeans_fit Sample.tfidf Sample.json_loads Sample.clock
      ClusterWorker.init Sample.db "org" (Some "p1"%string) "now" = (db', Ok s) /\
    Summary.clusters_created s = length (Summary.clusters s) /\
    Summary.keywords_processed s
      = length (filter (fetch_where "org" (Some "p1"%string))
                  (keywords_table Sample.db)) /\
    map ClusterRow.id (clusters_table db')
      = map ClusterRow.id (clusters_table Sample.db)
        ++ map Summary.id (Summary.clusters s) /\
    length (clusters_table db')
      = (length (clusters_table Sample.db) + Summary.clusters_created s)%nat /\
    length (keywords_table db') = length (keywords_table Sample.db) /\
    (forall i r, nth_error (keywords_table Sample.db) i = Some r ->
                 KeywordRow.org_id r <> "org"%string ->
                 nth_error (keywords_table db') i = Some r).
Proof.
  set (res := process_keywords Sample.kmeans_fit Sample.tfidf Sample.json_loads
                Sample.clock ClusterWorker.init Sample.db "org"
                (Some "p1"%string) "now").
  assert (Hs : exists s, snd res = Ok s) by (vm_compute; eexists; reflexivity).
  destruct Hs as (s & Hs).
  assert (Hres : res = (fst res, Ok s)).
  { rewrite <- Hs. apply surjective_pairing. }
  exists (fst res), s. split; [exact Hres|].
  exact (process_keywords_summary Sample.kmeans_fit Sample.tfidf
           Sample.json_loads Sample.clock ClusterWorker.init
           Sample.db (fst res) "org" (Some "p1"%string) "now" s Hres).
Defined.

(* ------------------------------------------------------------------ *)
(** ** The scope of the keywords a run assigns *)






Section RunScope.

Variable KMeans_fit : Z -> Z -> Z -> list (list Q) -> result KMeans.t.
Variable TfidfVectorizer_fit_transform : list string -> result (list (list Q)).
Variable json_loads : string -> result json.
Variable utcnow_strftime : Z -> string.
Variable self : ClusterWorker.t.

#[local] Abbreviation process :=
  (process_keywords KMeans_fit TfidfVectorizer_fit_transform json_loads
     utcnow_strftime self).


End RunScope.


(* ------------------------------------------------------------------ *)
(** ** Which cluster count is selected *)

Lemma find_elbow_point_index (k_values : list Z) (inertias : list float) (k : Z) :
  (3 <= length inertias)%nat ->
  _find_elbow_point k_values inertias = Ok k ->
  exists idx, (1 <= idx <= length inertias - 2)%nat /\
              nth_error k_values idx = Some k.
Proof.
  intros Hlen. unfold _find_elbow_point.
  replace (length inertias <? 3)%nat with false by (symmetry; apply Nat.ltb_ge; exact Hlen).
  destruct (np_argmin_total (np_diff (np_diff inertias))) as (a & Ha & Hbound).
  { intros Hnil. apply (f_equal (@length float)) in Hnil.
    rewrite !np_diff_length in Hnil. simpl in Hnil. lia. }
  rewrite !np_diff_length in Hbound. rewrite Ha. simpl. intros Hget.
  apply py_getitem_Ok in Hget. exists (a + 1)%nat. split; [lia|exact Hget].
Qed.

Lemma find_elbow_point_raises (k_values : list Z) (inertias : list float) (e : exn) :
  _find_elbow_point k_values inertias = Raise e ->
  e = IndexError /\ (3 <= length inertias)%nat /\
  (length k_values + 1 < length inertias)%nat.
Proof.
  unfold _find_elbow_point.
  destruct (Nat.ltb_spec (length inertias) 3) as [Hlt|Hge].
  { destruct k_values; discriminate. }
  destruct (np_argmin_total (np_diff (np_diff inertias))) as (a & Ha & Hbound).
  { intros Hnil. apply (f_equal (@length float)) in Hnil.
    rewrite !np_diff_length in Hnil. simpl in Hnil. lia. }
  rewrite !np_diff_length in Hbound. rewrite Ha. simpl. unfold py_getitem.
  destruct (nth_error k_values (a + 1)) eqn:Hn; [discriminate|].
  intros H; inversion H. apply nth_error_None in Hn. repeat split; lia.
Qed.

(** X8. How [_find_elbow_point] fails and what it picks. Its only failure
    is an [IndexError], and only with at least three inertia samples and at
    least two candidates fewer than samples. Otherwise it returns one of the
    candidates (2 when there is none); with at least three samples the
    candidate is read at a position from 1 to [len(inertias) - 2], so neither
    the first candidate nor one at or beyond the last sample's position. *)
Theorem find_elbow_point_failure (k_values : list Z) (inertias : list float) :
  (forall e, _find_elbow_point k_values inertias = Raise e ->
     e = IndexError /\ (3 <= length inertias)%nat /\
     (length k_values + 1 < length inertias)%nat) /\
  ((length inertias <= length k_values + 1)%nat ->
     exists k, _find_elbow_point k_values inertias = Ok k) /\
  (forall k, _find_elbow_point k_values inertias = Ok k ->
     (In k k_values \/ (k_values = [] /\ k = 2%Z)) /\
     ((3 <= length inertias)%nat ->
        exists idx, (1 <= idx <= length inertias - 2)%nat /\
                    nth_error k_values idx = Some k)).
Proof.
  split; [intros e; apply find_elbow_point_raises|]. split.
  - intros Hlen.
    destruct (_find_elbow_point k_values inertias) as [k|e] eqn:Hf; [eauto|].
    apply find_elbow_point_raises in Hf. lia.
  - intros k Hk. split.
    + destruct (Nat.lt_ge_cases (length inertias) 3) as [Hlt|Hge].
      * unfold _find_elbow_point in Hk. apply Nat.ltb_lt in Hlt. rewrite Hlt in Hk.
        destruct k_values as [|k0 r]; inversion Hk; subst.
        -- right; auto.
        -- left; left; reflexivity.
      * destruct (find_elbow_point_index _ _ _ Hge Hk) as (idx & _ & Hn).
        left. eapply nth_error_In; eauto.
    + intros Hge. now apply find_elbow_point_index.
Qed.

Lemma find_elbow_point_failure_witness :
  _find_elbow_point [2; 3]%Z [10; 4; 3; 2.5]%float = Raise IndexError /\
  (exists k, _find_elbow_point [2; 3; 4]%Z [10; 4; 3; 2.5]%float = Ok k /\
             exists idx, (1 <= idx <= 2)%nat /\
                         nth_error [2; 3; 4]%Z idx = Some k).
Proof.
  pose proof (find_elbow_point_failure [2; 3; 4]%Z [10; 4; 3; 2.5]%float)
    as (_ & Hret & Hpick).
  split; [reflexivity|].
  destruct Hret as (k & Hk); [simpl; lia|].
  exists k. split; [exact Hk|].
  apply (proj2 (Hpick k Hk)). simpl; lia.
Defined.

Lemma py_range_nth_error (lo hi : Z) (i : nat) (k : Z) :
  nth_error (py_range lo hi) i = Some k ->
  k = (lo + Z.of_nat i)%Z /\ (lo + Z.of_nat i < hi)%Z.
Proof.
  unfold py_range. rewrite nth_error_map. intros H.
  destruct (nth_error (seq 0 (Z.to_nat (hi - lo))) i) as [j|] eqn:Hj; [|discriminate].
  simpl in H. inversion H; subst. pose proof Hj as Hj'.
  assert (Hlt : (i < length (seq 0 (Z.to_nat (hi - lo))))%nat).
  { apply nth_error_Some; congruence. }
  rewrite length_seq in Hlt.
  rewrite nth_error_seq in Hj.
  replace (i <? Z.to_nat (hi - lo))%nat with true in Hj
    by (symmetry; apply Nat.ltb_lt; exact Hlt).
  inversion Hj; subst. simpl. split; lia.
Qed.

Lemma py_range_length (lo hi : Z) : length (py_range lo hi) = Z.to_nat (hi - lo).
Proof. unfold py_range. now rewrite length_map, length_seq. Qed.

(** X9. The cluster count chosen by [cluster_keywords], when the fits
    succeed: with [m = max(2, min(max_clusters, n // min_cluster_size))] the
    largest candidate, the count lies between 2 and [m]; it is 2 whenever
    [m <= 3] (under the default parameters: fewer than 12 keywords), and from
    [m = 4] on it is neither the smallest nor the largest candidate. *)
Theorem select_k_bounds (KMeans_fit : Z -> Z -> Z -> list (list Q) -> result KMeans.t)
    (self : ClusterWorker.t) (n : Z) (embeddings : list (list Q)) (k : Z) :
  select_k KMeans_fit self n embeddings = Ok k ->
  (2 <= k <= RunSpec.max_k self n)%Z /\
  ((RunSpec.max_k self n <= 3)%Z -> k = 2%Z) /\
  ((4 <= RunSpec.max_k self n)%Z -> (3 <= k <= RunSpec.max_k self n - 1)%Z).
Proof.
  unfold select_k, py_floordiv, RunSpec.max_k.
  destruct (Z.eqb_spec (ClusterWorker.min_cluster_size self) 0) as [|_];
    [discriminate|].
  simpl bind.
  set (q := Z.min (ClusterWorker.max_clusters self)
              (n / ClusterWorker.min_cluster_size self)).
  replace (if (q <? 2)%Z then 2%Z else q) with (Z.max 2 q)
    by (destruct (Z.ltb_spec q 2); lia).
  set (m := Z.max 2 q). assert (Hm : (2 <= m)%Z) by (subst m; lia).
  intros H. bind_inv H. rename a into inertias.
  assert (Hlen : length inertias = Z.to_nat (m - 1)).
  { rewrite (mapM_Ok_length _ _ _ Hm0), py_range_length. f_equal. lia. }
  destruct (Nat.lt_ge_cases (length inertias) 3) as [Hlt|Hge].
  - assert (Hk : k = 2%Z).
    { unfold _find_elbow_point in H. apply Nat.ltb_lt in Hlt. rewrite Hlt in H.
      destruct (py_range 2 (m + 1)) as [|k0 r] eqn:Hr; [inversion H; reflexivity|].
      inversion H; subst k0.
      assert (Hn : nth_error (py_range 2 (m + 1)) 0 = Some k) by (now rewrite Hr).
      apply py_range_nth_error in Hn. lia. }
    subst k. repeat split; try lia.
  - destruct (find_elbow_point_index _ _ _ Hge H) as (idx & Hidx & Hn).
    apply py_range_nth_error in Hn. destruct Hn as [-> _].
    repeat split; lia.
Qed.

Lemma select_k_bounds_witness :
  exists k,
    select_k Sample.kmeans_fit ClusterWorker.init 4 Sample.embeddings = Ok k /\
    (2 <= k <= RunSpec.max_k ClusterWorker.init 4)%Z /\
    k = 2%Z.
Proof.
  eexists. split; [reflexivity|].
  destruct (select_k_bounds Sample.kmeans_fit ClusterWorker.init 4
              Sample.embeddings 2 eq_refl) as (H1 & H2 & _).
  split; [exact H1|]. apply H2. vm_compute. discriminate.
Defined.

(* ------------------------------------------------------------------ *)
(** ** The fields of a returned cluster *)

Lemma uint_string_no_underscore (d : Decimal.uint) :
  RunSpec.has_char "_" (NilEmpty.string_of_uint d) = false.
Proof. induction d; simpl; auto. Qed.

Lemma py_str_int_no_underscore (i : Z) : RunSpec.has_char "_" (py_str_int i) = false.
Proof.
  unfold py_str_int, NilZero.string_of_int, NilZero.string_of_uint.
  destruct (Z.to_int i) as [d|d]; destruct d; simpl;
    try reflexivity; apply uint_string_no_underscore.
Qed.

Lemma py_str_int_inj (i j : Z) : py_str_int i = py_str_int j -> i = j.
Proof.
  unfold py_str_int. intros H. apply DecimalZ.to_int_inj.
  assert (Hnn : forall z, Z.to_int z <> Decimal.Pos Decimal.Nil /\
                          Z.to_int z <> Decimal.Neg Decimal.Nil).
  { intros [|p|p]; simpl; split; try discriminate; intros E; inversion E as [E'];
      now apply DecimalPos.Unsigned.to_uint_nonnil in E'. }
  destruct (Hnn i) as [Hi1 Hi2]. destruct (Hnn j) as [Hj1 Hj2].
  pose proof (NilZero.isi (Z.to_int i) Hi1 Hi2) as Ei.
  pose proof (NilZero.isi (Z.to_int j) Hj1 Hj2) as Ej.
  rewrite H in Ei. congruence.
Qed.

Lemma separator_splits (a b x y : string) :
  RunSpec.has_char "_" a = false -> RunSpec.has_char "_" b = false ->
  (a ++ String "_" x)%string = (b ++ String "_" y)%string -> a = b.
Proof.
  revert b. induction a as [|c a IH]; intros [|d b] Ha Hb H; simpl in *.
  - reflexivity.
  - inversion H; subst d. simpl in Hb. discriminate.
  - inversion H; subst c. simpl in Ha. discriminate.
  - inversion H; subst d. f_equal.
    apply orb_false_iff in Ha, Hb. apply IH; tauto.
Qed.

Lemma cluster_id_inj (i j : Z) (t t' : string) :
  ("cluster_" ++ py_str_int i ++ "_" ++ t)%string
  = ("cluster_" ++ py_str_int j ++ "_" ++ t')%string -> i = j.
Proof.
  intros H. apply py_str_int_inj.
  assert (H' : (py_str_int i ++ String "_" t)%string
               = (py_str_int j ++ String "_" t')%string).
  { simpl in H. now inversion H. }
  eapply separator_splits; eauto using py_str_int_no_underscore.
Qed.

Lemma generate_cluster_name_terms (g g' : list Keyword.t) :
  map Keyword.term g = map Keyword.term g' ->
  _generate_cluster_name g = _generate_cluster_name g'.
Proof. unfold _generate_cluster_name. now intros ->. Qed.

Lemma generate_cluster_description_terms (g g' : list Keyword.t) :
  map Keyword.term g = map Keyword.term g' ->
  _generate_cluster_description g = _generate_cluster_description g'.
Proof. unfold _generate_cluster_description. now intros ->. Qed.

Lemma Forall2_NoDup_map {A B C : Type} (R : A -> B -> Prop) (f : B -> C)
    (l : list A) (r : list B) :
  (forall a b a' b', R a b -> R a' b' -> f b = f b' -> a = a') ->
  Forall2 R l r -> NoDup l -> NoDup (map f r).
Proof.
  intros Hinj H. induction H as [|a b l r Hab Hrest IH]; intros Hnd; simpl.
  - constructor.
  - inversion Hnd as [|? ? Hnotin Hnd']; subst. constructor; [|auto].
    intros Hin. apply in_map_iff in Hin. destruct Hin as (b' & Hf & Hb').
    destruct (Forall2_In_r _ _ _ _ Hrest Hb') as (a' & Ha' & Hab').
    assert (a = a') by (eapply Hinj; eauto). subst a'. contradiction.
Qed.

Section ClusterFields.

Variable KMeans_fit : Z -> Z -> Z -> list (list Q) -> result KMeans.t.
Variable utcnow_strftime : Z -> string.
Variable self : ClusterWorker.t.

#[local] Abbreviation run := (cluster_keywords KMeans_fit utcnow_strftime self).

Lemma make_cluster_fields keywords embeddings kmeans i c :
  make_cluster utcnow_strftime self keywords embeddings kmeans i = Ok (Some c) ->
  exists g,
    Forall2 (fun j kw => nth_error keywords j = Some kw)
      (np_where_eq (KMeans.labels_ kmeans) i) g /\
    KeywordCluster.id c
      = ("cluster_" ++ py_str_int i ++ "_" ++ utcnow_strftime i)%string /\
    _generate_cluster_name g = Ok (KeywordCluster.name c) /\
    KeywordCluster.description c = _generate_cluster_description g /\
    KeywordCluster.keywords c = map Keyword.term g /\
    KeywordCluster.size c = length g /\
    KeywordCluster.embedding c = None /\
    KeywordCluster.centroid c
      = nth_error (KMeans.cluster_centers_ kmeans) (Z.to_nat i).
Proof.
  unfold make_cluster. destruct (_ <=? _)%Z; [|discriminate]. intros H.
  bind_inv H. rename a into g. bind_inv H. bind_inv H. bind_inv H.
  inversion H; subst; clear H. exists g. simpl.
  split; [now apply mapM_getitem_Forall2|].
  split; [reflexivity|]. split; [exact Hm1|].
  repeat (split; [reflexivity|]).
  symmetry. now apply py_getitem_Ok.
Qed.

Lemma run_clusters_made keywords embeddings cs :
  run keywords embeddings = Ok cs ->
  cs = [] \/
  exists k kmeans,
    select_k KMeans_fit self (Z.of_nat (length keywords)) embeddings = Ok k /\
    KMeans_fit k 42%Z 10%Z embeddings = Ok kmeans /\
    Forall2
      (fun i c => make_cluster utcnow_strftime self keywords embeddings kmeans i
                  = Ok (Some c))
      (filter (ClusterSpec.big_enough (ClusterWorker.min_cluster_size self)
                 (KMeans.labels_ kmeans)) (py_range 0 k))
      cs.
Proof.
  intros Hrun.
  destruct (cluster_keywords_inv _ _ _ _ _ _ Hrun)
    as [[_ ->]|(_ & k & km & Hk & Hfit & Hc)]; [left; reflexivity|right].
  exists k, km. split; [exact Hk|]. split; [exact Hfit|].
  now apply collect_clusters_spec.
Qed.

(** X10. The ids of the clusters of one run are pairwise distinct,
    whatever the clock reads: each is ["cluster_<i>_<timestamp>"] for the
    k-means label [i] of the cluster, and no two returned clusters share a
    label. *)
Theorem cluster_ids_distinct (keywords : list Keyword.t)
    (embeddings : list (list Q)) (cs : list KeywordCluster.t) :
  run keywords embeddings = Ok cs ->
  NoDup (map KeywordCluster.id cs) /\
  (forall c, In c cs ->
     exists i, (0 <= i)%Z /\
       KeywordCluster.id c
       = ("cluster_" ++ py_str_int i ++ "_" ++ utcnow_strftime i)%string).
Proof.
  intros Hrun.
  destruct (run_clusters_made _ _ _ Hrun) as [->|(k & km & _ & _ & Hmade)].
  { split; [constructor|intros c []]. }
  split.
  - eapply Forall2_NoDup_map; [|exact Hmade|apply NoDup_filter, py_range_NoDup].
    intros i c i' c' Hc Hc' Hid.
    apply make_cluster_fields in Hc, Hc'.
    destruct Hc as (_ & _ & Hi & _). destruct Hc' as (_ & _ & Hi' & _).
    rewrite Hi, Hi' in Hid. eapply cluster_id_inj; eauto.
  - intros c Hc.
    destruct (Forall2_In_r _ _ _ _ Hmade Hc) as (i & Hi & Hmk).
    apply filter_In in Hi. destruct Hi as [Hi _]. apply py_range_In in Hi.
    apply make_cluster_fields in Hmk. destruct Hmk as (_ & _ & Hid & _).
    exists i. split; [lia|exact Hid].
Qed.

(** X11. The name, description and size of a returned cluster are those
    of its member terms: recomputed from any keywords that carry the terms of
    the cluster's [keywords] field, [_generate_cluster_name] and
    [_generate_cluster_description] give the cluster's name and description,
    and there are [size] of them; [embedding] is left unset and [centroid]
    is set. *)
Theorem cluster_fields_from_terms (keywords : list Keyword.t)
    (embeddings : list (list Q)) (cs : list KeywordCluster.t)
    (c : KeywordCluster.t) (g' : list Keyword.t) :
  run keywords embeddings = Ok cs ->
  In c cs ->
  map Keyword.term g' = KeywordCluster.keywords c ->
  _generate_cluster_name g' = Ok (KeywordCluster.name c) /\
  _generate_cluster_description g' = KeywordCluster.description c /\
  length g' = KeywordCluster.size c /\
  KeywordCluster.embedding c = None /\
  KeywordCluster.centroid c <> None.
Proof.
  intros Hrun Hc Hterms.
  destruct (run_clusters_made _ _ _ Hrun) as [->|(k & km & _ & _ & Hmade)];
    [contradiction|].
  destruct (Forall2_In_r _ _ _ _ Hmade Hc) as (i & _ & Hmk).
  pose proof Hmk as Hmk'. unfold make_cluster in Hmk'.
  apply make_cluster_fields in Hmk.
  destruct Hmk as (g & _ & _ & Hname & Hdesc & Hkw & Hsize & Hemb & Hctr).
  rewrite Hkw in Hterms.
  split; [now rewrite (generate_cluster_name_terms g' g Hterms)|].
  split; [now rewrite (generate_cluster_description_terms g' g Hterms)|].
  split.
  { rewrite Hsize. apply (f_equal (@length string)) in Hterms.
    now rewrite !length_map in Hterms. }
  split; [exact Hemb|].
  rewrite Hctr. destruct (_ <=? _)%Z; [|discriminate].
  repeat bind_inv Hmk'. apply py_getitem_Ok in Hm2. congruence.
Qed.

End ClusterFields.

Lemma cluster_ids_distinct_witness :
  exists cs,
    cluster_keywords Sample.kmeans_fit Sample.clock ClusterWorker.init
      Sample.keywords Sample.embeddings = Ok cs /\
    length cs = 1%nat /\
    NoDup (map KeywordCluster.id cs) /\
    (forall c, In c cs ->
       exists i, (0 <= i)%Z /\
         KeywordCluster.id c
         = ("cluster_" ++ py_str_int i ++ "_" ++ Sample.clock i)%string).
Proof.
  eexists. split; [exact sample_run|]. split; [reflexivity|].
  exact (cluster_ids_distinct Sample.kmeans_fit Sample.clock ClusterWorker.init
           Sample.keywords Sample.embeddings _ sample_run).
Defined.

Lemma cluster_fields_from_terms_witness :
  exists c,
    cluster_keywords Sample.kmeans_fit Sample.clock ClusterWorker.init
      Sample.keywords Sample.embeddings = Ok [c] /\
    let g' := map RunSpec.bare_keyword (KeywordCluster.keywords c) in
    _generate_cluster_name g' = Ok (KeywordCluster.name c) /\
    _generate_cluster_description g' = KeywordCluster.description c /\
    length g' = KeywordCluster.size c /\
    KeywordCluster.embedding c = None /\
    KeywordCluster.centroid c <> None.
Proof.
  eexists. split; [exact sample_run|]. cbv zeta.
  apply (cluster_fields_from_terms Sample.kmeans_fit Sample.clock ClusterWorker.init
           Sample.keywords Sample.embeddings _ _ _ sample_run (or_introl eq_refl)).
  reflexivity.
Defined.

(* ------------------------------------------------------------------ *)
(** ** How many clusters, how many members *)

Lemma groups_disjoint_NoDup (labels : list Z) (L : list Z) :
  NoDup L -> NoDup (flat_map (np_where_eq labels) L).
Proof.
  induction 1 as [|a L Ha _ IH]; simpl; [constructor|].
  apply NoDup_app; [apply where_from_NoDup|exact IH|].
  intros j Hj Hin. apply in_flat_map in Hin. destruct Hin as (b & Hb & Hjb).
  apply np_where_eq_In in Hj, Hjb. assert (a = b) by congruence. subst b.
  contradiction.
Qed.

Lemma select_k_le_max (KMeans_fit : Z -> Z -> Z -> list (list Q) -> result KMeans.t)
    (self : ClusterWorker.t) (n : Z) (embeddings : list (list Q)) (k : Z) :
  select_k KMeans_fit self n embeddings = Ok k -> (k <= RunSpec.max_k self n)%Z.
Proof.
  unfold select_k, py_floordiv, RunSpec.max_k.
  destruct (Z.eqb_spec (ClusterWorker.min_cluster_size self) 0) as [|_];
    [discriminate|].
  simpl bind.
  set (q := Z.min (ClusterWorker.max_clusters self)
              (n / ClusterWorker.min_cluster_size self)).
  replace (if (q <? 2)%Z then 2%Z else q) with (Z.max 2 q)
    by (destruct (Z.ltb_spec q 2); lia).
  intros H. bind_inv H.
  destruct (find_elbow_point_returns (py_range 2 (Z.max 2 q + 1)) a) as (k' & Hk' & Hin).
  { symmetry. eapply mapM_Ok_length; eauto. }
  rewrite H in Hk'. inversion Hk'; subst k'.
  destruct Hin as [Hin|[_ ->]]; [|lia]. apply py_range_In in Hin. lia.
Qed.

Section ClusterCount.

Variable KMeans_fit : Z -> Z -> Z -> list (list Q) -> result KMeans.t.
Variable utcnow_strftime : Z -> string.
Variable self : ClusterWorker.t.

#[local] Abbreviation min_size := (ClusterWorker.min_cluster_size self).

Lemma made_sizes keywords embeddings kmeans L cs :
  Forall2
    (fun i c => make_cluster utcnow_strftime self keywords embeddings kmeans i
                = Ok (Some c)) L cs ->
  RunSpec.total_size cs = length (flat_map (np_where_eq (KMeans.labels_ kmeans)) L) /\
  (forall j, In j (flat_map (np_where_eq (KMeans.labels_ kmeans)) L) ->
             (j < length keywords)%nat) /\
  (Z.of_nat (length cs) * min_size <= Z.of_nat (RunSpec.total_size cs)
   \/ min_size <= 0)%Z.
Proof.
  unfold RunSpec.total_size.
  induction 1 as [|i c L cs Hic _ IH]; cbn -[Z.mul Z.of_nat].
  - split; [reflexivity|]. split; [intros j []|]. left; lia.
  - destruct IH as (Hsum & Hlt & Hmin).
    destruct (make_cluster_Some _ _ _ _ _ _ _ Hic) as (Hbig & g & _ & Hg & _ & Hsize & _).
    pose proof (Forall2_length Hg) as Hlen.
    rewrite length_app, <- Hsum, Hsize, Hlen. split; [reflexivity|]. split.
    + intros j Hj. apply in_app_or in Hj. destruct Hj as [Hj|Hj]; [|auto].
      destruct (Forall2_In_l _ _ _ _ Hg Hj) as (kw & _ & Hnth).
      apply nth_error_Some. congruence.
    + unfold ClusterSpec.big_enough in Hbig. apply Z.leb_le in Hbig.
      rewrite <- np_where_eq_length, Hlen in Hbig.
      destruct Hmin as [Hmin|Hmin]; [left|right; exact Hmin].
      unfold list_sum in Hmin. lia.
Qed.

(** X12. How much a run can return. The member counts of the returned
    clusters add up to at most the number of input keywords; there are at
    most [n // min_cluster_size] clusters in the sense that the number of
    clusters times the minimum size is at most [n]; and the number of
    clusters is at most the largest candidate count
    [max(2, min(max_clusters, n // min_cluster_size))]. *)
Theorem cluster_count_and_size (keywords : list Keyword.t)
    (embeddings : list (list Q)) (cs : list KeywordCluster.t) :
  cluster_keywords KMeans_fit utcnow_strftime self keywords embeddings = Ok cs ->
  (RunSpec.total_size cs <= length keywords)%nat /\
  (Z.of_nat (length cs) * min_size <= Z.of_nat (length keywords))%Z /\
  (Z.of_nat (length cs) <= RunSpec.max_k self (Z.of_nat (length keywords)))%Z.
Proof.
  intros Hrun.
  destruct (cluster_keywords_inv _ _ _ _ _ _ Hrun)
    as [[Hlt ->]|(Hn & k & km & Hk & Hfit & Hc)].
  { unfold RunSpec.total_size, RunSpec.max_k. simpl. repeat split; lia. }
  apply collect_clusters_spec in Hc.
  destruct (made_sizes _ _ _ _ _ Hc) as (Hsum & Hlt & Hmin).
  assert (Htotal : (RunSpec.total_size cs <= length keywords)%nat).
  { rewrite Hsum.
    replace (length keywords) with (length (seq 0 (length keywords)))
      by apply length_seq.
    apply NoDup_incl_length.
    - apply groups_disjoint_NoDup, NoDup_filter, py_range_NoDup.
    - intros j Hj. apply in_seq. specialize (Hlt j Hj). lia. }
  split; [exact Htotal|]. split.
  - destruct Hmin as [Hmin|Hmin]; [lia|]. nia.
  - pose proof (select_k_le_max _ _ _ _ _ Hk) as Hkm.
    pose proof (Forall2_length Hc) as Hlen. rewrite <- Hlen.
    pose proof (filter_length_le
                  (ClusterSpec.big_enough min_size (KMeans.labels_ km))
                  (py_range 0 k)) as Hf.
    rewrite py_range_length in Hf. unfold RunSpec.max_k in *. lia.
Qed.

End ClusterCount.

Lemma cluster_count_and_size_witness :
  exists cs,
    cluster_keywords Sample.kmeans_fit Sample.clock ClusterWorker.init
      Sample.keywords Sample.embeddings = Ok cs /\
    RunSpec.total_size cs = 3%nat /\
    (RunSpec.total_size cs <= length Sample.keywords)%nat /\
    (Z.of_nat (length cs) * 3 <= Z.of_nat (length Sample.keywords))%Z /\
    (Z.of_nat (length cs)
     <= RunSpec.max_k ClusterWorker.init (Z.of_nat (length Sample.keywords)))%Z.
Proof.
  eexists. split; [exact sample_run|]. split; [reflexivity|].
  exact (cluster_count_and_size Sample.kmeans_fit Sample.clock ClusterWorker.init
           Sample.keywords Sample.embeddings _ sample_run).
Defined.

Lemma cluster_keywords_returns_witness :
  Sample.strict_kmeans_fit 5 42 10 Sample.embeddings
  = Raise (ExternalError "n_samples should be >= n_clusters") /\
  exists cs,
    cluster_keywords Sample.strict_kmeans_fit Sample.clock ClusterWorker.init
      Sample.keywords Sample.embeddings = Ok cs.
Proof.
  split; [reflexivity|].
  apply (cluster_keywords_returns Sample.strict_kmeans_fit Sample.clock
           ClusterWorker.init Sample.keywords Sample.embeddings).
  - simpl; lia.
  - simpl; lia.
  - reflexivity.
  - intros k Hk. unfold Sample.strict_kmeans_fit.
    destruct (Z.ltb_spec (Z.of_nat (length Sample.embeddings)) k) as [Hlt|_]; [lia|].
    unfold Sample.kmeans_fit. eexists. split; [reflexivity|].
    cbn [KMeans.labels_ KMeans.cluster_centers_]. split.
    + apply length_map.
    + rewrite length_map, py_range_length. f_equal. lia.
Defined.

Lemma save_clusters_org_scoped_witness :
  let cluster :=
    KeywordCluster.mk "c1" "Cluster: running shoes" "d"
      ["best running shoes"; "running shoes men"; "trail running shoes"]%string
      None None 3 0 0 0 in
  let db' := fst (save_clusters [cluster] "org" (Some "p1"%string) "now" Sample.db) in
  clusters_table db'
    = [StoreSpec.cluster_row "org" (Some "p1"%string) "now" cluster] /\
  Forall2
    (fun r r' =>
       r' <> r ->
       KeywordRow.org_id r' = "org"%string /\
       KeywordRow.project_id r' = KeywordRow.project_id r /\
       exists c, In c [cluster] /\
         KeywordRow.cluster_id r' = Some (KeywordCluster.id c))
    (keywords_table Sample.db) (keywords_table db').
Proof.
  cbv zeta.
  exact (save_clusters_org_scoped
           [KeywordCluster.mk "c1" "Cluster: running shoes" "d"
              ["best running shoes"; "running shoes men"; "trail running shoes"]%string
              None None 3 0 0 0]
           "org" (Some "p1"%string) "now" Sample.db).
Defined.

(* ------------------------------------------------------------------ *)
(** ** The word counts, exactly *)

Lemma distinct_in_order_In (l : list string) (w : string) :
  In w (RunSpec.distinct_in_order l) <-> In w l.
Proof.
  induction l as [|x r IH]; simpl; [tauto|].
  rewrite filter_In, IH.
  destruct (String.eqb_spec w x) as [->|Hne]; simpl.
  - intuition.
  - split; [intros [->|[H _]]; auto|].
    intros [->|H]; [congruence|auto].
Qed.

Lemma distinct_in_order_NoDup (l : list string) : NoDup (RunSpec.distinct_in_order l).
Proof.
  induction l as [|x r IH]; simpl; constructor.
  - rewrite filter_In. intros [_ H]. now rewrite String.eqb_refl in H.
  - now apply NoDup_filter.
Qed.

Lemma distinct_in_order_snoc (l : list string) (w : string) :
  RunSpec.distinct_in_order (l ++ [w])
  = if in_dec string_dec w l then RunSpec.distinct_in_order l
    else RunSpec.distinct_in_order l ++ [w].
Proof.
  induction l as [|x r IH]; simpl; [reflexivity|].
  rewrite IH.
  destruct (string_dec x w) as [->|Hne].
  - destruct (in_dec string_dec w r) as [Hin|Hnot]; [reflexivity|].
    rewrite filter_app. simpl. rewrite String.eqb_refl. simpl.
    now rewrite app_nil_r.
  - destruct (in_dec string_dec w r) as [Hin|Hnot]; [reflexivity|].
    rewrite filter_app. simpl.
    destruct (String.eqb_spec w x) as [->|_]; [congruence|reflexivity].
Qed.

Lemma dict_get_keyed (v : string -> Z) (ks : list string) (w : string) :
  dict_get (map (fun k => (k, v k)) ks) w 0%Z
  = if in_dec string_dec w ks then v w else 0%Z.
Proof.
  induction ks as [|k r IH]; simpl; [reflexivity|].
  destruct (String.eqb_spec k w) as [->|Hne].
  - destruct (string_dec w w); [|congruence].
    reflexivity.
  - rewrite IH. destruct (string_dec k w); [congruence|].
    destruct (in_dec string_dec w r); reflexivity.
Qed.

Lemma dict_set_keyed (v : string -> Z) (ks : list string) (w : string) (x : Z) :
  NoDup ks ->
  dict_set (map (fun k => (k, v k)) ks) w x
  = if in_dec string_dec w ks
    then map (fun k => (k, if String.eqb k w then x else v k)) ks
    else map (fun k => (k, v k)) ks ++ [(w, x)].
Proof.
  induction 1 as [|k r Hk Hnd IH]; simpl; [reflexivity|].
  destruct (String.eqb_spec k w) as [->|Hne].
  - destruct (string_dec w w); [|congruence]. f_equal.
    apply map_ext_in. intros k Hin.
    destruct (String.eqb_spec k w) as [->|_]; [contradiction|reflexivity].
  - rewrite IH. destruct (string_dec k w); [congruence|].
    destruct (in_dec string_dec w r); reflexivity.
Qed.

Lemma count_words_keyed (all_words : list string) :
  let toks := filter NameSpec.long_enough all_words in
  count_words all_words
  = map (fun w => (w, Z.of_nat (NameSpec.frequency toks w)))
      (RunSpec.distinct_in_order toks).
Proof.
  cbv zeta. induction all_words as [|w l IH] using rev_ind; [reflexivity|].
  rewrite count_words_snoc, filter_app. simpl.
  destruct (NameSpec.long_enough w); [|now rewrite app_nil_r].
  set (toks := filter NameSpec.long_enough l) in *.
  rewrite IH, dict_get_keyed, dict_set_keyed by apply distinct_in_order_NoDup.
  rewrite distinct_in_order_snoc.
  destruct (in_dec string_dec w (RunSpec.distinct_in_order toks)) as [Hin|Hnot];
    destruct (in_dec string_dec w toks) as [Hin'|Hnot'];
    try (exfalso; apply Hnot'; apply (proj1 (distinct_in_order_In toks w)); exact Hin);
    try (exfalso; apply Hnot; apply (proj2 (distinct_in_order_In toks w)); exact Hin').
  - apply map_ext. intros k. f_equal.
    unfold NameSpec.frequency. rewrite count_occ_app. simpl.
    destruct (String.eqb_spec k w) as [->|Hne].
    + destruct (string_dec w w); [lia|congruence].
    + destruct (string_dec w k); [congruence|lia].
  - rewrite map_app. simpl. f_equal.
    + apply map_ext_in. intros k Hk. f_equal.
      unfold NameSpec.frequency. rewrite count_occ_app. simpl.
      destruct (string_dec w k) as [->|_]; [contradiction|lia].
    + unfold NameSpec.frequency. rewrite count_occ_app. simpl.
      destruct (string_dec w w); [|congruence].
      rewrite (proj1 (count_occ_not_In string_dec toks w) Hnot'). reflexivity.
Qed.

(** X13. The word-count dictionary built by [_generate_cluster_name]
    holds every distinct word longer than two characters exactly once, in
    the order in which the words first appear, each with the number of its
    occurrences; looking a word up gives that number, and 0 for a word that
    does not occur or is too short. *)
Theorem count_words_first_seen (all_words : list string) :
  let toks := filter NameSpec.long_enough all_words in
  count_words all_words
  = map (fun w => (w, Z.of_nat (NameSpec.frequency toks w)))
      (RunSpec.distinct_in_order toks) /\
  NoDup (map fst (count_words all_words)) /\
  (forall w, dict_get (count_words all_words) w 0%Z
             = Z.of_nat (NameSpec.frequency toks w)).
Proof.
  cbv zeta. pose proof (count_words_keyed all_words) as Hk. cbv zeta in Hk.
  split; [exact Hk|]. split.
  - rewrite Hk, map_map. simpl. rewrite map_id. apply distinct_in_order_NoDup.
  - intros w. rewrite Hk, dict_get_keyed.
    destruct (in_dec string_dec w _) as [_|Hnot]; [reflexivity|].
    rewrite distinct_in_order_In in Hnot. symmetry.
    unfold NameSpec.frequency.
    now rewrite (proj1 (count_occ_not_In string_dec _ w) Hnot).
Qed.

(* ------------------------------------------------------------------ *)
(** ** The words of a cluster name *)

Lemma append_snoc_char (cur t : string) (c : ascii) :
  ((cur ++ String c EmptyString) ++ t)%string = (cur ++ String c t)%string.
Proof. induction cur as [|d cur IH]; simpl; [reflexivity|now rewrite IH]. Qed.

Lemma append_empty_r (s : string) : (s ++ EmptyString)%string = s.
Proof. induction s as [|c s IH]; simpl; [reflexivity|now rewrite IH]. Qed.

Lemma has_space_app (a b : string) :
  RunSpec.has_space (a ++ b) = RunSpec.has_space a || RunSpec.has_space b.
Proof.
  induction a as [|c a IH]; simpl; [reflexivity|].
  now rewrite IH, orb_assoc.
Qed.

Lemma str_is_empty_app (a b : string) :
  str_is_empty (a ++ b) = str_is_empty a && str_is_empty b.
Proof. destruct a; reflexivity. Qed.

Lemma split_scan_word (t cur rest : string) :
  RunSpec.has_space t = false ->
  split_scan cur (t ++ rest) = split_scan (cur ++ t) rest.
Proof.
  revert cur. induction t as [|c t IH]; intros cur Ht; simpl.
  - now rewrite append_empty_r.
  - simpl in Ht. apply orb_false_iff in Ht. destruct Ht as [Hc Ht].
    rewrite Hc, IH by exact Ht. now rewrite append_snoc_char.
Qed.

Lemma split_scan_words (s cur : string) :
  RunSpec.has_space cur = false ->
  Forall (fun t => RunSpec.is_word t = true) (split_scan cur s).
Proof.
  revert cur. induction s as [|c s IH]; intros cur Hcur; simpl.
  - destruct (str_is_empty cur) eqn:He; constructor; [|constructor].
    unfold RunSpec.is_word. now rewrite He, Hcur.
  - destruct (py_isspace c) eqn:Hc.
    + destruct (str_is_empty cur) eqn:He; [now apply IH|].
      constructor; [|now apply IH].
      unfold RunSpec.is_word. now rewrite He, Hcur.
    + apply IH. rewrite has_space_app, Hcur. simpl. now rewrite Hc.
Qed.

Lemma py_split_words (s : string) :
  Forall (fun t => RunSpec.is_word t = true) (py_split s).
Proof. now apply split_scan_words. Qed.

Lemma split_scan_after_word (t rest : string) :
  RunSpec.is_word t = true ->
  split_scan EmptyString (t ++ String " " rest)
  = t :: split_scan EmptyString rest.
Proof.
  unfold RunSpec.is_word. intros Ht. apply andb_true_iff in Ht.
  destruct Ht as [Hne Hsp]. apply negb_true_iff in Hne, Hsp.
  rewrite split_scan_word by exact Hsp.
  change (split_scan (EmptyString ++ t) (String " " rest))
    with (if str_is_empty t then split_scan EmptyString rest
          else t :: split_scan EmptyString rest).
  now rewrite Hne.
Qed.

Lemma split_scan_last_word (t : string) :
  RunSpec.is_word t = true -> split_scan EmptyString t = [t].
Proof.
  unfold RunSpec.is_word. intros Ht. apply andb_true_iff in Ht.
  destruct Ht as [Hne Hsp]. apply negb_true_iff in Hne, Hsp.
  rewrite <- (append_empty_r t) at 1.
  rewrite split_scan_word by exact Hsp.
  change (split_scan (EmptyString ++ t) EmptyString)
    with (if str_is_empty t then [] else [t]).
  now rewrite Hne.
Qed.

Lemma py_split_join (l : list string) :
  Forall (fun t => RunSpec.is_word t = true) l ->
  py_split (py_join " " l) = l.
Proof.
  unfold py_split, py_join. induction 1 as [|t l Ht Hl IH]; [reflexivity|].
  destruct l as [|u l].
  - now apply split_scan_last_word.
  - change (String.concat " " (t :: u :: l))
      with (t ++ String " " (String.concat " " (u :: l)))%string.
    rewrite split_scan_after_word by exact Ht. now rewrite IH.
Qed.

Lemma has_space_lower (s : string) :
  RunSpec.has_space (py_lower s) = RunSpec.has_space s.
Proof.
  induction s as [|c s IH]; simpl; [reflexivity|].
  now rewrite py_isspace_lower, IH.
Qed.

Lemma is_word_lower (s : string) :
  RunSpec.is_word (py_lower s) = RunSpec.is_word s.
Proof. unfold RunSpec.is_word. now rewrite str_is_empty_lower, has_space_lower. Qed.

Lemma py_lower_char_idem (c : ascii) :
  py_lower_char (py_lower_char c) = py_lower_char c.
Proof.
  destruct c as [b0 b1 b2 b3 b4 b5 b6 b7].
  destruct b0, b1, b2, b3, b4, b5, b6, b7; reflexivity.
Qed.

Lemma py_lower_idem (s : string) : py_lower (py_lower s) = py_lower s.
Proof.
  induction s as [|c s IH]; simpl; [reflexivity|].
  now rewrite py_lower_char_idem, IH.
Qed.

Lemma tokens_are_words (terms : list string) (w : string) :
  In w (NameSpec.tokens terms) ->
  RunSpec.is_word w = true /\ py_lower w = w /\ (2 < String.length w)%nat.
Proof.
  unfold NameSpec.tokens. rewrite filter_In, in_map_iff.
  intros [(t & <- & Ht) Hlong]. split; [|split].
  - rewrite is_word_lower. apply in_flat_map in Ht. destruct Ht as (term & _ & Ht).
    pose proof (py_split_words term) as Hw. rewrite Forall_forall in Hw. auto.
  - apply py_lower_idem.
  - unfold NameSpec.long_enough in Hlong. now apply Nat.ltb_lt in Hlong.
Qed.

(** X14. When some token survives, the cluster name can be read back:
    split on whitespace it gives the word ["Cluster:"] followed by one to
    three words, which are the most frequent tokens of the cluster, most
    frequent first; each is lowercase, longer than two characters and free of
    whitespace. *)
Theorem cluster_name_words (keywords : list Keyword.t) :
  let toks := NameSpec.tokens (map Keyword.term keywords) in
  toks <> [] ->
  exists name top,
    _generate_cluster_name keywords = Ok name /\
    py_split name = "Cluster:"%string :: top /\
    (1 <= length top <= 3)%nat /\
    NameSpec.top_frequent 3 toks top /\
    Forall (fun w => py_lower w = w /\ (2 < String.length w)%nat /\
                     RunSpec.is_word w = true) top.
Proof.
  intros toks Hne.
  pose proof (common_words_top_frequent
                (flat_map (fun term => py_split (py_lower term))
                   (map Keyword.term keywords))) as Htop.
  cbv zeta in Htop. rewrite all_words_tokens in Htop at 1.
  fold (NameSpec.tokens (map Keyword.term keywords)) in Htop. fold toks in Htop.
  set (common := firstn 3 _) in Htop.
  assert (Hwords : forall w, In w (map fst common) ->
            RunSpec.is_word w = true /\ py_lower w = w /\ (2 < String.length w)%nat).
  { intros w Hw. apply (tokens_are_words (map Keyword.term keywords)).
    destruct Htop as (_ & Hincl & _). now apply Hincl. }
  assert (Hlen : (1 <= length (map fst common) <= 3)%nat).
  { destruct Htop as (_ & _ & Hl & _). rewrite Hl.
    assert (length (nodup string_dec toks) <> 0)%nat.
    { destruct toks as [|t r] eqn:Ht; [congruence|].
      intros H0. apply length_zero_iff_nil in H0.
      assert (Hin : In t (nodup string_dec (t :: r)))
        by (apply nodup_In; left; reflexivity).
      rewrite H0 in Hin. contradiction. }
    lia. }
  exists ("Cluster: " ++ py_join " " (map fst common))%string, (map fst common).
  split; [|split; [|split; [exact Hlen|split; [exact Htop|]]]].
  - unfold _generate_cluster_name.
    change (fun x y : string * Z => (snd y <=? snd x)%Z) with NameSpec.count_geb.
    fold common. destruct common as [|e r]; [simpl in Hlen; lia|reflexivity].
  - replace ("Cluster: " ++ py_join " " (map fst common))%string
      with (py_join " " ("Cluster:"%string :: map fst common)).
    + apply py_split_join. constructor; [reflexivity|].
      apply Forall_forall. intros w Hw. now apply Hwords.
    + destruct (map fst common) as [|w r]; [simpl in Hlen; lia|reflexivity].
  - apply Forall_forall. intros w Hw. destruct (Hwords w Hw) as (H1 & H2 & H3).
    auto.
Qed.

Lemma cluster_name_words_witness :
  exists name top,
    _generate_cluster_name Sample.keywords = Ok name /\
    py_split name = "Cluster:"%string :: top /\
    (1 <= length top <= 3)%nat /\
    NameSpec.top_frequent 3 (NameSpec.tokens (map Keyword.term Sample.keywords)) top /\
    Forall (fun w => py_lower w = w /\ (2 < String.length w)%nat /\
                     RunSpec.is_word w = true) top.
Proof.
  apply (cluster_name_words Sample.keywords). vm_compute. discriminate.
Defined.

Lemma keyword_of_row_fields_witness :
  exists k,
    keyword_of_row Sample.json_loads
      (Sample.row "k3" "trail running shoes" (Some 200%Z) (Some 30%Z) None
         "org" (Some "p1"%string)) = Ok k /\
    Keyword.search_volume k = 200%Z /\
    Keyword.cpc k == 0 /\
    Keyword.difficulty k = 30%Z.
Proof.
  eexists. split; [reflexivity|].
  destruct (keyword_of_row_fields Sample.json_loads
              (Sample.row "k3" "trail running shoes" (Some 200%Z) (Some 30%Z) None
                 "org" (Some "p1"%string)) _ eq_refl) as (H1 & H2 & H3).
  split; [exact H1|]. split; [exact H2|]. apply H3. discriminate.
Defined.

(* ------------------------------------------------------------------ *)
(** ** Ties between equally frequent words *)

Lemma precedes_cons {A : Type} (x : A) (l : list A) (a b : A) :
  RunSpec.precedes (x :: l) a b <-> (a = x /\ In b l) \/ RunSpec.precedes l a b.
Proof.
  unfold RunSpec.precedes. split.
  - intros (l1 & l2 & l3 & H). destruct l1 as [|y l1]; simpl in H.
    + inversion H; subst. left. split; [reflexivity|].
      apply in_or_app. right. left. reflexivity.
    + inversion H; subst. right. eauto.
  - intros [[-> Hb]|(l1 & l2 & l3 & ->)].
    + apply in_split in Hb. destruct Hb as (l2 & l3 & ->).
      exists [], l2, l3. reflexivity.
    + exists (x :: l1), l2, l3. reflexivity.
Qed.

Lemma precedes_In {A : Type} (l : list A) (a b : A) :
  RunSpec.precedes l a b -> In a l /\ In b l.
Proof.
  intros (l1 & l2 & l3 & ->). split.
  - apply in_or_app. right. left. reflexivity.
  - apply in_or_app. right. right. apply in_or_app. right. left. reflexivity.
Qed.

Lemma nth_error_precedes {A : Type} (l : list A) (i j : nat) (a b : A) :
  (i < j)%nat -> nth_error l i = Some a -> nth_error l j = Some b ->
  RunSpec.precedes l a b.
Proof.
  revert i j. induction l as [|x l IH]; intros i j Hij Hi Hj.
  - destruct i; discriminate.
  - apply precedes_cons. destruct j as [|j]; [lia|]. simpl in Hj.
    destruct i as [|i]; simpl in Hi.
    + left. inversion Hi; subst. split; [reflexivity|].
      eapply nth_error_In; eauto.
    + right. apply (IH i j); [lia|assumption..].
Qed.

Lemma precedes_filter {A : Type} (p : A -> bool) (l : list A) (a b : A) :
  RunSpec.precedes (filter p l) a b ->
  RunSpec.precedes l a b /\ p a = true /\ p b = true.
Proof.
  induction l as [|x l IH]; simpl; intros H.
  - destruct H as ([|? ?] & ? & ? & H); discriminate.
  - destruct (p x) eqn:Hx.
    + apply precedes_cons in H. destruct H as [[-> Hb]|H].
      * apply filter_In in Hb. destruct Hb as [Hb Hpb].
        split; [|auto]. apply precedes_cons. left; auto.
      * destruct (IH H) as (Hp & Ha & Hb). split; [|auto].
        apply precedes_cons. right; exact Hp.
    + destruct (IH H) as (Hp & Ha & Hb). split; [|auto].
      apply precedes_cons. right; exact Hp.
Qed.

Lemma precedes_map {A B : Type} (f : A -> B) (l : list A) (a b : A) :
  RunSpec.precedes l a b -> RunSpec.precedes (map f l) (f a) (f b).
Proof.
  intros (l1 & l2 & l3 & ->). exists (map f l1), (map f l2), (map f l3).
  now rewrite map_app, map_cons, map_app, map_cons.
Qed.

Section Stability.

Context {A : Type}.
Variable geb : A -> A -> bool.

Lemma insert_desc_precedes (x : A) (s : list A) (a b : A) :
  RunSpec.precedes (insert_desc geb x s) a b ->
  RunSpec.precedes s a b \/ (a = x /\ In b s) \/ (b = x /\ geb x a = false).
Proof.
  induction s as [|y s IH]; simpl; intros H.
  - destruct H as ([|? [|? ?]] & ? & ? & H); try discriminate.
    inversion H as [[Ha Hnil]]. destruct x0; discriminate.
  - destruct (geb x y) eqn:Hxy.
    + apply precedes_cons in H. destruct H as [[-> Hb]|H]; auto.
    + apply precedes_cons in H. destruct H as [[-> Hb]|H].
      * apply (Permutation_in _ (insert_desc_perm geb x s)) in Hb.
        destruct Hb as [<-|Hb]; [right; right; auto|].
        left. apply precedes_cons. left; auto.
      * destruct (IH H) as [Hp|[[-> Hb]|[-> Hg]]].
        -- left. apply precedes_cons. right; exact Hp.
        -- right; left. split; [reflexivity|now right].
        -- right; right. auto.
Qed.

(** The sort is stable: when [a] comes before [b] in the sorted list
    although the key of [b] is at least that of [a], [a] came before [b]
    in the list that was sorted. *)
Lemma sort_desc_stable (l : list A) (a b : A) :
  RunSpec.precedes (sort_desc geb l) a b -> geb b a = true ->
  RunSpec.precedes l a b.
Proof.
  revert a b. induction l as [|x r IH]; simpl; intros a b H Hba.
  - destruct H as ([|? ?] & ? & ? & H); discriminate.
  - apply insert_desc_precedes in H. apply precedes_cons.
    destruct H as [Hp|[[-> Hb]|[-> Hg]]].
    + right. now apply IH.
    + left. split; [reflexivity|].
      apply (Permutation_in _ (sort_desc_perm geb r)). exact Hb.
    + congruence.
Qed.

End Stability.

Lemma distinct_in_order_first (toks : list string) (w u : string) :
  RunSpec.precedes (RunSpec.distinct_in_order toks) w u ->
  RunSpec.first_before toks w u.
Proof.
  induction toks as [|x r IH]; simpl; intros H.
  - destruct H as ([|? ?] & ? & ? & H); discriminate.
  - apply precedes_cons in H. destruct H as [[-> _]|H].
    + exists [], r. simpl. auto.
    + apply precedes_filter in H. destruct H as (Hp & Hw & Hu).
      apply negb_true_iff in Hw, Hu.
      apply String.eqb_neq in Hw, Hu.
      destruct (IH Hp) as (pre & post & -> & Hnw & Hnu).
      exists (x :: pre), post. simpl. split; [reflexivity|].
      split; intros [E|E]; congruence || auto.
Qed.

(** X15. Ties in the cluster name go to the word seen first. With the
    words of the name as in the amended C6 (the most frequent tokens, at
    most three), of two equally frequent words of the name the one written
    first appears first in the cluster's terms, and a token left out of the
    name although as frequent as a word in it appears only after that word. *)
Theorem cluster_name_ties (keywords : list Keyword.t) :
  let terms := map Keyword.term keywords in
  let toks := NameSpec.tokens terms in
  exists top,
    NameSpec.top_frequent 3 toks top /\
    (keywords <> [] ->
     _generate_cluster_name keywords = Ok (NameSpec.prefixed_name terms top)) /\
    (forall i j w u, (i < j)%nat ->
       nth_error top i = Some w -> nth_error top j = Some u ->
       NameSpec.frequency toks w = NameSpec.frequency toks u ->
       RunSpec.first_before toks w u) /\
    (forall w u, In w top -> In u toks -> ~ In u top ->
       NameSpec.frequency toks w = NameSpec.frequency toks u ->
       RunSpec.first_before toks w u).
Proof.
  intros terms toks.
  set (all_words := flat_map (fun term => py_split (py_lower term)) terms).
  assert (Htoks : filter NameSpec.long_enough all_words = toks).
  { unfold all_words, toks, NameSpec.tokens. now rewrite all_words_tokens. }
  pose proof (common_words_top_frequent all_words) as Htop.
  pose proof (count_words_keyed all_words) as Hd.
  cbv zeta in Htop, Hd. rewrite Htoks in Htop, Hd.
  set (d := count_words all_words) in *.
  set (sorted := sort_desc NameSpec.count_geb d) in *.
  assert (Hval : forall w v, In (w, v) sorted ->
                             v = Z.of_nat (NameSpec.frequency toks w)).
  { intros w v Hin.
    apply (Permutation_in _ (sort_desc_perm NameSpec.count_geb d)) in Hin.
    rewrite Hd in Hin. apply in_map_iff in Hin.
    destruct Hin as (w' & Heq & _). now inversion Heq. }
  assert (Hties : forall w vw u vu,
            RunSpec.precedes sorted (w, vw) (u, vu) ->
            NameSpec.frequency toks w = NameSpec.frequency toks u ->
            RunSpec.first_before toks w u).
  { intros w vw u vu Hp Hfreq.
    destruct (precedes_In _ _ _ Hp) as [Hw Hu].
    apply Hval in Hw, Hu.
    apply sort_desc_stable in Hp.
    - apply (precedes_map fst) in Hp. simpl in Hp.
      rewrite Hd, map_map in Hp. simpl in Hp. rewrite map_id in Hp.
      now apply distinct_in_order_first.
    - unfold NameSpec.count_geb. simpl. apply Z.leb_le. subst vw vu. lia. }
  exists (map fst (firstn 3 sorted)).
  split; [exact Htop|]. split; [|split].
  - intros Hne. unfold _generate_cluster_name. fold terms. fold all_words.
    change (fun x y : string * Z => (snd y <=? snd x)%Z) with NameSpec.count_geb.
    fold d. fold sorted.
    destruct (firstn 3 sorted) as [|e r]; simpl; [|reflexivity].
    unfold terms. destruct keywords as [|kw rest]; [congruence|reflexivity].
  - intros i j w u Hij Hi Hj Hfreq.
    rewrite nth_error_map in Hi, Hj.
    destruct (nth_error (firstn 3 sorted) i) as [[w' vw]|] eqn:Ei; [|discriminate].
    destruct (nth_error (firstn 3 sorted) j) as [[u' vu]|] eqn:Ej; [|discriminate].
    simpl in Hi, Hj. inversion Hi; inversion Hj; subst w' u'.
    apply nth_error_firstn_Some in Ei, Ej.
    apply (Hties w vw u vu); [|exact Hfreq].
    apply (nth_error_precedes sorted i j); tauto.
  - intros w u Hw Hu Hnot Hfreq.
    apply in_map_iff in Hw. destruct Hw as ([w' vw] & Hfst & Hw).
    simpl in Hfst; subst w'.
    destruct (In_nth_error _ _ Hw) as (i & Hi).
    apply nth_error_firstn_Some in Hi. destruct Hi as [Hi3 Hi].
    assert (Hus : In u (map fst sorted)).
    { apply (Permutation_in (l:=map fst d)).
      - apply Permutation_map. symmetry. apply sort_desc_perm.
      - rewrite Hd, map_map. simpl. rewrite map_id.
        now apply distinct_in_order_In. }
    apply in_map_iff in Hus. destruct Hus as ([u' vu] & Hfst & Hus).
    simpl in Hfst; subst u'.
    destruct (In_firstn_or_later sorted 3 (u, vu) Hus) as [Hin|(j & Hj & Hnth)].
    { exfalso. apply Hnot. apply in_map_iff. exists (u, vu). auto. }
    apply (Hties w vw u vu); [|exact Hfreq].
    apply (nth_error_precedes sorted i j); auto. lia.
Qed.

Lemma cluster_name_ties_witness :
  exists top,
    NameSpec.top_frequent 3
      (NameSpec.tokens (map Keyword.term Sample.keywords)) top /\
    _generate_cluster_name Sample.keywords
    = Ok (NameSpec.prefixed_name (map Keyword.term Sample.keywords) top) /\
    (forall i j w u, (i < j)%nat ->
       nth_error top i = Some w -> nth_error top j = Some u ->
       NameSpec.frequency (NameSpec.tokens (map Keyword.term Sample.keywords)) w
       = NameSpec.frequency (NameSpec.tokens (map Keyword.term Sample.keywords)) u ->
       RunSpec.first_before
         (NameSpec.tokens (map Keyword.term Sample.keywords)) w u).
Proof.
  destruct (cluster_name_ties Sample.keywords) as (top & Htop & Hname & Hties & _).
  exists top. split; [exact Htop|]. split; [|exact Hties].
  apply Hname. discriminate.
Defined.
